(** * Signifier retrieval: registry, intent matcher, subsumption engine, ranker

    A shallow embedding of the Python sources

      - [src/models/signifier.py]        (data model)
      - [src/subsumption/sse.py]         (Structured Subsumption Engine)
      - [src/matching/string_matcher.py] (Intent Matcher v0)
      - [src/ranking/ranker.py]          (Ranker and Policy)
      - [src/storage/representation.py]  (RDF parsing and generation)
      - [src/storage/memory_store.py], [src/storage/registry.py]
      - [src/matching/registry.py]       (matcher versions; of
        [src/matching/embedding_matcher.py] the guards of [match])
      - [src/orchestrator/orchestrator.py] (the stages of [retrieve])
      - [src/validation/authoring_validator.py]

    followed by the properties established about them.

    Conventions.  Python [int] is [Z]; Python [float] is read as an exact
    rational [Q] (rounding, infinities and NaN are outside the model, so
    a statement about scores is a statement about exact numbers);
    [str] is [string], restricted to ASCII text; a [dict] used as a map is a
    [gmap]; an [Optional] value or a dictionary key that may be missing is an
    [option]; a raised exception is the [Err] branch of [result].  Of
    [rdflib], the parser is a parameter of the runtime and the Turtle
    serializer is modelled by the one condition under which it raises, a
    URI reference with a character that is invalid in a URI.  Log output
    and human-readable message texts are not modelled. *)

From Stdlib Require Import ZArith QArith Qminmax List Ascii String Bool Lia.
From Stdlib Require Import DecimalString.
From Stdlib Require Import Sorting.Sorted Sorting.Permutation.
From stdpp Require Import base option list sorting gmap strings.

Set Warnings "-register-all,-clear-no-such-hyp".
Open Scope string_scope.
Open Scope Z_scope.

(** ** Python values and the runtime *)

Module Py.

(** Exceptions.  The sources raise [ValueError] only; [TypeError] and
    [LibraryError] (an exception of [rdflib], [json] or [pydantic], or an
    [AttributeError]) appear where a call is caught or escapes.
    [Unmodelled] marks a run that leaves the modelled fragment of the
    data (a condition value that is not a scalar). *)
Inductive exn :=
| ValueError (msg : string)
| TypeError (msg : string)
| LibraryError (msg : string)
| Unmodelled (what : string).

Inductive result (A : Type) :=
| Ok (a : A)
| Err (e : exn).
Arguments Ok {A} a.
Arguments Err {A} e.

Definition bind {A B} (r : result A) (k : A -> result B) : result B :=
  match r with
  | Ok a => k a
  | Err e => Err e
  end.

Definition is_ok {A} (r : result A) : bool :=
  match r with Ok _ => true | Err _ => false end.

(** Scalar values of the data model: [None], [bool], [int], [float],
    [str]. *)
Inductive scalar :=
| SNone
| SBool (b : bool)
| SInt (z : Z)
| SFloat (q : Q)
| SStr (s : string).

(** Values produced by [json.loads]. *)
Inductive json :=
| JNull
| JBool (b : bool)
| JInt (z : Z)
| JFloat (q : Q)
| JStr (s : string)
| JArr (l : list json)
| JObj (l : list (string * json)).

(** [d.get(key)] on a decoded JSON object: the last binding of a
    repeated key wins, as in [json.loads]. *)
Fixpoint obj_get (key : string) (l : list (string * json)) : option json :=
  match l with
  | [] => None
  | (k, v) :: l' =>
      match obj_get key l' with
      | Some w => Some w
      | None => if String.eqb k key then Some v else None
      end
  end.

(** RDF terms and graphs as [rdflib] presents them.  A graph is a set of
    triples; it is kept as a list, whose order stands for the
    (unspecified) iteration order of the library. *)
Inductive node :=
| URIRef (s : string)
| BNode (s : string)
| Literal (lex : string).

Definition triple : Type := node * node * node.
Definition Graph : Type := list triple.

#[global] Instance node_eq_dec : EqDecision node.
Proof. solve_decision. Defined.

(** [str(term)] *)
Definition node_str (n : node) : string :=
  match n with URIRef s | BNode s | Literal s => s end.

(** Truthiness of a term: all three are string subclasses, a plain or
    [xsd:string] literal is truthy when its lexical form is non-empty. *)
Definition node_truthy (n : node) : bool :=
  negb (String.eqb (node_str n) "").

(** A Turtle document: either a text of unknown provenance, or the text
    that [Graph.serialize(format="turtle")] produced for a graph.  The
    second form records the round trip of the library: parsing the
    serializer's output gives the graph back. *)
Inductive rdf_text :=
| Text (s : string)
| Serialized (g : Graph).

(** The part of the Python runtime and of [rdflib]/[json] that the
    sources call and that is not code of the repository. *)
Class Runtime := {
  (** [float(s)] on a string; [None] when it raises [ValueError] *)
  float_of_str : string -> option Q;
  (** [str(x)] on a scalar *)
  py_str : scalar -> string;
  (** [str(x)] on a decoded JSON value that is not a string *)
  py_repr : json -> string;
  (** [json.dumps(x)] *)
  json_dumps : json -> string;
  (** [Graph().parse(data=s, format=f)]; [None] when it raises *)
  rdf_parse : string -> string -> option Graph;
  (** [json.loads(s)]; [None] when it raises [JSONDecodeError] *)
  json_loads : string -> option json;
  (** [RepresentationService._preprocess_rdf], a purely textual pass
      (comment stripping, prefix injection, literal re-quoting) *)
  preprocess_rdf : string -> string
}.

(** Truthiness of a Turtle document used as a condition ([if rdf_data:]).
    The serializer always ends its output with a newline. *)
Definition rdf_text_truthy (t : rdf_text) : bool :=
  match t with
  | Text s => negb (String.eqb s "")
  | Serialized _ => true
  end.

Definition parse_rdf_text `{Runtime} (t : rdf_text) (format : string) : option Graph :=
  match t with
  | Text s => rdf_parse s format
  | Serialized g => Some g
  end.

(** The characters of [rdflib.term._invalid_uri_chars]: the double quote
    and [<], [>], space, [{], [}], [|], [\], [^], the backquote. *)
Definition invalid_uri_chars : list ascii :=
  ascii_of_nat 34 :: list_ascii_of_string "<> {}|\^`".

(** [rdflib.term._is_valid_uri] *)
Fixpoint valid_uri (uri : string) : bool :=
  match uri with
  | EmptyString => true
  | String c rest =>
      negb (existsb (Ascii.eqb c) invalid_uri_chars) && valid_uri rest
  end.

(** The Turtle serializer writes a URI reference that has no prefixed
    name with [URIRef.n3], which raises for a reference that is not
    [_is_valid_uri]; blank nodes and literals are always written. *)
Definition node_serializable (n : node) : bool :=
  match n with
  | URIRef s => valid_uri s
  | BNode _ | Literal _ => true
  end.

Definition triple_serializable (t : triple) : bool :=
  node_serializable t.1.1 && node_serializable t.1.2 && node_serializable t.2.

Definition serializable (g : Graph) : bool := forallb triple_serializable g.

(** [graph.serialize(format="turtle")] *)
Definition serialize (g : Graph) : result rdf_text :=
  if serializable g then Ok (Serialized g)
  else Err (LibraryError "does not look like a valid URI, I cannot serialize this").

End Py.

Import Py.

(** ** Data model: [src/models/signifier.py] *)

Module Model.

Inductive SignifierStatus := ACTIVE | DEPRECATED.

#[global] Instance SignifierStatus_eq_dec : EqDecision SignifierStatus.
Proof. solve_decision. Defined.

Record Provenance := {
  created_at : Z;
  created_by : string;
  source : string
}.

Record ValueCondition := {
  operator : string;
  value : scalar;
  datatype : option string
}.

Definition allowed_operators : list string :=
  ["greaterThan"; "lessThan"; "greaterEqual"; "lessEqual"; "equals"; "notEquals"].

(** [ValueCondition.validate_operator] together with [min_length=1] *)
Definition validate_operator (v : string) : bool :=
  bool_decide (v ∈ allowed_operators).

Record StructuredCondition := {
  artifact : string;
  property_affordance : string;
  value_conditions : list ValueCondition
}.

Record IntentionDescription := {
  nl_text : string;
  structured : option (list (string * json))
}.

Record IntentContext := {
  structured_conditions : list StructuredCondition;
  shacl_shapes : option rdf_text;
  nl_description : option string
}.

Record Signifier := {
  signifier_id : string;
  version : Z;
  status : SignifierStatus;
  intent : IntentionDescription;
  context : IntentContext;
  affordance_uri : string;
  provenance : Provenance
}.

Definition nonempty (s : string) : bool := negb (String.eqb s "").

(** The field constraints that pydantic checks when a model object is
    constructed (and therefore when a stored document is read back). *)
Definition valid_value_condition (vc : ValueCondition) : bool :=
  validate_operator (operator vc).

Definition valid_structured_condition (c : StructuredCondition) : bool :=
  nonempty (artifact c) && nonempty (property_affordance c)
  && forallb valid_value_condition (value_conditions c).

Definition valid_signifier (s : Signifier) : bool :=
  nonempty (signifier_id s)
  && (1 <=? version s)
  && nonempty (nl_text (intent s))
  && forallb valid_structured_condition (structured_conditions (context s))
  && nonempty (affordance_uri s)
  && nonempty (created_by (provenance s)).

(** [Signifier.get_property_keys] *)
Definition get_property_keys (s : Signifier) : list (string * string) :=
  map (fun condition => (artifact condition, property_affordance condition))
      (structured_conditions (context s)).

Definition with_version (s : Signifier) (v : Z) : Signifier :=
  {| signifier_id := signifier_id s; version := v; status := status s;
     intent := intent s; context := context s;
     affordance_uri := affordance_uri s; provenance := provenance s |}.

Definition with_status (s : Signifier) (st : SignifierStatus) : Signifier :=
  {| signifier_id := signifier_id s; version := version s; status := st;
     intent := intent s; context := context s;
     affordance_uri := affordance_uri s; provenance := provenance s |}.

End Model.

(** ** Structured Subsumption Engine: [src/subsumption/sse.py] *)

Module SSE.
Import Model.

Record SSEViolation := {
  v_artifact : string;
  v_property_affordance : string;
  v_operator : string;
  v_expected_value : scalar;
  v_actual_value : scalar
}.

Record SSEResult := {
  sse_pass : bool;
  violations : list SSEViolation;
  conditions_checked : Z;
  missing_properties : list (string * string)
}.

(** The engine object: its two constructor arguments. *)
Record SSE := {
  missing_value_policy : string;
  enable_type_coercion : bool
}.

(** [isinstance(v, (int, float))]; [bool] is a subclass of [int]. *)
Definition is_number (v : scalar) : bool :=
  match v with
  | SBool _ | SInt _ | SFloat _ => true
  | SNone | SStr _ => false
  end.

(** [isinstance(v, str)] *)
Definition is_str (v : scalar) : bool :=
  match v with SStr _ => true | _ => false end.

Definition num_value (v : scalar) : option Q :=
  match v with
  | SBool b => Some (if b then 1%Q else 0%Q)
  | SInt z => Some (inject_Z z)
  | SFloat q => Some q
  | SNone | SStr _ => None
  end.

Section WithRuntime.
Context `{Runtime}.

(** [float(v)]: [Err] stands for the [ValueError] (unparsable string)
    or [TypeError] ([None]) it raises. *)
Definition py_float (v : scalar) : result Q :=
  match v with
  | SStr s =>
      match float_of_str s with
      | Some q => Ok q
      | None => Err (ValueError "could not convert string to float")
      end
  | SNone => Err (TypeError "float() argument must be a string or a real number")
  | SBool b => Ok (if b then 1%Q else 0%Q)
  | SInt z => Ok (inject_Z z)
  | SFloat q => Ok q
  end.

(** The coercion block of [_evaluate_condition]: the value the
    comparison is made on.  A failed conversion is caught and logged;
    [actual_value] then keeps its original value. *)
Definition coerce (expected_value actual_value : scalar) : scalar :=
  if is_number expected_value && negb (is_number actual_value) then
    match py_float actual_value with
    | Ok q => SFloat q
    | Err _ => actual_value
    end
  else if is_str expected_value && negb (is_str actual_value) then
    SStr (py_str actual_value)
  else actual_value.

(** Whether the conversion attempted by the coercion block raised. *)
Definition coercion_fails (expected_value actual_value : scalar) : bool :=
  is_number expected_value && negb (is_number actual_value)
  && negb (is_ok (py_float actual_value)).

End WithRuntime.

(** Python's ordering of two scalars: [None] when [<] raises [TypeError]
    (a number against a string, anything against [None]). *)
Definition py_compare (a b : scalar) : option comparison :=
  match num_value a, num_value b with
  | Some x, Some y => Some (Qcompare x y)
  | _, _ =>
      match a, b with
      | SStr s, SStr t => Some (String.compare s t)
      | _, _ => None
      end
  end.

(** Python's [==] on two scalars; it never raises. *)
Definition py_eq (a b : scalar) : bool :=
  match num_value a, num_value b with
  | Some x, Some y => Qeq_bool x y
  | _, _ =>
      match a, b with
      | SStr s, SStr t => String.eqb s t
      | SNone, SNone => true
      | _, _ => false
      end
  end.

(** The operator dispatch inside the [try] of [_evaluate_condition]:
    [Err] is the [TypeError] of an unordered comparison. *)
Definition apply_operator (operator : string) (actual_value expected_value : scalar)
  : result bool :=
  let ordered (f : comparison -> bool) :=
    match py_compare actual_value expected_value with
    | Some c => Ok (f c)
    | None => Err (TypeError "unorderable operands")
    end in
  if String.eqb operator "greaterThan" then
    ordered (fun c => match c with Gt => true | _ => false end)
  else if String.eqb operator "lessThan" then
    ordered (fun c => match c with Lt => true | _ => false end)
  else if String.eqb operator "greaterEqual" then
    ordered (fun c => match c with Lt => false | _ => true end)
  else if String.eqb operator "lessEqual" then
    ordered (fun c => match c with Gt => false | _ => true end)
  else if String.eqb operator "equals" then
    Ok (py_eq actual_value expected_value)
  else if String.eqb operator "notEquals" then
    Ok (negb (py_eq actual_value expected_value))
  else Ok false.

(** The pair of a structured condition is absent from the context
    features. *)
Definition is_missing (context_features : gmap string (gmap string scalar))
    (condition : StructuredCondition) : Prop :=
  default ∅ (context_features !! artifact condition) !! property_affordance condition = None.

(** The violation recorded for an absent pair under policy [fail]. *)
Definition missing_violation (condition : StructuredCondition) : SSEViolation :=
  {| v_artifact := artifact condition;
     v_property_affordance := property_affordance condition;
     v_operator := "missing";
     v_expected_value := SStr "<present>";
     v_actual_value := SNone |}.

Section Engine.
Context `{Runtime}.
Variable self : SSE.

(** [SSE._evaluate_condition] *)
Definition _evaluate_condition (condition : ValueCondition) (actual_value : scalar)
  : bool :=
  let expected_value := value condition in
  let actual_value :=
    if enable_type_coercion self then coerce expected_value actual_value
    else actual_value in
  match apply_operator (operator condition) actual_value expected_value with
  | Ok b => b
  | Err _ => false
  end.

(** The inner loop of [evaluate] over the value conditions of one
    structured condition; the accumulators are the loop's variables. *)
Fixpoint check_values (artifact property_affordance : string) (actual_value : scalar)
    (vcs : list ValueCondition) (violations : list SSEViolation) (checked : Z)
  : list SSEViolation * Z :=
  match vcs with
  | [] => (violations, checked)
  | value_condition :: rest =>
      let checked := checked + 1 in
      let passed := _evaluate_condition value_condition actual_value in
      let violations :=
        if passed then violations
        else (violations ++
             [{| v_artifact := artifact;
                 v_property_affordance := property_affordance;
                 v_operator := operator value_condition;
                 v_expected_value := value value_condition;
                 v_actual_value := actual_value |}])%list in
      check_values artifact property_affordance actual_value rest violations checked
  end.

(** The outer loop of [evaluate]. *)
Fixpoint evaluate_loop (conds : list StructuredCondition)
    (context_features : gmap string (gmap string scalar))
    (violations : list SSEViolation) (missing : list (string * string)) (checked : Z)
  : list SSEViolation * list (string * string) * Z :=
  match conds with
  | [] => (violations, missing, checked)
  | condition :: rest =>
      let artifact := Model.artifact condition in
      let property_affordance := Model.property_affordance condition in
      let artifact_data := default ∅ (context_features !! artifact) in
      match artifact_data !! property_affordance with
      | None =>
          let missing := (missing ++ [(artifact, property_affordance)])%list in
          let violations :=
            if String.eqb (missing_value_policy self) "fail" then
              (violations ++
              [{| v_artifact := artifact;
                  v_property_affordance := property_affordance;
                  v_operator := "missing";
                  v_expected_value := SStr "<present>";
                  v_actual_value := SNone |}])%list
            else violations in
          evaluate_loop rest context_features violations missing checked
      | Some actual_value =>
          let '(violations, checked) :=
            check_values artifact property_affordance actual_value
              (value_conditions condition) violations checked in
          evaluate_loop rest context_features violations missing checked
      end
  end.

(** [SSE.evaluate] *)
Definition evaluate (structured_conditions : list StructuredCondition)
    (context_features : gmap string (gmap string scalar)) : SSEResult :=
  match structured_conditions with
  | [] => {| sse_pass := true; violations := []; conditions_checked := 0;
             missing_properties := [] |}
  | _ =>
      let '(violations, missing, checked) :=
        evaluate_loop structured_conditions context_features [] [] 0 in
      {| sse_pass := Nat.eqb (length violations) 0;
         violations := violations;
         conditions_checked := checked;
         missing_properties := missing |}
  end.

End Engine.

End SSE.

(** ** Python list operations shared by the matcher and the ranker *)

Module PyList.

#[global] Instance Qeq_decision (x y : Q) : Decision (x == y)%Q := Qeq_dec x y.

Section Sort.
Context {A : Type}.
Variable key : A -> Q.

(** One insertion step of a stable descending sort: [x] goes in front
    of the first element whose key is not larger than its own. *)
Fixpoint insert_desc (x : A) (l : list A) : list A :=
  match l with
  | [] => [x]
  | y :: l' =>
      if Qle_bool (key y) (key x) then x :: y :: l'
      else y :: insert_desc x l'
  end.

(** [l.sort(key=key, reverse=True)]: descending by key, elements with
    equal keys keep their original relative order. *)
Definition sort_desc (l : list A) : list A :=
  foldr insert_desc [] l.

(** Descending order of the keys. *)
Definition desc (a b : A) : Prop := (key b <= key a)%Q.
End Sort.

(** [l[:k]] *)
Definition slice_to {A : Type} (k : Z) (l : list A) : list A :=
  if 0 <=? k then take (Z.to_nat k) l
  else take (Z.to_nat (Z.of_nat (length l) + k)) l.

(** How a slice bound is brought into [0 .. len]. *)
Definition clamp_index (len i : Z) : Z :=
  if i <? 0 then Z.max 0 (len + i) else Z.min i len.

(** [l[start:stop]] *)
Definition slice {A : Type} (start stop : Z) (l : list A) : list A :=
  let len := Z.of_nat (length l) in
  let a := clamp_index len start in
  let b := clamp_index len stop in
  take (Z.to_nat (b - a)) (drop (Z.to_nat a) l).

End PyList.

(** ** Intent Matcher v0: [src/matching/string_matcher.py] *)

Module StringContainsMatcher.

(** [MatchResult] of [src/matching/base.py]; the metadata dictionary
    holds the matcher version and the matched tokens. *)
Record MatchResult := {
  signifier_id : string;
  similarity : Q;
  matcher_version : string;
  matched_tokens : list string
}.

(** A signifier as the matcher receives it: a dictionary in which the
    keys it reads may be missing.  [intent_nl_text] is
    [signifier.get("intent", {}).get("nl_text")], [intent_structured] is
    [signifier.get("intent", {}).get("structured")] ([None] also when
    the stored value is [None]). *)
Record SignifierDict := {
  d_signifier_id : option string;
  d_nl_text : option string;
  d_structured : option (list (string * json))
}.

(** [\w] on ASCII: letters, digits and the underscore. *)
Definition is_word_char (c : ascii) : bool :=
  let n := N_of_ascii c in
  ((48 <=? n) && (n <=? 57) || (65 <=? n) && (n <=? 90)
   || (97 <=? n) && (n <=? 122) || (n =? 95))%N.

Definition lower_char (c : ascii) : ascii :=
  let n := N_of_ascii c in
  if ((65 <=? n) && (n <=? 90))%N then ascii_of_N (n + 32) else c.

(** [text.lower()] *)
Fixpoint lower (text : string) : string :=
  match text with
  | EmptyString => EmptyString
  | String c rest => String (lower_char c) (lower rest)
  end.

Definition flush (cur : string) : list string :=
  if String.eqb cur "" then [] else [cur].

(** [re.findall(r'\b\w+\b', text)]: the maximal runs of word
    characters, left to right; [cur] is the run being read. *)
Fixpoint findall_words (text : string) (cur : string) : list string :=
  match text with
  | EmptyString => flush cur
  | String c rest =>
      if is_word_char c then findall_words rest (cur ++ String c EmptyString)
      else (flush cur ++ findall_words rest "")%list
  end.

Definition VERSION : string := "v0".

(** [StringContainsMatcher._tokenize] *)
Definition _tokenize (text : string) (case_sensitive : bool) : list string :=
  let text := if case_sensitive then text else lower text in
  let tokens := findall_words text "" in
  filter (fun t => (2 < String.length t)%nat) tokens.

(** The similarity as the specification words it: the number of distinct
    query tokens found in the signifier's token set, over the length of
    the query token sequence. *)
Definition claimed_similarity (query_tokens : list string) (tokens : gset string) : Q :=
  (inject_Z (Z.of_nat (size (list_to_set query_tokens ∩ tokens)))
   / inject_Z (Z.of_nat (length query_tokens)))%Q.

Section WithRuntime.
Context `{Runtime}.

(** The token set that [_compute_similarity] and [_get_matched_tokens]
    both build from the signifier. *)
Definition all_signifier_tokens (signifier : SignifierDict) (case_sensitive : bool)
  : gset string :=
  let nl_text := default "" (d_nl_text signifier) in
  let nl_tokens := _tokenize nl_text case_sensitive in
  let structured_text :=
    match d_structured signifier with
    | Some (_ :: _ as d) => py_repr (JObj d)
    | Some [] | None => ""
    end in
  let structured_tokens := _tokenize structured_text case_sensitive in
  list_to_set (nl_tokens ++ structured_tokens)%list.

(** [sum(1 for token in query_tokens if token in all_signifier_tokens)] *)
Definition count_matches (query_tokens : list string) (tokens : gset string) : nat :=
  length (filter (fun token => token ∈ tokens) query_tokens).

(** [StringContainsMatcher._compute_similarity] *)
Definition _compute_similarity (query_tokens : list string)
    (signifier : SignifierDict) (case_sensitive : bool) : Q :=
  let tokens := all_signifier_tokens signifier case_sensitive in
  if decide (tokens = ∅) then 0%Q
  else
    let matches := count_matches query_tokens tokens in
    match query_tokens with
    | [] => 0%Q
    | _ => (inject_Z (Z.of_nat matches) / inject_Z (Z.of_nat (length query_tokens)))%Q
    end.

(** [StringContainsMatcher._get_matched_tokens] *)
Definition _get_matched_tokens (query_tokens : list string)
    (signifier : SignifierDict) (case_sensitive : bool) : list string :=
  let tokens := all_signifier_tokens signifier case_sensitive in
  filter (fun token => token ∈ tokens) query_tokens.

(** The body of the loop of [match]: the result appended for one
    signifier, if any. *)
Definition match_one (query_tokens : list string) (case_sensitive : bool)
    (signifier : SignifierDict) : list MatchResult :=
  let similarity := _compute_similarity query_tokens signifier case_sensitive in
  if negb (Qle_bool similarity 0) then
    [{| signifier_id := default "unknown" (d_signifier_id signifier);
        similarity := similarity;
        matcher_version := VERSION;
        matched_tokens := _get_matched_tokens query_tokens signifier case_sensitive |}]
  else [].

(** [StringContainsMatcher.match] *)
Definition match_ (intent_query : string) (signifiers : list SignifierDict)
    (k : Z) (case_sensitive : bool) : result (list MatchResult) :=
  if String.eqb intent_query "" then
    Err (ValueError "intent_query cannot be empty")
  else
    match signifiers with
    | [] => Ok []
    | _ =>
        let query_tokens := _tokenize intent_query case_sensitive in
        let results := flat_map (match_one query_tokens case_sensitive) signifiers in
        let results := PyList.sort_desc similarity results in
        Ok (PyList.slice_to k results)
    end.

End WithRuntime.

End StringContainsMatcher.

(** ** Ranker and Policy: [src/ranking/ranker.py] *)

Module Ranker.

(** The value of a signal: a boolean or a number. *)
Inductive signal_value :=
| VBool (b : bool)
| VNum (q : Q).

Record RankingSignal := {
  name : string;
  value : signal_value;
  weight : Q;
  is_gate : bool
}.

Record RankedResult := {
  signifier_id : option string;
  final_score : Q;
  signals : list RankingSignal;
  passed_gates : bool;
  meta_constraint_count : Z;
  meta_shacl_has_shapes : bool
}.

(** A candidate dictionary: each key that [rank] reads may be missing. *)
Record Candidate := {
  c_signifier_id : option string;
  c_intent_similarity : option Q;
  c_shacl_conforms : option bool;
  c_shacl_has_shapes : option bool;
  c_sse_pass : option bool;
  c_constraint_count : option Z
}.

Record Ranker := {
  weights : gmap string Q;
  enable_shacl_gate : bool;
  enable_sse_gate : bool;
  specificity_boost : Q
}.

Definition default_weights : gmap string Q :=
  <["intent_similarity" := (7 # 10)%Q]>
    (<["shacl" := (2 # 10)%Q]> (<["sse" := (1 # 10)%Q]> ∅)).

(** [Ranker.__init__]: [weights or {...}] replaces a missing or empty
    dictionary by the default weights. *)
Definition init (weights : option (gmap string Q)) (enable_shacl_gate enable_sse_gate : bool)
    (specificity_boost : Q) : Ranker :=
  {| weights :=
       match weights with
       | Some w => if decide (w = ∅) then default_weights else w
       | None => default_weights
       end;
     enable_shacl_gate := enable_shacl_gate;
     enable_sse_gate := enable_sse_gate;
     specificity_boost := specificity_boost |}.

(** [Ranker()] with the default arguments. *)
Definition default_ranker : Ranker := init None true false (1 # 100)%Q.

(** The normalisation inside [_calculate_weighted_score]. *)
Definition normalize (v : signal_value) : Q :=
  match v with
  | VBool b => if b then 1%Q else 0%Q
  | VNum q => q
  end.

(** The loop of [_calculate_weighted_score] with its two accumulators
    [(total_weight, weighted_sum)]. *)
Fixpoint accumulate (signals : list RankingSignal) (total_weight weighted_sum : Q)
  : Q * Q :=
  match signals with
  | [] => (total_weight, weighted_sum)
  | signal :: rest =>
      if is_gate signal then accumulate rest total_weight weighted_sum
      else
        let signal_value := normalize (value signal) in
        accumulate rest (total_weight + weight signal)%Q
                   (weighted_sum + signal_value * weight signal)%Q
  end.

(** [Ranker._calculate_weighted_score] *)
Definition _calculate_weighted_score (signals : list RankingSignal) : Q :=
  let '(total_weight, weighted_sum) := accumulate signals 0%Q 0%Q in
  if Qeq_bool total_weight 0 then 0%Q
  else (weighted_sum / total_weight)%Q.

Section Rank.
Variable self : Ranker.

(** The signals that the loop body of [rank] collects for one
    candidate. *)
Definition candidate_signals (candidate : Candidate) : list RankingSignal :=
  let intent_similarity := default 0%Q (c_intent_similarity candidate) in
  let shacl_conforms := default true (c_shacl_conforms candidate) in
  let shacl_has_shapes := default false (c_shacl_has_shapes candidate) in
  let intent_signal :=
    {| name := "intent_similarity"; value := VNum intent_similarity;
       weight := default (7 # 10)%Q (weights self !! "intent_similarity");
       is_gate := false |} in
  let shacl_signals :=
    if shacl_has_shapes then
      [{| name := "shacl_conforms"; value := VBool shacl_conforms;
          weight := default (2 # 10)%Q (weights self !! "shacl");
          is_gate := enable_shacl_gate self |}]
    else [] in
  let sse_signals :=
    match c_sse_pass candidate with
    | Some sse_pass =>
        [{| name := "sse_pass"; value := VBool sse_pass;
            weight := default (1 # 10)%Q (weights self !! "sse");
            is_gate := enable_sse_gate self |}]
    | None => []
    end in
  (intent_signal :: shacl_signals ++ sse_signals)%list.

(** The value of [passed_gates] after both gate checks. *)
Definition candidate_passed_gates (candidate : Candidate) : bool :=
  let shacl_conforms := default true (c_shacl_conforms candidate) in
  let shacl_has_shapes := default false (c_shacl_has_shapes candidate) in
  let passed_gates := true in
  let passed_gates :=
    if shacl_has_shapes && negb shacl_conforms && enable_shacl_gate self
    then false else passed_gates in
  let passed_gates :=
    match c_sse_pass candidate with
    | Some sse_pass =>
        if negb sse_pass && enable_sse_gate self then false else passed_gates
    | None => passed_gates
    end in
  passed_gates.

(** The loop body of [rank]: the result built for one candidate. *)
Definition rank_one (candidate : Candidate) : RankedResult :=
  let constraint_count := default 0 (c_constraint_count candidate) in
  let signals := candidate_signals candidate in
  let passed_gates := candidate_passed_gates candidate in
  let final_score :=
    if passed_gates then
      let final_score := _calculate_weighted_score signals in
      if 0 <? constraint_count then
        let boost := (inject_Z constraint_count * specificity_boost self)%Q in
        Qmin 1 (final_score + boost)
      else final_score
    else 0%Q in
  {| signifier_id := c_signifier_id candidate;
     final_score := final_score;
     signals := signals;
     passed_gates := passed_gates;
     meta_constraint_count := constraint_count;
     meta_shacl_has_shapes := default false (c_shacl_has_shapes candidate) |}.

(** [Ranker.rank] *)
Definition rank (candidates : list Candidate) : list RankedResult :=
  let ranked_results := map rank_one candidates in
  PyList.sort_desc final_score ranked_results.

End Rank.

(** The score and the gate condition as the specification words them. *)

Definition Qsum (l : list Q) : Q := foldr Qplus 0%Q l.

Definition non_gate (signals : list RankingSignal) : list RankingSignal :=
  List.filter (fun s => negb (is_gate s)) signals.

(** The sum of [weight * normalize(value)] over the non-gate signals,
    divided by the sum of their weights. *)
Definition claimed_weighted_score (signals : list RankingSignal) : Q :=
  (Qsum (map (fun s => weight s * normalize (value s)) (non_gate signals))
   / Qsum (map weight (non_gate signals)))%Q.

(** Some enabled gate fails: the SHACL gate is enabled and the candidate
    has shapes and does not conform, or the SSE gate is enabled and
    [sse_pass] is false. *)
Definition gate_fails (self : Ranker) (candidate : Candidate) : bool :=
  (enable_shacl_gate self
   && bool_decide (c_shacl_has_shapes candidate = Some true)
   && bool_decide (c_shacl_conforms candidate = Some false))
  || (enable_sse_gate self && bool_decide (c_sse_pass candidate = Some false)).

(** The score written out over the fields of the candidate.  A term is a
    pair (weight, value) of a signal that is not a gate: the similarity
    always, the SHACL outcome as [0] or [1] when the candidate has shapes
    and the SHACL gate is off, the SSE outcome as [0] or [1] when the
    candidate carries [sse_pass] and the SSE gate is off.  A weight that
    is missing from the dictionary is [0.7], [0.2] and [0.1]. *)
Definition score_terms (self : Ranker) (candidate : Candidate) : list (Q * Q) :=
  ([ (default (7 # 10)%Q (weights self !! "intent_similarity"),
      default 0%Q (c_intent_similarity candidate)) ]
   ++ (if default false (c_shacl_has_shapes candidate) && negb (enable_shacl_gate self)
       then [ (default (2 # 10)%Q (weights self !! "shacl"),
               if default true (c_shacl_conforms candidate) then 1%Q else 0%Q) ]
       else [])
   ++ (match c_sse_pass candidate with
       | Some sse_pass =>
           if negb (enable_sse_gate self)
           then [ (default (1 # 10)%Q (weights self !! "sse"),
                   if sse_pass then 1%Q else 0%Q) ]
           else []
       | None => []
       end))%list.

(** The weighted average of the terms; [0] when the weights sum to [0]. *)
Definition weighted_average (self : Ranker) (candidate : Candidate) : Q :=
  let total_weight := Qsum (map fst (score_terms self candidate)) in
  if Qeq_bool total_weight 0 then 0%Q
  else (Qsum (map (fun t : Q * Q => t.1 * t.2) (score_terms self candidate))
        / total_weight)%Q.

(** The score of a candidate that passes the gates: the boost and the cap
    apply to a positive constraint count only. *)
Definition amended_score (self : Ranker) (candidate : Candidate) : Q :=
  let constraint_count := default 0 (c_constraint_count candidate) in
  if 0 <? constraint_count then
    Qmin 1 (weighted_average self candidate
            + specificity_boost self * inject_Z constraint_count)
  else weighted_average self candidate.

(** A signal with a non-negative weight and a normalised value in
    [[0, 1]]. *)
Definition unit_signal (s : RankingSignal) : Prop :=
  (0 <= weight s /\ 0 <= normalize (value s) /\ normalize (value s) <= 1)%Q.

End Ranker.

(** ** Representation Service: [src/storage/representation.py] *)

Module RepresentationService.
Import Model.

Definition CASHMERE (local : string) : node :=
  URIRef ("https://aimas.cs.pub.ro/ont/cashmere#" ++ local).
Definition SH (local : string) : node :=
  URIRef ("http://www.w3.org/ns/shacl#" ++ local).
Definition RDF_type : node :=
  URIRef "http://www.w3.org/1999/02/22-rdf-syntax-ns#type".

(** [graph.subjects(p, o)] *)
Definition subjects (g : Graph) (p o : node) : list node :=
  omap (fun t : triple =>
          let '(s', p', o') := t in
          if decide (p' = p /\ o' = o) then Some s' else None) g.

(** [graph.objects(s, p)] *)
Definition objects (g : Graph) (s p : node) : list node :=
  omap (fun t : triple =>
          let '(s', p', o') := t in
          if decide (s' = s /\ p' = p) then Some o' else None) g.

(** [graph.value(s, p)]: some object of the pair, or [None]. *)
Definition graph_value (g : Graph) (s p : node) : option node :=
  head (objects g s p).

(** [graph.triples((s, None, None))] *)
Definition triples_of (g : Graph) (s : node) : list triple :=
  filter (fun t : triple => t.1.1 = s) g.

(** [graph.add(t)] on a set of triples *)
Definition graph_add (g : Graph) (t : triple) : Graph :=
  if decide (t ∈ g) then g else (g ++ [t])%list.

(** The value, if it is present and truthy ([if not x: raise]). *)
Definition truthy (o : option node) : option node :=
  match o with
  | Some n => if node_truthy n then Some n else None
  | None => None
  end.

(** [s.split("#")[-1]]: the part after the last [#]; [acc] is the
    segment being read. *)
Fixpoint last_segment (s : string) (acc : string) : string :=
  match s with
  | EmptyString => acc
  | String c rest =>
      if Ascii.eqb c "#"%char then last_segment rest ""
      else last_segment rest (acc ++ String c EmptyString)
  end.

(** [needle in text] *)
Definition contains (needle text : string) : bool :=
  match String.index 0 needle text with
  | Some _ => true
  | None => false
  end.

(** Iterating over a decoded JSON value ([for c in x]): an array gives
    its elements, an object its keys, a string its characters, anything
    else raises [TypeError]. *)
Definition py_iter (x : json) : result (list json) :=
  match x with
  | JArr l => Ok l
  | JObj d => Ok (map (fun kv => JStr kv.1) d)
  | JStr s => Ok (map (fun c => JStr (String c EmptyString)) (list_ascii_of_string s))
  | JNull | JBool _ | JInt _ | JFloat _ => Err (TypeError "object is not iterable")
  end.

(** [x.get]: only a dictionary has the method. *)
Definition as_dict (x : json) : result (list (string * json)) :=
  match x with
  | JObj d => Ok d
  | _ => Err (LibraryError "AttributeError: no attribute get")
  end.

Fixpoint mapM {A B} (f : A -> result B) (l : list A) : result (list B) :=
  match l with
  | [] => Ok []
  | a :: l' => bind (f a) (fun b => bind (mapM f l') (fun bs => Ok (b :: bs)))
  end.

(** The scalar a decoded JSON value stands for in a [value] field. *)
Definition scalar_of_json (x : json) : result scalar :=
  match x with
  | JNull => Ok SNone
  | JBool b => Ok (SBool b)
  | JInt z => Ok (SInt z)
  | JFloat q => Ok (SFloat q)
  | JStr s => Ok (SStr s)
  | JArr _ | JObj _ => Err (Unmodelled "non-scalar condition value")
  end.

Section WithRuntime.
Context `{Runtime}.

(** [str(x)] on a decoded JSON value *)
Definition json_str (x : json) : string :=
  match x with
  | JStr s => s
  | _ => py_repr x
  end.

(** The [ValueCondition(...)] built for one entry of
    [valueConditions], with the checks of the model class. *)
Definition parse_value_condition (vc : json) : result ValueCondition :=
  bind (as_dict vc) (fun vc =>
    let operator := default (JStr "equals") (obj_get "operator" vc) in
    let value := default JNull (obj_get "value" vc) in
    let datatype := default JNull (obj_get "datatype" vc) in
    match operator with
    | JStr op =>
        if validate_operator op then
          bind (match datatype with
                | JNull => Ok None
                | JStr d => Ok (Some d)
                | _ => Err (LibraryError "datatype: Input should be a valid string")
                end) (fun datatype =>
          bind (scalar_of_json value) (fun value =>
            Ok {| Model.operator := op; Model.value := value;
                  Model.datatype := datatype |}))
        else Err (LibraryError "operator: Operator must be one of the allowed operators")
    | _ => Err (LibraryError "operator: Input should be a valid string")
    end).

(** [RepresentationService._parse_structured_condition] *)
Definition _parse_structured_condition (condition_dict : json)
  : result StructuredCondition :=
  bind (as_dict condition_dict) (fun condition_dict =>
  bind (py_iter (default (JArr []) (obj_get "valueConditions" condition_dict)))
    (fun vcs =>
  bind (mapM parse_value_condition vcs) (fun value_conditions =>
    let artifact := json_str (default (JStr "") (obj_get "artifact" condition_dict)) in
    let property_affordance :=
      json_str (default (JStr "") (obj_get "propertyAffordance" condition_dict)) in
    if nonempty artifact && nonempty property_affordance then
      Ok {| Model.artifact := artifact;
            Model.property_affordance := property_affordance;
            Model.value_conditions := value_conditions |}
    else Err (LibraryError "String should have at least 1 character")))).

(** [RepresentationService._extract_shacl_shapes]: the shape nodes'
    own triples and those of their property shapes. *)
Definition _extract_shacl_shapes (graph : Graph) (shape_nodes : list node)
  : result rdf_text :=
  let add_all (acc : Graph) (ts : list triple) := foldl graph_add acc ts in
  serialize
    (foldl (fun shapes_graph shape_node =>
              let shapes_graph := add_all shapes_graph (triples_of graph shape_node) in
              foldl (fun shapes_graph prop_shape =>
                       add_all shapes_graph (triples_of graph prop_shape))
                    shapes_graph (objects graph shape_node (SH "property")))
           [] shape_nodes).

(** The context part of [parse_rdf_signifier], entered when the
    signifier has a truthy [cashmere:recommendsContext] node. *)
Definition parse_context (graph : Graph) (context_node : node) : result IntentContext :=
  let context_nl := truthy (graph_value graph context_node (CASHMERE "hasStructuredDescription")) in
  bind
    (match context_nl with
     | Some context_nl =>
         match json_loads (node_str context_nl) with
         | Some context_dict =>
             bind (as_dict context_dict) (fun context_dict =>
             bind (py_iter (default (JArr []) (obj_get "conditions" context_dict)))
               (fun conditions =>
             bind (mapM _parse_structured_condition conditions) (fun conds =>
               Ok (conds, Some (node_str context_nl)))))
         | None => Ok ([], Some (node_str context_nl))
         end
     | None => Ok ([], None)
     end)
    (fun '(conds, nl_description) =>
       let shacl_shapes := objects graph context_node (CASHMERE "hasShaclCondition") in
       bind (match shacl_shapes with
             | [] => Ok None
             | _ => bind (_extract_shacl_shapes graph shacl_shapes)
                         (fun shapes => Ok (Some shapes))
             end)
         (fun shapes =>
            Ok {| structured_conditions := conds;
                  shacl_shapes := shapes;
                  nl_description := nl_description |})).

(** The body of the [try] block of [parse_rdf_signifier]; [now] is the
    clock reading that stamps the provenance. *)
Definition parse_body (now : Z) (rdf_data : string) (format : string) : result Signifier :=
  let rdf_data :=
    if negb (contains "@prefix" rdf_data) then preprocess_rdf rdf_data else rdf_data in
  match rdf_parse rdf_data format with
  | None => Err (LibraryError "parser error")
  | Some graph =>
  match subjects graph RDF_type (CASHMERE "Signifier") with
  | [] => Err (ValueError "No Signifier found in RDF data")
  | signifier_node :: _ =>
  let signifier_id := last_segment (node_str signifier_node) "" in
  match truthy (graph_value graph signifier_node (CASHMERE "signifies")) with
  | None => Err (ValueError "Missing cashmere:signifies property")
  | Some affordance_uri =>
  match truthy (graph_value graph signifier_node (CASHMERE "hasIntentionDescription")) with
  | None => Err (ValueError "Missing cashmere:hasIntentionDescription")
  | Some intent_node =>
  match truthy (graph_value graph intent_node (CASHMERE "hasStructuredDescription")) with
  | None => Err (ValueError "Missing intent description")
  | Some intent_nl =>
  match json_loads (node_str intent_nl) with
  | None => Err (LibraryError "JSONDecodeError")
  | Some intent_dict =>
  bind (as_dict intent_dict) (fun intent_dict =>
  bind (match default (JStr "") (obj_get "intent" intent_dict) with
        | JStr t =>
            if nonempty t then Ok {| nl_text := t; structured := Some intent_dict |}
            else Err (LibraryError "nl_text: String should have at least 1 character")
        | _ => Err (LibraryError "nl_text: Input should be a valid string")
        end) (fun intent =>
  bind (match truthy (graph_value graph signifier_node (CASHMERE "recommendsContext")) with
        | Some context_node => parse_context graph context_node
        | None => Ok {| structured_conditions := []; shacl_shapes := None;
                        nl_description := None |}
        end) (fun context =>
  if nonempty signifier_id then
    Ok {| signifier_id := signifier_id;
          version := 1;
          status := ACTIVE;
          intent := intent;
          context := context;
          affordance_uri := node_str affordance_uri;
          provenance := {| created_at := now; created_by := "system";
                           source := "rdf_import" |} |}
  else Err (LibraryError "signifier_id: String should have at least 1 character"))))
  end end end end end end.

Definition exn_str (e : exn) : string :=
  match e with
  | ValueError m | TypeError m | LibraryError m | Unmodelled m => m
  end.

(** [RepresentationService.parse_rdf_signifier]: every exception of
    the body is re-raised as [ValueError("Invalid RDF signifier: ...")]. *)
Definition parse_rdf_signifier (now : Z) (rdf_data : string) (format : string)
  : result Signifier :=
  match parse_body now rdf_data format with
  | Ok signifier => Ok signifier
  | Err (Unmodelled m) => Err (Unmodelled m)
  | Err e => Err (ValueError ("Invalid RDF signifier: " ++ exn_str e))
  end.

(** [RepresentationService.generate_rdf] with the default [base_uri].
    It fails when the signifier's shapes text does not parse, and when
    the serializer refuses the graph: the identifier, the affordance or a
    node of the shapes graph has a character that no URI reference may
    contain. *)
Definition generate_rdf (signifier : Signifier) : result rdf_text :=
  let base_uri := "http://example.org/signifiers" in
  let signifier_uri := URIRef (base_uri ++ "#" ++ signifier_id signifier) in
  let intent_node := URIRef (base_uri ++ "#" ++ signifier_id signifier ++ "-intent") in
  let intent_json :=
    json_dumps
      (match structured (intent signifier) with
       | Some (_ :: _ as d) => JObj d
       | Some [] | None => JObj [("intent", JStr (nl_text (intent signifier)))]
       end) in
  let graph : Graph :=
    foldl graph_add []
      [ (signifier_uri, RDF_type, CASHMERE "Signifier");
        (signifier_uri, CASHMERE "signifies", URIRef (affordance_uri signifier));
        (signifier_uri, CASHMERE "hasIntentionDescription", intent_node);
        (intent_node, RDF_type, CASHMERE "IntentionDescription");
        (intent_node, CASHMERE "hasStructuredDescription", Literal intent_json) ] in
  let context_node := URIRef (base_uri ++ "#" ++ signifier_id signifier ++ "-context") in
  let graph :=
    foldl graph_add graph
      [ (signifier_uri, CASHMERE "recommendsContext", context_node);
        (context_node, RDF_type, CASHMERE "IntentContext") ] in
  let graph :=
    match nl_description (context signifier) with
    | Some d =>
        if nonempty d then
          graph_add graph (context_node, CASHMERE "hasStructuredDescription", Literal d)
        else graph
    | None => graph
    end in
  match shacl_shapes (context signifier) with
  | Some shapes =>
      if rdf_text_truthy shapes then
        match parse_rdf_text shapes "turtle" with
        | None => Err (LibraryError "parser error")
        | Some shapes_graph =>
            serialize
              (foldl (fun graph (t : triple) =>
                        let graph := graph_add graph t in
                        if decide ((t.1.1, RDF_type, SH "NodeShape") ∈ shapes_graph)
                        then graph_add graph
                               (context_node, CASHMERE "hasShaclCondition", t.1.1)
                        else graph)
                     graph shapes_graph)
        end
      else serialize graph
  | None => serialize graph
  end.

(** [RepresentationService.normalize_signifier] *)
Definition normalize_signifier (signifier : Signifier) : Signifier := signifier.

(** The graph that [parse_rdf_signifier] reads its input as. *)
Definition input_graph (rdf_data format : string) : option Graph :=
  rdf_parse
    (if negb (contains "@prefix" rdf_data) then preprocess_rdf rdf_data else rdf_data)
    format.

(** The graph types some node as [cashmere:Signifier], and the first such
    node carries a non-empty [cashmere:signifies] value and a
    [cashmere:hasIntentionDescription] node that in turn carries a
    non-empty [cashmere:hasStructuredDescription] literal. *)
Definition mandatory_present (g : Graph) : bool :=
  match subjects g RDF_type (CASHMERE "Signifier") with
  | [] => false
  | signifier_node :: _ =>
      match truthy (graph_value g signifier_node (CASHMERE "signifies")),
            truthy (graph_value g signifier_node (CASHMERE "hasIntentionDescription")) with
      | Some _, Some intent_node =>
          match truthy (graph_value g intent_node (CASHMERE "hasStructuredDescription")) with
          | Some _ => true
          | None => false
          end
      | _, _ => false
      end
  end.

End WithRuntime.

End RepresentationService.

(** ** Memory store: [src/storage/memory_store.py]

    The three directories of the store are three finite maps.  A file is
    identified by the pair or the identifier its name is built from
    ([rdf/<id>_v<version>.ttl], [json/<id>.json]); an RDF file holds a
    graph that the serializer wrote.  Input and output errors of the file
    system are not modelled: an identifier is taken to be usable as a file
    name (no path separator), on a file system that tells upper and lower
    case apart.  The pattern with which [delete_signifier] looks for the
    RDF files of an identifier is read for identifiers without the
    wildcard characters of [glob] ([glob_literal]). *)

Module MemoryStore.
Import Model.

Record MemoryStore := {
  json_docs : gmap string Signifier;
  rdf_files : gmap (string * Z) Graph;
  property_index : gmap (string * string) (gset string)
}.

(** A store over an empty storage directory. *)
Definition empty : MemoryStore :=
  {| json_docs := ∅; rdf_files := ∅; property_index := ∅ |}.

(** [MemoryStore.store_rdf_graph]: the text is parsed and the graph
    written out with [graph.serialize]; a failure of the parser or of the
    serializer is re-raised as [ValueError]. *)
Definition store_rdf_graph `{Runtime} (self : MemoryStore) (signifier_id : string)
    (version : Z) (rdf_data : rdf_text) (format : string) : result unit * MemoryStore :=
  match parse_rdf_text rdf_data format with
  | Some graph =>
      match serialize graph with
      | Ok _ =>
          (Ok tt,
           {| json_docs := json_docs self;
              rdf_files := <[(signifier_id, version) := graph]> (rdf_files self);
              property_index := property_index self |})
      | Err _ => (Err (ValueError "Invalid RDF data"), self)
      end
  | None => (Err (ValueError "Invalid RDF data"), self)
  end.

(** [MemoryStore.get_rdf_graph] *)
Definition get_rdf_graph (self : MemoryStore) (signifier_id : string) (version : Z)
  : option Graph :=
  rdf_files self !! (signifier_id, version).

(** [MemoryStore.store_json_document] *)
Definition store_json_document (self : MemoryStore) (signifier : Signifier) : MemoryStore :=
  {| json_docs := <[signifier_id signifier := signifier]> (json_docs self);
     rdf_files := rdf_files self;
     property_index := property_index self |}.

(** [MemoryStore.get_json_document] *)
Definition get_json_document (self : MemoryStore) (signifier_id : string)
  : option Signifier :=
  json_docs self !! signifier_id.

(** One iteration of the loop of [update_property_index]. *)
Definition index_add (signifier_id : string)
    (index : gmap (string * string) (gset string)) (key : string * string)
  : gmap (string * string) (gset string) :=
  <[key := default ∅ (index !! key) ∪ {[signifier_id]}]> index.

(** [MemoryStore.update_property_index] *)
Definition update_property_index (self : MemoryStore) (signifier : Signifier) : MemoryStore :=
  let property_keys := get_property_keys signifier in
  {| json_docs := json_docs self;
     rdf_files := rdf_files self;
     property_index :=
       foldl (index_add (signifier_id signifier)) (property_index self) property_keys |}.

(** [MemoryStore.find_by_property] *)
Definition find_by_property (self : MemoryStore) (artifact_uri property_uri : string)
  : list string :=
  elements (default ∅ (property_index self !! (artifact_uri, property_uri))).

(** [MemoryStore.list_all_signifiers] *)
Definition list_all_signifiers (self : MemoryStore) : list string :=
  (map_to_list (json_docs self)).*1.

(** [str(version)] *)
Definition py_str_int (z : Z) : string := NilZero.string_of_int (Z.to_int z).

(** The name of the file of a graph, without the directory and without
    the suffix [.ttl]: [f"{signifier_id}_v{version}"]. *)
Definition rdf_stem (signifier_id : string) (version : Z) : string :=
  signifier_id ++ "_v" ++ py_str_int version.

(** The identifier has none of the wildcard characters [*], [?] and [[]
    of [glob]: as a pattern it stands for itself. *)
Fixpoint glob_literal (signifier_id : string) : bool :=
  match signifier_id with
  | EmptyString => true
  | String c rest =>
      negb (existsb (Ascii.eqb c) (list_ascii_of_string "*?[")) && glob_literal rest
  end.

(** [rdf_dir.glob(f"{signifier_id}_v*.ttl")] finds the file of [file]:
    the name starts with the identifier followed by [_v] and ends with
    [.ttl], whatever stands in between.  The file of another identifier
    that starts with [<signifier_id>_v] is found as well. *)
Definition glob_hit (signifier_id : string) (file : string * Z) : bool :=
  String.prefix (signifier_id ++ "_v") (rdf_stem file.1 file.2).

(** [MemoryStore.delete_signifier] *)
Definition delete_signifier (self : MemoryStore) (signifier_id : string)
    (version : option Z) : bool * MemoryStore :=
  match version with
  | Some version =>
      (true,
       {| json_docs := json_docs self;
          rdf_files := delete (signifier_id, version) (rdf_files self);
          property_index := property_index self |})
  | None =>
      (true,
       {| json_docs := delete signifier_id (json_docs self);
          rdf_files :=
            filter (fun kv : (string * Z) * Graph => glob_hit signifier_id kv.1 = false)
                   (rdf_files self);
          property_index :=
            filter (fun kv : (string * string) * gset string => kv.2 ≠ ∅)
                   ((fun ids : gset string => ids ∖ {[signifier_id]})
                      <$> property_index self) |})
  end.

End MemoryStore.

(** ** Signifier registry: [src/storage/registry.py]

    The registry object holds a [MemoryStore] and the stateless
    representation service; every operation returns its result together
    with the store it leaves behind, also when it raises. *)

Module SignifierRegistry.
Import Model MemoryStore RepresentationService.

Section WithRuntime.
Context `{Runtime}.

(** [SignifierRegistry.create] *)
Definition create (self : MemoryStore) (signifier : Signifier) (rdf_data : option rdf_text)
  : result Signifier * MemoryStore :=
  match get_json_document self (signifier_id signifier) with
  | Some _ => (Err (ValueError "Signifier already exists. Use update instead."), self)
  | None =>
      let normalized := normalize_signifier signifier in
      let self := store_json_document self normalized in
      let self := update_property_index self normalized in
      let provided :=
        match rdf_data with
        | Some t => if rdf_text_truthy t then Some t else None
        | None => None
        end in
      match provided with
      | Some rdf_data =>
          let '(_, self) :=
            store_rdf_graph self (signifier_id normalized) (version normalized)
                            rdf_data "turtle" in
          (Ok normalized, self)
      | None =>
          match generate_rdf normalized with
          | Err e => (Err e, self)
          | Ok rdf_generated =>
              let '(r, self) :=
                store_rdf_graph self (signifier_id normalized) (version normalized)
                                rdf_generated "turtle" in
              (bind r (fun _ => Ok normalized), self)
          end
      end
  end.

(** [SignifierRegistry.create_from_rdf] *)
Definition create_from_rdf (self : MemoryStore) (now : Z) (rdf_data : string)
    (format : string) : result Signifier * MemoryStore :=
  match parse_rdf_signifier now rdf_data format with
  | Err e => (Err e, self)
  | Ok signifier => create self signifier (Some (Text rdf_data))
  end.

(** [SignifierRegistry.get]: a document that does not pass the checks of
    the model class is reported as missing. *)
Definition get (self : MemoryStore) (signifier_id : string) : option Signifier :=
  match get_json_document self signifier_id with
  | None => None
  | Some doc => if valid_signifier doc then Some doc else None
  end.

(** [SignifierRegistry.update] *)
Definition update (self : MemoryStore) (signifier : Signifier) (create_new_version : bool)
  : result Signifier * MemoryStore :=
  match get_json_document self (signifier_id signifier) with
  | None => (Err (ValueError "Signifier not found. Use create instead."), self)
  | Some existing_doc =>
      let signifier :=
        if create_new_version then with_version signifier (version existing_doc + 1)
        else signifier in
      let normalized := normalize_signifier signifier in
      let self := store_json_document self normalized in
      let self := update_property_index self normalized in
      match generate_rdf normalized with
      | Err e => (Err e, self)
      | Ok rdf_generated =>
          let '(r, self) :=
            store_rdf_graph self (signifier_id normalized) (version normalized)
                            rdf_generated "turtle" in
          (bind r (fun _ => Ok normalized), self)
      end
  end.

(** [SignifierRegistry.delete] *)
Definition delete (self : MemoryStore) (signifier_id : string) : bool * MemoryStore :=
  delete_signifier self signifier_id None.

(** The two filters of the loop of [list_signifiers]; an absent or empty
    filter value lets every signifier through. *)
Definition list_filter (status : option SignifierStatus) (affordance_uri : option string)
    (signifier : Signifier) : bool :=
  match status with
  | Some st => bool_decide (Model.status signifier = st)
  | None => true
  end
  && match affordance_uri with
     | Some u => if nonempty u then String.eqb (Model.affordance_uri signifier) u else true
     | None => true
     end.

(** [SignifierRegistry.list_signifiers] *)
Definition list_signifiers (self : MemoryStore) (status : option SignifierStatus)
    (affordance_uri : option string) (limit offset : Z) : list Signifier :=
  let all_ids := list_all_signifiers self in
  let signifiers :=
    omap (fun signifier_id =>
            match get self signifier_id with
            | Some signifier =>
                if list_filter status affordance_uri signifier then Some signifier
                else None
            | None => None
            end) all_ids in
  PyList.slice offset (offset + limit) signifiers.

(** [SignifierRegistry.find_by_property] *)
Definition find_by_property (self : MemoryStore) (artifact_uri property_uri : string)
  : list Signifier :=
  omap (get self) (MemoryStore.find_by_property self artifact_uri property_uri).

(** [SignifierRegistry.get_rdf_representation]; an empty graph is falsy
    and is reported as missing. *)
Definition get_rdf_representation (self : MemoryStore) (signifier_id : string)
    (version : option Z) : option rdf_text :=
  let version :=
    match version with
    | Some v => Some v
    | None => Model.version <$> get self signifier_id
    end in
  match version with
  | None => None
  | Some version =>
      match get_rdf_graph self signifier_id version with
      | None | Some [] => None
      | Some graph => Some (Serialized graph)
      end
  end.

(** [SignifierRegistry.update_status] *)
Definition update_status (self : MemoryStore) (signifier_id : string)
    (status : SignifierStatus) : result (option Signifier) * MemoryStore :=
  match get self signifier_id with
  | None => (Ok None, self)
  | Some signifier =>
      let '(r, self) := update self (with_status signifier status) false in
      (bind r (fun s => Ok (Some s)), self)
  end.

(** The calls a client can make on a registry, and a run of a sequence of
    calls that keeps the store and drops the results. *)
Inductive call :=
| Create (signifier : Signifier) (rdf_data : option rdf_text)
| CreateFromRdf (now : Z) (rdf_data : string) (format : string)
| Update (signifier : Signifier) (create_new_version : bool)
| Delete (signifier_id : string)
| UpdateStatus (signifier_id : string) (status : SignifierStatus).

Definition step (self : MemoryStore) (c : call) : MemoryStore :=
  match c with
  | Create signifier rdf_data => (create self signifier rdf_data).2
  | CreateFromRdf now rdf_data format => (create_from_rdf self now rdf_data format).2
  | Update signifier create_new_version => (update self signifier create_new_version).2
  | Delete signifier_id => (delete self signifier_id).2
  | UpdateStatus signifier_id status => (update_status self signifier_id status).2
  end.

Definition run (calls : list call) (self : MemoryStore) : MemoryStore :=
  foldl step self calls.

(** The shapes text of a signifier, if it has one, is valid Turtle. *)
Definition shapes_ok (signifier : Signifier) : Prop :=
  match shacl_shapes (context signifier) with
  | Some shapes =>
      rdf_text_truthy shapes = true -> is_Some (parse_rdf_text shapes "turtle")
  | None => True
  end.

(** A Turtle text that parses to a graph with at least one triple. *)
Definition parses_nonempty (t : rdf_text) : Prop :=
  exists g, parse_rdf_text t "turtle" = Some g /\ g <> [].

(** The RDF of the signifier can be generated: the identifier and the
    affordance have no character that the serializer refuses in a URI
    reference, and the shapes text, if any, is valid Turtle whose graph the
    serializer accepts. *)
Definition generable (signifier : Signifier) : Prop :=
  valid_uri (signifier_id signifier) = true
  /\ valid_uri (affordance_uri signifier) = true
  /\ match shacl_shapes (context signifier) with
     | Some shapes =>
         rdf_text_truthy shapes = true ->
         exists g, parse_rdf_text shapes "turtle" = Some g /\ serializable g = true
     | None => True
     end.

(** The RDF inputs of a call parse: a signifier handed to [create] or
    [update] is a model object (its field constraints hold); an RDF text
    given to [create] or [create_from_rdf] is valid Turtle with at least
    one triple; where the RDF is generated from the signifier, its shapes
    text is valid Turtle. *)
Definition call_ok (c : call) : Prop :=
  match c with
  | Create signifier rdf_data =>
      valid_signifier signifier = true
      /\ match rdf_data with
         | Some t => if rdf_text_truthy t then parses_nonempty t else shapes_ok signifier
         | None => shapes_ok signifier
         end
  | CreateFromRdf now rdf_data format =>
      rdf_text_truthy (Text rdf_data) = true -> parses_nonempty (Text rdf_data)
  | Update signifier create_new_version =>
      valid_signifier signifier = true /\ shapes_ok signifier
  | Delete _ => True
  | UpdateStatus _ _ => True
  end.

(** The identifier contains [_v], the mark that separates identifier
    and version in the name of an RDF file. *)
Fixpoint has_version_mark (signifier_id : string) : bool :=
  match signifier_id with
  | EmptyString => false
  | String c rest =>
      (Ascii.eqb c "_"
       && match rest with
          | String c' _ => Ascii.eqb c' "v"
          | EmptyString => false
          end)
      || has_version_mark rest
  end.

(** A Turtle text that [store_rdf_graph] stores as a graph with at least
    one triple: it parses and the serializer accepts the graph. *)
Definition storable (t : rdf_text) : Prop :=
  exists g, parse_rdf_text t "turtle" = Some g /\ g <> [] /\ serializable g = true.

(** The calls after which an RDF graph is stored for every document: the
    RDF of a call can be stored (a text given to [create] or
    [create_from_rdf] is [storable]; where the RDF is generated, the
    signifier is [generable]), no identifier contains [_v], and an
    identifier handed to [delete] has no wildcard character, so that the
    pattern of [delete_signifier] finds the files of this identifier
    only. *)
Definition call_safe (c : call) : Prop :=
  match c with
  | Create signifier rdf_data =>
      valid_signifier signifier = true
      /\ has_version_mark (signifier_id signifier) = false
      /\ match rdf_data with
         | Some t => if rdf_text_truthy t then storable t else generable signifier
         | None => generable signifier
         end
  | CreateFromRdf now rdf_data format =>
      forall signifier, parse_rdf_signifier now rdf_data format = Ok signifier ->
        has_version_mark (signifier_id signifier) = false
        /\ if rdf_text_truthy (Text rdf_data) then storable (Text rdf_data)
           else generable signifier
  | Update signifier create_new_version =>
      valid_signifier signifier = true /\ generable signifier
  | Delete signifier_id =>
      glob_literal signifier_id = true /\ has_version_mark signifier_id = false
  | UpdateStatus _ _ => True
  end.

(** Every stored document is filed under its own identifier and passes
    the checks of the model class. *)
Definition docs_inv (self : MemoryStore) : Prop :=
  forall id doc, json_docs self !! id = Some doc ->
    signifier_id doc = id /\ valid_signifier doc = true.

(** Every stored document is filed under its own identifier, which does
    not contain [_v], passes the checks of the model class, and has a
    non-empty RDF graph stored for its version. *)
Definition store_inv (self : MemoryStore) : Prop :=
  forall id doc, json_docs self !! id = Some doc ->
    signifier_id doc = id
    /\ valid_signifier doc = true
    /\ has_version_mark id = false
    /\ exists g, rdf_files self !! (id, version doc) = Some g /\ g <> [].


(** The property index lists exactly the identifiers whose current
    version has a structured condition on the pair. *)
Definition index_exact (self : MemoryStore) : Prop :=
  forall (key : string * string) (id : string),
    id ∈ default ∅ (property_index self !! key)
    <-> exists doc, json_docs self !! id = Some doc /\ key ∈ get_property_keys doc.

(** Every identifier whose current version has a structured condition on
    a pair is listed under that pair. *)
Definition index_complete (self : MemoryStore) : Prop :=
  forall (key : string * string) (id : string) doc,
    json_docs self !! id = Some doc -> signifier_id doc = id ->
    key ∈ get_property_keys doc ->
    id ∈ default ∅ (property_index self !! key).

(** The documents are filed under their identifiers and the index lists
    every identifier under each pair of its current version. *)
Definition index_inv (self : MemoryStore) : Prop :=
  (forall id doc, json_docs self !! id = Some doc -> signifier_id doc = id)
  /\ index_complete self.

End WithRuntime.

End SignifierRegistry.

(** ** Matcher registry: [src/matching/registry.py] *)

Module IntentMatcherRegistry.
Import StringContainsMatcher.

(** The [match] method of a matcher, called as the registry calls it
    ([matcher.match(intent_query, signifiers, k=k)]). *)
Definition matcher : Type :=
  string -> list SignifierDict -> Z -> result (list MatchResult).

Record IntentMatcherRegistry := {
  default_version : string;
  _matchers : gmap string matcher
}.

(** [EmbeddingMatcher.match]: an empty query raises, an empty list of
    signifiers gives the empty list, and only then is the sentence
    transformer loaded.  What happens from there on (the [ImportError] of
    a missing library, or the ranking by cosine similarity) is the
    parameter [model]. *)
Definition embedding_match (model : matcher) : matcher :=
  fun intent_query signifiers k =>
    if String.eqb intent_query "" then Err (ValueError "intent_query cannot be empty")
    else
      match signifiers with
      | [] => Ok []
      | _ :: _ => model intent_query signifiers k
      end.

(** [IntentMatcherRegistry.__init__] with [_initialize_default_matchers]:
    v0 and v1 are both registered.  ([EmbeddingMatcher()] imports its
    library only when it first matches, so constructing it does not
    raise.) *)
Definition init `{Runtime} (default_version : string) (model : matcher)
  : IntentMatcherRegistry :=
  let v0 : matcher := fun intent_query signifiers k =>
    match_ intent_query signifiers k false in
  {| default_version := default_version;
     _matchers := <["v1" := embedding_match model]> (<["v0" := v0]> ∅) |}.

(** [version or self.default_version] *)
Definition version_or_default (version : option string) (default_version : string)
  : string :=
  match version with
  | Some v => if String.eqb v "" then default_version else v
  | None => default_version
  end.

(** [IntentMatcherRegistry.get_matcher] *)
Definition get_matcher (self : IntentMatcherRegistry) (version : option string)
  : result matcher :=
  let version_to_use := version_or_default version (default_version self) in
  match _matchers self !! version_to_use with
  | Some m => Ok m
  | None => Err (ValueError "Matcher version not registered")
  end.

(** [IntentMatcherRegistry.match] *)
Definition match_ (self : IntentMatcherRegistry) (intent_query : string)
    (signifiers : list SignifierDict) (k : Z) (version : option string)
  : result (list MatchResult) :=
  bind (get_matcher self version) (fun matcher => matcher intent_query signifiers k).

End IntentMatcherRegistry.

(** ** Retrieval orchestrator, intent-matching stage:
       [src/orchestrator/orchestrator.py] *)

Module RetrievalOrchestrator.
Import Model.

Record RetrievalRequest := {
  intent_query : string;
  pipeline : list string;
  matcher_version : option string;
  k : Z
}.

(** A candidate as the stage hands it on. *)
Record Candidate := {
  c_signifier_id : string;
  c_intent_similarity : Q;
  c_signifier : Signifier
}.

Record ModuleResult := {
  module_name : string;
  candidate_count : Z;
  candidates : list Candidate;
  meta_matcher_version : string
}.

(** [Signifier.model_dump()] as far as the matcher reads it. *)
Definition model_dump (s : Signifier) : StringContainsMatcher.SignifierDict :=
  {| StringContainsMatcher.d_signifier_id := Some (signifier_id s);
     StringContainsMatcher.d_nl_text := Some (nl_text (intent s));
     StringContainsMatcher.d_structured := structured (intent s) |}.

Section Stage.
Variable registry : MemoryStore.MemoryStore.
Variable matcher_registry : IntentMatcherRegistry.IntentMatcherRegistry.

(** The signifiers the stage enumerates and hands to the matcher. *)
Definition all_signifiers : list Signifier :=
  SignifierRegistry.list_signifiers registry None None 10000 0.

(** The loop that turns match results into candidates. *)
Definition to_candidates (match_results : list StringContainsMatcher.MatchResult)
  : list Candidate :=
  omap (fun m =>
          match SignifierRegistry.get registry (StringContainsMatcher.signifier_id m) with
          | Some signifier =>
              Some {| c_signifier_id := StringContainsMatcher.signifier_id m;
                      c_intent_similarity := StringContainsMatcher.similarity m;
                      c_signifier := signifier |}
          | None => None
          end) match_results.

(** [RetrievalOrchestrator._execute_intent_matching] *)
Definition _execute_intent_matching (request : RetrievalRequest) : result ModuleResult :=
  let signifier_dicts := map model_dump all_signifiers in
  bind (IntentMatcherRegistry.match_ matcher_registry (intent_query request)
          signifier_dicts (k request) (matcher_version request))
       (fun match_results =>
          let candidates := to_candidates match_results in
          Ok {| module_name := "IM";
                candidate_count := Z.of_nat (length candidates);
                candidates := candidates;
                meta_matcher_version :=
                  match matcher_version request with
                  | Some v =>
                      if String.eqb v "" then
                        IntentMatcherRegistry.default_version matcher_registry
                      else v
                  | None => IntentMatcherRegistry.default_version matcher_registry
                  end |}).


End Stage.

End RetrievalOrchestrator.

(** ** A runtime for the examples

    The answers of the Python runtime on the inputs that the examples
    below use.  On any other input the tables answer with a failure or
    with the empty string; no example relies on those answers. *)

Module Examples.
Import Model.

(** The double quote character. *)
Definition dq : string := String (ascii_of_nat 34) EmptyString.

(** The value of a string of decimal digits. *)
Fixpoint digits_value (s : string) (acc : Z) : option Z :=
  match s with
  | EmptyString => Some acc
  | String c rest =>
      let n := Z.of_N (N_of_ascii c) in
      if (48 <=? n) && (n <=? 57) then digits_value rest (10 * acc + (n - 48))
      else None
  end.

(** [float("15000")] is [15000.0]; [float("abc")] and [float("")] raise. *)
Definition example_float_of_str (s : string) : option Q :=
  if String.eqb s "" then None else inject_Z <$> digits_value s 0.

(** A Turtle document that types [s1] as a signifier, gives it an
    affordance and an intention description, and no context. *)
Definition doc_without_context : string :=
  "@prefix cashmere: <https://aimas.cs.pub.ro/ont/cashmere#> .
<http://example.org/signifiers#s1> a cashmere:Signifier ;
  cashmere:signifies <http://example.org/affordances/a1> ;
  cashmere:hasIntentionDescription <http://example.org/signifiers#s1-intent> .
<http://example.org/signifiers#s1-intent>
  cashmere:hasStructuredDescription '{" ++ dq ++ "intent" ++ dq ++ ": "
  ++ dq ++ "raise blinds" ++ dq ++ "}' .".

Definition intent_literal : string :=
  "{" ++ dq ++ "intent" ++ dq ++ ": " ++ dq ++ "raise blinds" ++ dq ++ "}".

Definition graph_without_context : Graph :=
  let s1 := URIRef "http://example.org/signifiers#s1" in
  let s1_intent := URIRef "http://example.org/signifiers#s1-intent" in
  [ (s1, RepresentationService.RDF_type, RepresentationService.CASHMERE "Signifier");
    (s1, RepresentationService.CASHMERE "signifies",
     URIRef "http://example.org/affordances/a1");
    (s1, RepresentationService.CASHMERE "hasIntentionDescription", s1_intent);
    (s1_intent, RepresentationService.CASHMERE "hasStructuredDescription",
     Literal intent_literal) ].

(** A Turtle document that gives [s1] an affordance but does not type it
    as a signifier. *)
Definition doc_untyped : string :=
  "@prefix cashmere: <https://aimas.cs.pub.ro/ont/cashmere#> .
<http://example.org/signifiers#s1>
  cashmere:signifies <http://example.org/affordances/a1> .".

Definition graph_untyped : Graph :=
  [ (URIRef "http://example.org/signifiers#s1",
     RepresentationService.CASHMERE "signifies",
     URIRef "http://example.org/affordances/a1") ].

Definition example_rdf_parse (data format : string) : option Graph :=
  if String.eqb format "turtle" && String.eqb data doc_without_context
  then Some graph_without_context
  else if String.eqb format "turtle" && String.eqb data doc_untyped
  then Some graph_untyped
  else None.

Definition example_json_loads (s : string) : option json :=
  if String.eqb s intent_literal then Some (JObj [("intent", JStr "raise blinds")])
  else None.

#[local] Instance example_runtime : Runtime := {|
  float_of_str := example_float_of_str;
  py_str := fun v => match v with SStr s => s | _ => "" end;
  py_repr := fun _ => "";
  json_dumps := fun _ => "";
  rdf_parse := example_rdf_parse;
  json_loads := example_json_loads;
  preprocess_rdf := fun s => s
|}.

(** A signifier with one structured condition on the pair
    [(sensor, luminosity)]. *)
Definition luminosity_condition : StructuredCondition :=
  {| artifact := "http://example.org/artifacts/sensor";
     property_affordance := "http://example.org/LightSensor#luminosity";
     value_conditions :=
       [{| operator := "greaterEqual"; value := SInt 10000; datatype := None |}] |}.

Definition make_signifier (id text : string) (st : SignifierStatus)
    (conds : list StructuredCondition) : Signifier :=
  {| signifier_id := id; version := 1; status := st;
     intent := {| nl_text := text; structured := None |};
     context := {| structured_conditions := conds; shacl_shapes := None;
                   nl_description := None |};
     affordance_uri := "http://example.org/affordances/a1";
     provenance := {| created_at := 0; created_by := "admin"; source := "manual" |} |}.

End Examples.


(** ** Vocabulary for the further properties of the registry *)

Module RegistryFacts.
Import Model MemoryStore SignifierRegistry.

(** The call is not [update]. *)
Definition not_update (c : call) : Prop :=
  match c with
  | Update _ _ => False
  | _ => True
  end.

(** The documents are filed under their identifiers and the property
    index is exact. *)
Definition exact_inv (self : MemoryStore) : Prop :=
  (forall id doc, json_docs self !! id = Some doc -> signifier_id doc = id)
  /\ index_exact self.

End RegistryFacts.

(** ** Further examples *)

Module MoreExamples.
Import Model.

(** A signifier whose shapes text is not valid Turtle. *)
Definition signifier_with_bad_shapes : Signifier :=
  {| signifier_id := "s2"; version := 1; status := ACTIVE;
     intent := {| nl_text := "lower blinds"; structured := None |};
     context := {| structured_conditions := [];
                   shacl_shapes := Some (Text "this is not turtle");
                   nl_description := None |};
     affordance_uri := "http://example.org/affordances/a2";
     provenance := {| created_at := 0; created_by := "admin"; source := "manual" |} |}.

Definition s1_v1 : Signifier :=
  Examples.make_signifier "s1" "raise blinds" ACTIVE [Examples.luminosity_condition].

(** A store that holds [s1] in version 1. *)
Definition store_with_s1 : MemoryStore.MemoryStore :=
  SignifierRegistry.run (H := Examples.example_runtime)
    [SignifierRegistry.Create s1_v1 None] MemoryStore.empty.

(** A store that holds [s1] and a signifier whose identifier starts with
    [s1_v]. *)
Definition store_with_s1_vx : MemoryStore.MemoryStore :=
  SignifierRegistry.run (H := Examples.example_runtime)
    [SignifierRegistry.Create s1_v1 None;
     SignifierRegistry.Create
       (Examples.make_signifier "s1_vx" "lower blinds" ACTIVE []) None]
    MemoryStore.empty.

End MoreExamples.

(** ** Vocabulary for the further properties of the matcher *)

Module MatcherFacts.
Import StringContainsMatcher.

(** Upper-case ASCII letter. *)
Definition is_upper (c : ascii) : bool :=
  let n := N_of_ascii c in ((65 <=? n) && (n <=? 90))%N.

(** Every character of the string satisfies the test. *)
Definition all_chars (test : ascii -> bool) (t : string) : bool :=
  forallb test (list_ascii_of_string t).

End MatcherFacts.

(** ** Vocabulary for the further properties of the ranker and of the
       subsumption engine *)

Module RankerFacts.
Import Ranker.

(** The candidate with another constraint count. *)
Definition with_count (c : Candidate) (n : Z) : Candidate :=
  {| c_signifier_id := c_signifier_id c;
     c_intent_similarity := c_intent_similarity c;
     c_shacl_conforms := c_shacl_conforms c;
     c_shacl_has_shapes := c_shacl_has_shapes c;
     c_sse_pass := c_sse_pass c;
     c_constraint_count := Some n |}.

(** The ranker with another weight under [key]. *)
Definition with_weight (self : Ranker) (key : string) (w : Q) : Ranker :=
  {| weights := <[key := w]> (weights self);
     enable_shacl_gate := enable_shacl_gate self;
     enable_sse_gate := enable_sse_gate self;
     specificity_boost := specificity_boost self |}.

(** The domain of the ranker: non-negative weights and boost, and for a
    candidate a similarity in [[0, 1]]. *)
Definition ranker_ok (self : Ranker) : Prop :=
  (forall key w, weights self !! key = Some w -> 0 <= w)%Q
  /\ (0 <= specificity_boost self)%Q.

Definition candidate_ok (c : Candidate) : Prop :=
  (0 <= default 0 (c_intent_similarity c) <= 1)%Q.

End RankerFacts.

Module SSEFacts.
Import Model SSE.

(** What [evaluate] requires of one structured condition: an absent pair
    is accepted unless the policy is [fail]; for a present pair every
    value condition has to hold. *)
Definition condition_holds `{Runtime} (self : SSE.SSE)
    (context_features : gmap string (gmap string scalar))
    (condition : StructuredCondition) : bool :=
  match default ∅ (context_features !! artifact condition)
          !! property_affordance condition with
  | None => negb (String.eqb (missing_value_policy self) "fail")
  | Some actual_value =>
      forallb (fun vc => _evaluate_condition self vc actual_value)
              (value_conditions condition)
  end.

(** The number of value conditions of a condition on a present pair. *)
Definition checked_of (context_features : gmap string (gmap string scalar))
    (condition : StructuredCondition) : Z :=
  match default ∅ (context_features !! artifact condition)
          !! property_affordance condition with
  | None => 0
  | Some _ => Z.of_nat (length (value_conditions condition))
  end.

(** The pair of a condition, if it is absent from the context. *)
Definition missing_of (context_features : gmap string (gmap string scalar))
    (condition : StructuredCondition) : option (string * string) :=
  match default ∅ (context_features !! artifact condition)
          !! property_affordance condition with
  | None => Some (artifact condition, property_affordance condition)
  | Some _ => None
  end.

(** The number of value conditions [evaluate] runs over a list. *)
Definition total_checked (context_features : gmap string (gmap string scalar))
    (conds : list StructuredCondition) : Z :=
  foldr Z.add 0 (checked_of context_features <$> conds).

Definition with_operator (c : ValueCondition) (op : string) : ValueCondition :=
  {| operator := op; value := value c; datatype := datatype c |}.

End SSEFacts.

(** ** Vocabulary for the further properties of the representation
       service *)

Module RepresentationFacts.
Import Model RepresentationService.

(** The nodes that [generate_rdf] names after the signifier, with the
    default [base_uri]. *)
Definition signifier_uri (s : Signifier) : node :=
  URIRef ("http://example.org/signifiers" ++ "#" ++ signifier_id s).
Definition intent_node (s : Signifier) : node :=
  URIRef ("http://example.org/signifiers" ++ "#" ++ signifier_id s ++ "-intent").
Definition context_node (s : Signifier) : node :=
  URIRef ("http://example.org/signifiers" ++ "#" ++ signifier_id s ++ "-context").

(** The literal [generate_rdf] writes for the intent:
    [json.dumps(structured or {"intent": nl_text})]. *)
Definition intent_json `{Runtime} (s : Signifier) : string :=
  json_dumps
    (match structured (intent s) with
     | Some (_ :: _ as d) => JObj d
     | Some [] | None => JObj [("intent", JStr (nl_text (intent s)))]
     end).

(** The signifier carries no SHACL shapes text, or an empty one. *)
Definition no_shapes (s : Signifier) : Prop :=
  match shacl_shapes (context s) with
  | Some t => rdf_text_truthy t = false
  | None => True
  end.

End RepresentationFacts.

(** ** A runtime whose [json.dumps] is tabulated *)

Module JsonExamples.

(** [json.dumps({"intent": "raise blinds"})] is the literal of the example
    documents; the other entries of the table are those of
    [Examples.example_runtime]. *)
Definition example_json_dumps (x : json) : string :=
  match x with
  | JObj [(k, JStr v)] =>
      if String.eqb k "intent" && String.eqb v "raise blinds"
      then Examples.intent_literal else "{}"
  | _ => "{}"
  end.

#[local] Instance json_runtime : Runtime := {|
  float_of_str := Examples.example_float_of_str;
  py_str := fun v => match v with SStr s => s | _ => "" end;
  py_repr := fun _ => "";
  json_dumps := example_json_dumps;
  rdf_parse := Examples.example_rdf_parse;
  json_loads := Examples.example_json_loads;
  preprocess_rdf := fun s => s
|}.

End JsonExamples.

(** ** Authoring validator: [src/validation/authoring_validator.py] *)

Module AuthoringValidator.
Import Model RepresentationService.

Record AuthoringValidator := {
  strict_mode : bool
}.

(** What a method of the validator does: it returns, or it raises
    [AuthoringValidationError] with a message. *)
Inductive outcome (A : Type) :=
| Returned (a : A)
| AuthoringValidationError (msg : string).
Arguments Returned {A} a.
Arguments AuthoringValidationError {A} msg.

(** [AuthoringValidator._check_required_fields]; [signifier.intent] and
    [signifier.context] are model objects and as such truthy. *)
Definition _check_required_fields (signifier : Signifier) : list string :=
  let errors : list string := [] in
  let errors :=
    if negb (nonempty (signifier_id signifier))
    then (errors ++ ["Missing signifier_id"])%list else errors in
  let errors :=
    if negb (nonempty (affordance_uri signifier))
    then (errors ++ ["Missing affordance_uri (cashmere:signifies)"])%list else errors in
  let errors :=
    if negb (nonempty (nl_text (intent signifier)))
    then (errors ++ ["Missing intent.nl_text"])%list else errors in
  errors.

(** Truthiness of [context.shacl_shapes]. *)
Definition shapes_truthy (signifier : Signifier) : bool :=
  match shacl_shapes (context signifier) with
  | Some t => rdf_text_truthy t
  | None => false
  end.

(** [AuthoringValidator._check_optional_fields]; [signifier.provenance]
    is a model object and as such truthy. *)
Definition _check_optional_fields (signifier : Signifier) : list string :=
  let warnings : list string := [] in
  let warnings :=
    if negb (shapes_truthy signifier)
       && match structured_conditions (context signifier) with
          | [] => true
          | _ => false
          end
    then (warnings ++ ["No SHACL shapes or structured conditions defined"])%list
    else warnings in
  warnings.

(** [(shape_node, target_pred, None) in graph] *)
Definition has_triple (graph : Graph) (s p : node) : bool :=
  existsb (fun t : triple => bool_decide (t.1.1 = s /\ t.1.2 = p)) graph.

(** The first loop of [_validate_node_shape]. *)
Definition has_target (graph : Graph) (shape_node : node) : bool :=
  existsb (has_triple graph shape_node)
          [SH "targetNode"; SH "targetClass"; SH "targetSubjectsOf"].

(** The body of the second loop of [_validate_node_shape] for one
    property shape. *)
Definition check_property_shape (graph : Graph) (prop_shape : node) : list string :=
  match truthy (graph_value graph prop_shape (SH "path")) with
  | None => ["Property shape " ++ node_str prop_shape ++ " missing sh:path"]
  | Some path =>
      match path with
      | URIRef _ => []
      | _ => ["sh:path must be a valid IRI, got: " ++ node_str path]
      end
  end.

(** [AuthoringValidator._validate_node_shape] *)
Definition _validate_node_shape (graph : Graph) (shape_node : node) : list string :=
  let errors : list string := [] in
  let message :=
    ("NodeShape " ++ node_str shape_node
     ++ " has no target (sh:targetNode, sh:targetClass, etc.)")%string in
  let errors :=
    if negb (has_target graph shape_node) then (errors ++ [message])%list
    else errors in
  let property_shapes := objects graph shape_node (SH "property") in
  (errors ++ flat_map (check_property_shape graph) property_shapes)%list.

(** [graph.subjects(predicate=None, object=o)] *)
Definition subjects_of_object (g : Graph) (o : node) : list node :=
  omap (fun t : triple => if decide (t.2 = o) then Some t.1.1 else None) g.

(** [AuthoringValidator._check_shacl_shapes]; the text of the parser's
    exception is not part of the model. *)
Definition _check_shacl_shapes `{Runtime} (shacl_shapes : rdf_text) : list string :=
  match parse_rdf_text shacl_shapes "turtle" with
  | None => ["Failed to parse SHACL shapes: " ++ "parser error"]
  | Some shapes_graph =>
      let node_shapes := subjects_of_object shapes_graph (SH "NodeShape") in
      match node_shapes with
      | [] => ["No sh:NodeShape found in SHACL shapes"]
      | _ => flat_map (_validate_node_shape shapes_graph) node_shapes
      end
  end.

(** ['; '.join(errors)] *)
Definition join (sep : string) (l : list string) : string := String.concat sep l.

Section Validator.
Context `{Runtime}.
Variable self : AuthoringValidator.

(** The list [validate_signifier] has collected when it looks at it. *)
Definition collected (signifier : Signifier) (enable_shacl_check : bool) : list string :=
  let errors := _check_required_fields signifier in
  let errors :=
    if enable_shacl_check && shapes_truthy signifier
    then (errors ++ match shacl_shapes (context signifier) with
                    | Some t => _check_shacl_shapes t
                    | None => []
                    end)%list
    else errors in
  let errors :=
    if strict_mode self then (errors ++ _check_optional_fields signifier)%list
    else errors in
  errors.

(** [AuthoringValidator.validate_signifier] *)
Definition validate_signifier (signifier : Signifier) (enable_shacl_check : bool)
  : outcome (list string) :=
  let errors := collected signifier enable_shacl_check in
  match errors with
  | [] => Returned errors
  | _ =>
      let error_msg := "Signifier validation failed: " ++ join "; " errors in
      if strict_mode self then AuthoringValidationError error_msg
      else Returned errors
  end.

(** [AuthoringValidator.validate_and_raise] *)
Definition validate_and_raise (signifier : Signifier) (enable_shacl_check : bool)
  : outcome unit :=
  match validate_signifier signifier enable_shacl_check with
  | AuthoringValidationError msg => AuthoringValidationError msg
  | Returned errors =>
      match errors with
      | [] => Returned tt
      | _ => AuthoringValidationError
               ("Signifier validation failed: " ++ join "; " errors)
      end
  end.

End Validator.

End AuthoringValidator.

(** ** Matcher registry, the operations that change it:
       [src/matching/registry.py] *)

Module MatcherRegistration.
Import IntentMatcherRegistry.

(** [IntentMatcherRegistry.register]; [version] is what
    [matcher.get_version()] returns. *)
Definition register (self : IntentMatcherRegistry) (version : string) (m : matcher)
  : IntentMatcherRegistry :=
  {| default_version := default_version self;
     _matchers := <[version := m]> (_matchers self) |}.

(** [IntentMatcherRegistry.set_default_version] *)
Definition set_default_version (self : IntentMatcherRegistry) (version : string)
  : result IntentMatcherRegistry :=
  match _matchers self !! version with
  | None => Err (ValueError "Cannot set default to unregistered version")
  | Some _ => Ok {| default_version := version; _matchers := _matchers self |}
  end.

(** [IntentMatcherRegistry.get_default_version] *)
Definition get_default_version (self : IntentMatcherRegistry) : string :=
  default_version self.

End MatcherRegistration.

(** ** Retrieval orchestrator, the pipeline:
       [src/orchestrator/orchestrator.py] *)

Module RetrievalPipeline.
Import Model.

Record RetrievalRequest := {
  intent_query : string;
  context_input : gmap string (gmap string scalar);
  pipeline : list string;
  matcher_version : option string;
  k : Z;
  ranking_weights : option (gmap string Q);
  enable_sse : bool
}.

(** The part of the request that the intent-matching stage reads. *)
Definition im_request (request : RetrievalRequest) : RetrievalOrchestrator.RetrievalRequest :=
  {| RetrievalOrchestrator.intent_query := intent_query request;
     RetrievalOrchestrator.pipeline := pipeline request;
     RetrievalOrchestrator.matcher_version := matcher_version request;
     RetrievalOrchestrator.k := k request |}.

(** A candidate dictionary on its way through the pipeline: the three
    keys of the intent-matching stage and the keys that the later stages
    add ([None] while a key is absent).  [sse_violations] holds the
    violations whose messages the stage records. *)
Record Candidate := {
  signifier_id : string;
  intent_similarity : Q;
  signifier : Signifier;
  sse_pass : option bool;
  sse_violations : option (list SSE.SSEViolation);
  sse_checked : option Z;
  shacl_conforms : option bool;
  shacl_has_shapes : option bool;
  constraint_count : option Z
}.

Definition of_im_candidate (c : RetrievalOrchestrator.Candidate) : Candidate :=
  {| signifier_id := RetrievalOrchestrator.c_signifier_id c;
     intent_similarity := RetrievalOrchestrator.c_intent_similarity c;
     signifier := RetrievalOrchestrator.c_signifier c;
     sse_pass := None; sse_violations := None; sse_checked := None;
     shacl_conforms := None; shacl_has_shapes := None; constraint_count := None |}.

(** The keys of a candidate that [Ranker.rank] reads. *)
Definition ranker_candidate (c : Candidate) : Ranker.Candidate :=
  {| Ranker.c_signifier_id := Some (signifier_id c);
     Ranker.c_intent_similarity := Some (intent_similarity c);
     Ranker.c_shacl_conforms := shacl_conforms c;
     Ranker.c_shacl_has_shapes := shacl_has_shapes c;
     Ranker.c_sse_pass := sse_pass c;
     Ranker.c_constraint_count := constraint_count c |}.

(** A module result: its name, its candidate count, the candidates it
    hands on and, for the ranking stage, the ranked results. *)
Record ModuleResult := {
  module_name : string;
  candidate_count : Z;
  candidates : list Candidate;
  passed_count : Z;
  ranked_results : list Ranker.RankedResult
}.

Record RetrievalResponse := {
  results : list Ranker.RankedResult;
  module_results : list ModuleResult
}.

Section Pipeline.
Context `{Runtime}.
Variable registry : MemoryStore.MemoryStore.
Variable matcher_registry : IntentMatcherRegistry.IntentMatcherRegistry.
Variable sse : SSE.SSE.
Variable ranker : Ranker.Ranker.
Variable default_pipeline : list string.

(** The SHACL stage runs pySHACL, which is not part of the model: the
    stage is a parameter of the pipeline. *)
Variable _execute_shacl_validation :
  RetrievalRequest -> list Candidate -> result ModuleResult.

(** The body of the loop of [_execute_sse]. *)
Definition sse_candidate (request : RetrievalRequest) (candidate : Candidate) : Candidate :=
  let structured_conditions := structured_conditions (context (signifier candidate)) in
  match structured_conditions with
  | [] =>
      {| signifier_id := signifier_id candidate;
         intent_similarity := intent_similarity candidate;
         signifier := signifier candidate;
         sse_pass := Some true;
         sse_violations := Some [];
         sse_checked := sse_checked candidate;
         shacl_conforms := shacl_conforms candidate;
         shacl_has_shapes := shacl_has_shapes candidate;
         constraint_count := constraint_count candidate |}
  | _ =>
      let sse_result := SSE.evaluate sse structured_conditions (context_input request) in
      {| signifier_id := signifier_id candidate;
         intent_similarity := intent_similarity candidate;
         signifier := signifier candidate;
         sse_pass := Some (SSE.sse_pass sse_result);
         sse_violations := Some (SSE.violations sse_result);
         sse_checked := Some (SSE.conditions_checked sse_result);
         shacl_conforms := shacl_conforms candidate;
         shacl_has_shapes := shacl_has_shapes candidate;
         constraint_count := constraint_count candidate |}
  end.

(** [RetrievalOrchestrator._execute_sse] *)
Definition _execute_sse (request : RetrievalRequest) (candidates : list Candidate)
  : ModuleResult :=
  let sse_candidates := map (sse_candidate request) candidates in
  let passed_count :=
    Z.of_nat (length (filter (fun c => sse_pass c = Some true) sse_candidates)) in
  {| module_name := "SSE";
     candidate_count := Z.of_nat (length sse_candidates);
     candidates := sse_candidates;
     passed_count := passed_count;
     ranked_results := [] |}.

(** [RetrievalOrchestrator._execute_ranking]: a request that brings its
    own non-empty weights is ranked by a fresh [Ranker(weights=...)]. *)
Definition _execute_ranking (request : RetrievalRequest) (candidates : list Candidate)
  : ModuleResult :=
  let ranker :=
    match ranking_weights request with
    | Some w =>
        if decide (w = ∅) then ranker
        else Ranker.init (Some w) true false (1 # 100)%Q
    | None => ranker
    end in
  let ranked_results := Ranker.rank ranker (map ranker_candidate candidates) in
  {| module_name := "RP";
     candidate_count := Z.of_nat (length ranked_results);
     candidates := [];
     passed_count := 0;
     ranked_results := ranked_results |}.

(** [RetrievalOrchestrator._execute_intent_matching], with the
    candidates as the later stages see them. *)
Definition _execute_intent_matching (request : RetrievalRequest) : result ModuleResult :=
  bind (RetrievalOrchestrator._execute_intent_matching registry matcher_registry
          (im_request request))
       (fun im_result =>
          Ok {| module_name := RetrievalOrchestrator.module_name im_result;
                candidate_count := RetrievalOrchestrator.candidate_count im_result;
                candidates := map of_im_candidate (RetrievalOrchestrator.candidates im_result);
                passed_count := 0;
                ranked_results := [] |}).

Definition is_nil {A} (l : list A) : bool :=
  match l with [] => true | _ => false end.

(** [RetrievalOrchestrator.retrieve] *)
Definition retrieve (request : RetrievalRequest) : result RetrievalResponse :=
  let pipeline :=
    match pipeline request with
    | [] => default_pipeline
    | p => p
    end in
  let module_results : list ModuleResult := [] in
  let candidates : list Candidate := [] in
  bind (if bool_decide ("IM" ∈ pipeline) then
          bind (_execute_intent_matching request) (fun im_result =>
            Ok ((module_results ++ [im_result])%list, RetrievalPipeline.candidates im_result))
        else Ok (module_results, candidates))
    (fun '(module_results, candidates) =>
  let '(module_results, candidates) :=
    if bool_decide ("SSE" ∈ pipeline) && negb (is_nil candidates) && enable_sse request then
      let sse_result := _execute_sse request candidates in
      ((module_results ++ [sse_result])%list, RetrievalPipeline.candidates sse_result)
    else (module_results, candidates) in
  bind (if bool_decide ("SV" ∈ pipeline) && negb (is_nil candidates) then
          bind (_execute_shacl_validation request candidates) (fun sv_result =>
            Ok ((module_results ++ [sv_result])%list, RetrievalPipeline.candidates sv_result))
        else Ok (module_results, candidates))
    (fun '(module_results, candidates) =>
  let '(module_results, ranked_results) :=
    if bool_decide ("RP" ∈ pipeline) && negb (is_nil candidates) then
      let rp_result := _execute_ranking request candidates in
      ((module_results ++ [rp_result])%list, RetrievalPipeline.ranked_results rp_result)
    else (module_results, []) in
  Ok {| results := ranked_results; module_results := module_results |})).

End Pipeline.

End RetrievalPipeline.

(** * Properties *)

(** ** Python list operations *)

Section PyListProperties.
Context {A : Type}.
Variable key : A -> Q.

Lemma insert_desc_perm x l : PyList.insert_desc key x l ≡ₚ x :: l.
Proof.
  induction l as [|y l IH]; cbn; [done|].
  destruct (Qle_bool _ _); [done|].
  rewrite IH. apply Permutation_swap.
Qed.

Lemma sort_desc_perm l : PyList.sort_desc key l ≡ₚ l.
Proof.
  induction l as [|x l IH]; cbn; [done|].
  rewrite insert_desc_perm. by rewrite IH.
Qed.

Lemma insert_desc_sorted x l :
  StronglySorted (PyList.desc key) l -> StronglySorted (PyList.desc key) (PyList.insert_desc key x l).
Proof.
  induction 1 as [|y l Hs IH Hy]; cbn.
  - constructor; [constructor|constructor].
  - destruct (Qle_bool (key y) (key x)) eqn:Hle.
    + apply Qle_bool_iff in Hle.
      constructor; [by constructor|].
      constructor; [done|].
      eapply Forall_impl; [exact Hy|].
      intros z Hz. unfold PyList.desc in *. by eapply Qle_trans.
    + assert (key x <= key y)%Q as Hxy.
      { apply Qlt_le_weak, Qnot_le_lt. intros Hc.
        apply Qle_bool_iff in Hc. congruence. }
      constructor; [done|].
      eapply Permutation_Forall; [symmetry; apply insert_desc_perm|].
      by constructor.
Qed.

Lemma sort_desc_sorted l : StronglySorted (PyList.desc key) (PyList.sort_desc key l).
Proof.
  induction l as [|x l IH]; cbn; [constructor|].
  by apply insert_desc_sorted.
Qed.

Lemma insert_desc_stable q x l :
  filter (fun a => key a == q)%Q (PyList.insert_desc key x l)
  = filter (fun a => key a == q)%Q (x :: l).
Proof.
  induction l as [|y l IH]; cbn [PyList.insert_desc]; [done|].
  destruct (Qle_bool (key y) (key x)) eqn:Hle; [done|].
  assert (~ (key y <= key x)%Q) as Hn.
  { intros Hc. apply Qle_bool_iff in Hc. congruence. }
  rewrite (filter_cons _ y), IH, !filter_cons.
  destruct (decide (key x == q)%Q) as [Hx|Hx];
    destruct (decide (key y == q)%Q) as [Hy|Hy]; try done.
  exfalso. apply Hn. rewrite Hx, Hy. apply Qle_refl.
Qed.

(** The sort is stable: the elements that share a key keep the order
    they had in the input. *)
Lemma sort_desc_stable q l :
  filter (fun a => key a == q)%Q (PyList.sort_desc key l)
  = filter (fun a => key a == q)%Q l.
Proof.
  induction l as [|x l IH]; cbn [PyList.sort_desc foldr]; [done|].
  change (foldr (PyList.insert_desc key) [] l) with (PyList.sort_desc key l).
  rewrite insert_desc_stable, !filter_cons, IH. done.
Qed.

Lemma slice_to_subseteq (k : Z) (l : list A) : PyList.slice_to k l ⊆ l.
Proof.
  unfold PyList.slice_to. destruct (0 <=? k); apply subseteq_take.
Qed.


End PyListProperties.

(** ** Intent Matcher v0 *)

Section MatcherProperties.
Import StringContainsMatcher.
Context `{Runtime}.

Lemma tokenize_lengths text case_sensitive :
  Forall (fun t => (3 <= String.length t)%nat) (_tokenize text case_sensitive).
Proof.
  unfold _tokenize. apply Forall_forall. intros t Ht.
  apply list_elem_of_filter in Ht as [Ht _]. lia.
Qed.

Lemma inject_nat_pos (n : nat) : (0 < n)%nat -> (0 < inject_Z (Z.of_nat n))%Q.
Proof. intros Hn. unfold Qlt. cbn. lia. Qed.

Lemma zero_div (x : Q) : (inject_Z (Z.of_nat 0) / x == 0)%Q.
Proof. unfold Qdiv. apply Qmult_0_l. Qed.

Lemma count_matches_empty (query_tokens : list string) :
  count_matches query_tokens ∅ = 0%nat.
Proof.
  unfold count_matches. induction query_tokens as [|t l IH]; [done|].
  rewrite filter_cons. destruct (decide (t ∈ (∅ : gset string))); [set_solver|done].
Qed.

(** The value computed by [_compute_similarity], the guard on an empty
    token set included. *)
Lemma compute_similarity_value (query_tokens : list string) signifier case_sensitive :
  (_compute_similarity query_tokens signifier case_sensitive ==
   match query_tokens with
   | [] => 0
   | _ => inject_Z (Z.of_nat (count_matches query_tokens
                                (all_signifier_tokens signifier case_sensitive)))
          / inject_Z (Z.of_nat (length query_tokens))
   end)%Q.
Proof.
  unfold _compute_similarity.
  destruct (decide (all_signifier_tokens signifier case_sensitive = ∅)) as [He|He].
  - rewrite He, count_matches_empty.
    destruct query_tokens; [done|]. symmetry. apply zero_div.
  - destruct query_tokens; done.
Qed.

Lemma count_matches_nodup (query_tokens : list string) (tokens : gset string) :
  NoDup query_tokens ->
  count_matches query_tokens tokens = size (list_to_set query_tokens ∩ tokens).
Proof.
  unfold count_matches. induction 1 as [|t l Hnotin Hnd IH]; cbn [list_to_set].
  - rewrite filter_nil. cbn. symmetry. apply size_empty_iff. set_solver.
  - rewrite filter_cons. destruct (decide (t ∈ tokens)) as [Hin|Hout].
    + cbn [length]. rewrite IH.
      replace (({[t]} ∪ list_to_set l) ∩ tokens)
        with ({[t]} ∪ (list_to_set l ∩ tokens) : gset string) by set_solver.
      rewrite (size_union ({[t]} : gset string)); [|set_solver].
      by rewrite size_singleton.
    + rewrite IH. f_equal. set_solver.
Qed.

Lemma similarity_positive_iff (query_tokens : list string) signifier case_sensitive :
  negb (Qle_bool (_compute_similarity query_tokens signifier case_sensitive) 0) = true
  <-> count_matches query_tokens (all_signifier_tokens signifier case_sensitive) <> 0%nat.
Proof.
  rewrite negb_true_iff.
  assert (Hv := compute_similarity_value query_tokens signifier case_sensitive).
  set (m := count_matches _ _) in *.
  split.
  - intros Hle Hm. rewrite Hm in Hv.
    assert (_compute_similarity query_tokens signifier case_sensitive == 0)%Q as H0.
    { rewrite Hv. destruct query_tokens; [done|apply zero_div]. }
    assert (Qle_bool (_compute_similarity query_tokens signifier case_sensitive) 0 = true).
    { apply Qle_bool_iff. rewrite H0. apply Qle_refl. }
    congruence.
  - intros Hm. destruct (Qle_bool _ _) eqn:Hle; [|done]. exfalso.
    apply Qle_bool_iff in Hle. rewrite Hv in Hle.
    destruct query_tokens as [|t l].
    { subst m. unfold count_matches in Hm. by rewrite filter_nil in Hm. }
    apply Qle_not_lt in Hle. apply Hle.
    apply Qlt_shift_div_l; [apply inject_nat_pos; cbn; lia|].
    rewrite Qmult_0_l. apply inject_nat_pos. lia.
Qed.

(** C6 (as amended).  IM v0 computes the similarity of a signifier as the
    number of positions of the query token sequence [Q] whose token lies
    in the signifier's token set [S], over the length of [Q] (and [0] when
    [Q] is empty): a matching token that occurs twice in the query counts
    twice.  The tokens have at least three characters.  When no token is
    repeated in [Q] this is the number of distinct matched tokens over the
    length of [Q]. *)
Theorem similarity_counts_occurrences (intent_query : string) signifier case_sensitive :
  let Q := _tokenize intent_query case_sensitive in
  let S := all_signifier_tokens signifier case_sensitive in
  Forall (fun t => (3 <= String.length t)%nat) Q
  /\ (Q <> [] ->
      _compute_similarity Q signifier case_sensitive ==
      inject_Z (Z.of_nat (count_matches Q S)) / inject_Z (Z.of_nat (length Q)))%Q
  /\ (Q = [] -> _compute_similarity Q signifier case_sensitive == 0)%Q
  /\ (NoDup Q -> Q <> [] ->
      _compute_similarity Q signifier case_sensitive == claimed_similarity Q S)%Q.
Proof.
  intros Q S.
  assert (Hv := compute_similarity_value Q signifier case_sensitive).
  split; [apply tokenize_lengths|]. split; [|split].
  - intros Hne. rewrite Hv. by destruct Q.
  - intros He. rewrite Hv. by rewrite He.
  - intros Hnd Hne. rewrite Hv. unfold claimed_similarity.
    rewrite <- (count_matches_nodup Q S Hnd). by destruct Q.
Qed.

Lemma match_one_sound (query_tokens : list string) case_sensitive signifier r :
  r ∈ match_one query_tokens case_sensitive signifier ->
  count_matches query_tokens (all_signifier_tokens signifier case_sensitive) <> 0%nat
  /\ r = {| signifier_id := default "unknown" (d_signifier_id signifier);
            similarity := _compute_similarity query_tokens signifier case_sensitive;
            matcher_version := VERSION;
            matched_tokens :=
              _get_matched_tokens query_tokens signifier case_sensitive |}.
Proof.
  unfold match_one.
  destruct (negb (Qle_bool _ _)) eqn:Hpos; [|by intros ?%elem_of_nil].
  intros ->%list_elem_of_singleton. split; [|done].
  by apply similarity_positive_iff.
Qed.

Lemma match_one_none (query_tokens : list string) case_sensitive signifier :
  count_matches query_tokens (all_signifier_tokens signifier case_sensitive) = 0%nat ->
  match_one query_tokens case_sensitive signifier = [].
Proof.
  intros Hm. unfold match_one.
  destruct (negb (Qle_bool _ _)) eqn:Hpos; [|done].
  by apply similarity_positive_iff in Hpos.
Qed.

(** C10.  For a non-empty query, [match] returns normally, and only
    results of strictly positive similarity: every result comes from a
    signifier that shares a token with the query, a signifier that shares
    none contributes no result, and when no signifier shares a token the
    result list is empty. *)
Theorem match_returns_positive_only (intent_query : string)
    (signifiers : list SignifierDict) (k : Z) (case_sensitive : bool) :
  intent_query <> "" ->
  let Q := _tokenize intent_query case_sensitive in
  exists results,
    match_ intent_query signifiers k case_sensitive = Ok results
    /\ Forall (fun r => (0 < similarity r)%Q) results
    /\ (forall r, r ∈ results ->
          exists s, s ∈ signifiers
            /\ count_matches Q (all_signifier_tokens s case_sensitive) <> 0%nat
            /\ signifier_id r = default "unknown" (d_signifier_id s)
            /\ similarity r = _compute_similarity Q s case_sensitive)
    /\ (forall s, count_matches Q (all_signifier_tokens s case_sensitive) = 0%nat ->
          match_one Q case_sensitive s = [])
    /\ ((forall s, s ∈ signifiers ->
           count_matches Q (all_signifier_tokens s case_sensitive) = 0%nat) ->
        results = []).
Proof.
  intros Hq Q. unfold match_.
  destruct (String.eqb intent_query "") eqn:Heq;
    [by apply String.eqb_eq in Heq|].
  destruct signifiers as [|s0 rest].
  { exists []. repeat split; try done.
    - intros r Hr. by apply elem_of_nil in Hr.
    - intros s. apply match_one_none. }
  set (sigs := s0 :: rest). fold Q.
  set (raw := flat_map (match_one Q case_sensitive) sigs).
  assert (Hsrc : forall r, r ∈ PyList.slice_to k (PyList.sort_desc similarity raw) ->
            exists s, s ∈ sigs /\ r ∈ match_one Q case_sensitive s).
  { intros r Hr. apply slice_to_subseteq in Hr.
    rewrite sort_desc_perm in Hr. apply list_elem_of_In in Hr.
    apply in_flat_map in Hr as (s & Hs & Hr).
    exists s. split; by apply list_elem_of_In. }
  eexists. split; [reflexivity|]. split; [|split; [|split]].
  - apply Forall_forall. intros r Hr.
    destruct (Hsrc r Hr) as (s & _ & Hrs).
    unfold match_one in Hrs.
    destruct (negb (Qle_bool _ _)) eqn:Hpos; [|by apply elem_of_nil in Hrs].
    apply list_elem_of_singleton in Hrs. subst r. cbn.
    apply negb_true_iff in Hpos. apply Qnot_le_lt. intros Hc.
    apply Qle_bool_iff in Hc. congruence.
  - intros r Hr. destruct (Hsrc r Hr) as (s & Hs & Hrs).
    apply match_one_sound in Hrs as [Hm ->]. exists s. by repeat split.
  - intros s. apply match_one_none.
  - intros Hall.
    assert (raw = []) as ->.
    { subst raw. clear Hsrc. clearbody sigs.
      induction sigs as [|s l IH]; [done|].
      cbn. rewrite match_one_none by (apply Hall; left).
      apply IH. intros s' Hs'. apply Hall. by right. }
    cbn. unfold PyList.slice_to. destruct (0 <=? k); apply take_nil.
Qed.

End MatcherProperties.

Lemma similarity_counts_occurrences_witness :
  let Q := StringContainsMatcher._tokenize "raise the blinds" false in
  let s := {| StringContainsMatcher.d_signifier_id := Some "s1";
              StringContainsMatcher.d_nl_text := Some "raise blinds";
              StringContainsMatcher.d_structured := None |} in
  (StringContainsMatcher._compute_similarity (H := Examples.example_runtime) Q s false
   == StringContainsMatcher.claimed_similarity Q
        (StringContainsMatcher.all_signifier_tokens
           (H := Examples.example_runtime) s false))%Q.
Proof.
  cbv zeta.
  refine (proj2 (proj2 (proj2
            (similarity_counts_occurrences (H := Examples.example_runtime)
               "raise the blinds"
               {| StringContainsMatcher.d_signifier_id := Some "s1";
                  StringContainsMatcher.d_nl_text := Some "raise blinds";
                  StringContainsMatcher.d_structured := None |} false))) _ _).
  - vm_compute. repeat constructor; set_solver.
  - vm_compute. discriminate.
Defined.

Lemma match_returns_positive_only_witness :
  exists results,
    StringContainsMatcher.match_ (H := Examples.example_runtime) "brew coffee"
      [{| StringContainsMatcher.d_signifier_id := Some "s1";
          StringContainsMatcher.d_nl_text := Some "raise blinds";
          StringContainsMatcher.d_structured := None |}] 10 false = Ok results
    /\ Forall (fun r => (0 < StringContainsMatcher.similarity r)%Q) results.
Proof.
  destruct (match_returns_positive_only (H := Examples.example_runtime) "brew coffee"
              [{| StringContainsMatcher.d_signifier_id := Some "s1";
                  StringContainsMatcher.d_nl_text := Some "raise blinds";
                  StringContainsMatcher.d_structured := None |}] 10 false)
    as (results & Hres & Hpos & _).
  - discriminate.
  - exists results. split; assumption.
Defined.

(** Tokens: runs of word characters of length three or more, in lower
    case by default. *)
Example tokenize_example :
  StringContainsMatcher._tokenize "Turn the Light_1 on, NOW!" false
  = ["turn"; "the"; "light_1"; "now"].
Proof. reflexivity. Qed.

(** C6, the claim as stated fails: for the query ["light light"] and a
    signifier whose text is ["light"], the code returns [2/2 = 1] while
    the number of distinct matched tokens over the length of the query is
    [1/2]. *)
Lemma duplicate_token_counted_twice :
  let Q := StringContainsMatcher._tokenize "light light" false in
  let s := {| StringContainsMatcher.d_signifier_id := Some "s1";
              StringContainsMatcher.d_nl_text := Some "light";
              StringContainsMatcher.d_structured := None |} in
  Q = ["light"; "light"]
  /\ (StringContainsMatcher._compute_similarity (H := Examples.example_runtime) Q s false
      == 1)%Q
  /\ (StringContainsMatcher.claimed_similarity Q
        (StringContainsMatcher.all_signifier_tokens (H := Examples.example_runtime) s false)
      == 1 # 2)%Q
  /\ ~ (StringContainsMatcher._compute_similarity (H := Examples.example_runtime) Q s false
        == StringContainsMatcher.claimed_similarity Q
             (StringContainsMatcher.all_signifier_tokens
                (H := Examples.example_runtime) s false))%Q.
Proof.
  cbv zeta. split; [reflexivity|]. split; [by vm_compute|]. split; [by vm_compute|].
  by vm_compute.
Qed.

(** ** Ranker and Policy *)

Section RankerProperties.
Import Ranker.

Lemma rank_perm self candidates :
  rank self candidates ≡ₚ map (rank_one self) candidates.
Proof. unfold rank. apply sort_desc_perm. Qed.

(** C8 (as amended).  The list returned by [Ranker.rank] is sorted by
    [final_score] in descending order, holds the results of the
    candidates, and is stable: results with equal [final_score] keep the
    order in which their candidates were given (the identifier plays no
    part in the order). *)
Theorem rank_sorted_stable (self : Ranker.Ranker) (candidates : list Candidate) :
  StronglySorted (PyList.desc final_score) (rank self candidates)
  /\ rank self candidates ≡ₚ map (rank_one self) candidates
  /\ forall q : Q,
       filter (fun r => final_score r == q)%Q (rank self candidates)
       = filter (fun r => final_score r == q)%Q (map (rank_one self) candidates).
Proof.
  split; [apply sort_desc_sorted|]. split; [apply rank_perm|].
  intros q. apply sort_desc_stable.
Qed.

Lemma accumulate_spec signals tw ws :
  ((accumulate signals tw ws).1 == tw + Qsum (map weight (non_gate signals)))%Q
  /\ ((accumulate signals tw ws).2 ==
      ws + Qsum (map (fun s => weight s * normalize (value s)) (non_gate signals)))%Q.
Proof.
  revert tw ws. unfold Qsum, non_gate.
  induction signals as [|s l IH]; intros tw ws;
    cbn [accumulate List.filter map foldr fst snd].
  - split; ring.
  - destruct (is_gate s); cbn [negb map foldr]; [apply IH|].
    destruct (IH (tw + weight s) (ws + normalize (value s) * weight s))%Q as [-> ->].
    split; ring.
Qed.

Lemma div_by_zero (x y : Q) : (y == 0 -> x / y == 0)%Q.
Proof. intros ->. unfold Qdiv. cbn. ring. Qed.

(** The loop computes the quotient of the two sums; a zero total weight
    gives [0], which is also the value of the quotient in [Q]. *)
Lemma weighted_score_value signals :
  (_calculate_weighted_score signals == claimed_weighted_score signals)%Q.
Proof.
  unfold _calculate_weighted_score, claimed_weighted_score.
  destruct (accumulate_spec signals 0 0) as [Ht Hw].
  destruct (accumulate signals 0 0) as [tw ws]. cbn in Ht, Hw.
  rewrite Qplus_0_l in Ht, Hw.
  destruct (Qeq_bool tw 0) eqn:Hz.
  - apply Qeq_bool_iff in Hz. symmetry. apply div_by_zero. by rewrite <- Ht.
  - by rewrite Ht, Hw.
Qed.

Lemma unit_sums signals :
  Forall unit_signal signals ->
  (0 <= Qsum (map (fun s => weight s * normalize (value s)) (non_gate signals))
   /\ Qsum (map (fun s => weight s * normalize (value s)) (non_gate signals))
      <= Qsum (map weight (non_gate signals)))%Q.
Proof.
  unfold Qsum, non_gate.
  induction 1 as [|s l (Hw & Hv0 & Hv1) _ [IH0 IH1]]; cbn [List.filter map foldr].
  - split; apply Qle_refl.
  - destruct (is_gate s); cbn [negb map foldr]; [done|]. split.
    + apply Qle_trans with (0 + 0)%Q; [apply Qle_refl|].
      apply Qplus_le_compat; [by apply Qmult_le_0_compat|done].
    + apply Qplus_le_compat; [|done].
      apply Qle_trans with (weight s * 1)%Q; [|rewrite Qmult_1_r; apply Qle_refl].
      rewrite !(Qmult_comm (weight s)). by apply Qmult_le_compat_r.
Qed.

Lemma weighted_score_le_1 signals :
  Forall unit_signal signals -> (_calculate_weighted_score signals <= 1)%Q.
Proof.
  intros Hu. apply unit_sums in Hu as [H0 H1].
  unfold _calculate_weighted_score.
  destruct (accumulate_spec signals 0 0) as [Ht Hw].
  destruct (accumulate signals 0 0) as [tw ws]. cbn in Ht, Hw.
  rewrite Qplus_0_l in Ht, Hw. rewrite <- Ht, <- Hw in *.
  destruct (Qeq_bool tw 0) eqn:Hz; [done|].
  assert (0 < tw)%Q.
  { apply Qle_lteq in H1 as H1'. assert (0 <= tw)%Q by (by eapply Qle_trans).
    apply Qle_lteq in H as [?|Heq]; [done|].
    symmetry in Heq. apply Qeq_bool_iff in Heq. congruence. }
  apply Qle_shift_div_r; [done|]. by rewrite Qmult_1_l.
Qed.

Lemma candidate_signals_unit (self : Ranker.Ranker) c :
  (forall key w, weights self !! key = Some w -> 0 <= w)%Q ->
  (0 <= default 0 (c_intent_similarity c) <= 1)%Q ->
  Forall unit_signal (candidate_signals self c).
Proof.
  intros Hw [Hs0 Hs1].
  assert (Hdef : forall key d, (0 <= d)%Q -> (0 <= default d (weights self !! key))%Q).
  { intros key d Hd. destruct (weights self !! key) eqn:E; cbn; [by eapply Hw|done]. }
  assert (Hb : forall b : bool, (0 <= (if b then 1 else 0) /\ (if b then 1 else 0) <= 1)%Q).
  { by intros []. }
  unfold candidate_signals. constructor.
  - repeat split; cbn; [by apply Hdef|done|done].
  - apply Forall_app. split.
    + destruct (default false (c_shacl_has_shapes c)); constructor; [|constructor].
      split; cbn; [by apply Hdef|apply Hb].
    + destruct (c_sse_pass c); constructor; [|constructor].
      split; cbn; [by apply Hdef|apply Hb].
Qed.

Lemma passed_gates_gate_fails (self : Ranker.Ranker) c :
  candidate_passed_gates self c = negb (gate_fails self c).
Proof.
  unfold candidate_passed_gates, gate_fails.
  destruct (c_shacl_has_shapes c) as [[]|], (c_shacl_conforms c) as [[]|],
    (c_sse_pass c) as [[]|], (enable_shacl_gate self), (enable_sse_gate self);
    reflexivity.
Qed.

Lemma non_gate_terms (self : Ranker.Ranker) c :
  map (fun s => (weight s, normalize (value s))) (non_gate (candidate_signals self c))
  = score_terms self c.
Proof.
  unfold non_gate, candidate_signals, score_terms.
  destruct (default false (c_shacl_has_shapes c)), (c_sse_pass c) as [[]|],
    (enable_shacl_gate self), (enable_sse_gate self); reflexivity.
Qed.

(** The loop of [_calculate_weighted_score] over the signals of a
    candidate computes the weighted average of its terms. *)
Lemma weighted_score_average (self : Ranker.Ranker) c :
  (_calculate_weighted_score (candidate_signals self c) == weighted_average self c)%Q.
Proof.
  rewrite weighted_score_value. unfold claimed_weighted_score, weighted_average.
  rewrite <- non_gate_terms, !map_map. cbn [fst snd].
  destruct (Qeq_bool _ 0) eqn:Hz; [|reflexivity].
  apply Qeq_bool_iff in Hz. by apply div_by_zero.
Qed.

(** C2 (as amended).  A candidate for which an enabled gate fails
    receives [final_score = 0] and [passed_gates = false], whatever its
    other signals.  A candidate for which all enabled gates pass receives
    [passed_gates = true] and the weighted average of its signals that are
    not gates (the similarity as it is, the outcomes of SHACL and SSE as
    [0] or [1]; [0] when the weights sum to [0]); only when the constraint
    count is positive is [specificity_boost] times the count added and the
    sum capped at [1].  For non-negative weights, a similarity in [[0, 1]]
    and a constraint count that is not negative this is the capped sum of
    the claim.  The default boost is [0.01], and the list returned by
    [rank] holds exactly these results. *)
Theorem rank_final_scores (self : Ranker.Ranker) (candidates : list Candidate) :
  rank self candidates ≡ₚ map (rank_one self) candidates
  /\ specificity_boost default_ranker = (1 # 100)%Q
  /\ forall c,
       let r := rank_one self c in
       (gate_fails self c = true ->
          final_score r = 0%Q /\ passed_gates r = false)
       /\ (gate_fails self c = false ->
           passed_gates r = true
           /\ (final_score r == amended_score self c)%Q
           /\ ((forall key w, weights self !! key = Some w -> 0 <= w)%Q ->
               (0 <= default 0 (c_intent_similarity c) <= 1)%Q ->
               0 <= default 0 (c_constraint_count c) ->
               (final_score r ==
                Qmin 1 (weighted_average self c
                        + specificity_boost self
                          * inject_Z (default 0%Z (c_constraint_count c))))%Q)).
Proof.
  split; [apply rank_perm|]. split; [reflexivity|].
  intros c r. subst r. unfold rank_one. cbn [final_score passed_gates signals].
  rewrite passed_gates_gate_fails. split; intros ->; cbn [negb]; [done|].
  split; [done|].
  assert (Hv := weighted_score_average self c).
  set (n := default 0 (c_constraint_count c)).
  assert (Hscore :
            (if 0 <? n
             then Qmin 1 (_calculate_weighted_score (candidate_signals self c)
                          + inject_Z n * specificity_boost self)%Q
             else _calculate_weighted_score (candidate_signals self c))
            == amended_score self c).
  { unfold amended_score. fold n. destruct (0 <? n); [|done].
    apply Q.min_compat; [done|]. rewrite Hv. ring. }
  split; [exact Hscore|].
  intros Hw Hsim Hcount. rewrite Hscore. unfold amended_score. fold n. subst n.
  destruct (0 <? default 0 (c_constraint_count c)) eqn:Hpos; [reflexivity|].
  assert (default 0 (c_constraint_count c) = 0) as -> by lia.
  assert (Hle := weighted_score_le_1 _ (candidate_signals_unit self c Hw Hsim)).
  rewrite Hv in Hle. symmetry.
  rewrite Qmult_0_r, Qplus_0_r. by apply Q.min_r.
Qed.

End RankerProperties.

Lemma rank_final_scores_witness :
  let c := {| Ranker.c_signifier_id := Some "s1";
              Ranker.c_intent_similarity := Some (1 # 2)%Q;
              Ranker.c_shacl_conforms := Some true;
              Ranker.c_shacl_has_shapes := Some true;
              Ranker.c_sse_pass := Some false;
              Ranker.c_constraint_count := Some 2 |} in
  let r := Ranker.rank_one Ranker.default_ranker c in
  Ranker.passed_gates r = true
  /\ (Ranker.final_score r == 183 # 400)%Q
  /\ (Ranker.final_score r ==
      Qmin 1 (Ranker.weighted_average Ranker.default_ranker c
              + Ranker.specificity_boost Ranker.default_ranker * inject_Z 2))%Q.
Proof.
  cbv zeta.
  destruct (proj2 (proj2 (proj2 (rank_final_scores Ranker.default_ranker []))
                     {| Ranker.c_signifier_id := Some "s1";
                        Ranker.c_intent_similarity := Some (1 # 2)%Q;
                        Ranker.c_shacl_conforms := Some true;
                        Ranker.c_shacl_has_shapes := Some true;
                        Ranker.c_sse_pass := Some false;
                        Ranker.c_constraint_count := Some 2 |}) eq_refl)
    as (Hpass & Hscore & Hdomain).
  split; [exact Hpass|]. split; [rewrite Hscore; by vm_compute|].
  apply Hdomain.
  - intros key w Hl. unfold Ranker.default_ranker, Ranker.init, Ranker.default_weights in Hl.
    cbn [Ranker.weights] in Hl.
    apply lookup_insert_Some in Hl as [[_ <-]|[_ Hl]]; [by vm_compute|].
    apply lookup_insert_Some in Hl as [[_ <-]|[_ Hl]]; [by vm_compute|].
    apply lookup_insert_Some in Hl as [[_ <-]|[_ Hl]]; [by vm_compute|].
    by rewrite lookup_empty in Hl.
  - split; by vm_compute.
  - by vm_compute.
Defined.

(** C2, the claim as stated fails: it caps every score at [1], the code
    caps only when it adds a boost.  With the weights
    [{intent_similarity: 1, sse: -0.5}], both gates off, a candidate of
    similarity [1] that fails SSE and has no constraint scores
    [(1 * 1 + 0 * -0.5) / (1 - 0.5) = 2]; the capped sum of the claim
    is [1].  With the default ranker, a candidate of similarity [1.5]
    without constraints scores [1.5], and a candidate of similarity [0.5]
    with a constraint count of [-1] scores [0.5], where the claim gives
    [1] and [0.49]. *)
Lemma uncapped_score_without_constraints :
  let claimed (self : Ranker.Ranker) (c : Ranker.Candidate) :=
    Qmin 1 (Ranker.claimed_weighted_score (Ranker.signals (Ranker.rank_one self c))
            + Ranker.specificity_boost self
              * inject_Z (default 0 (Ranker.c_constraint_count c))) in
  let self :=
    Ranker.init (Some (<["intent_similarity" := 1%Q]> (<["sse" := (- (1 # 2))%Q]> ∅)))
      false false (1 # 100)%Q in
  let c := {| Ranker.c_signifier_id := Some "s1";
              Ranker.c_intent_similarity := Some 1%Q;
              Ranker.c_shacl_conforms := None;
              Ranker.c_shacl_has_shapes := None;
              Ranker.c_sse_pass := Some false;
              Ranker.c_constraint_count := Some 0 |} in
  let c' (similarity : Q) (constraint_count : Z) :=
    {| Ranker.c_signifier_id := Some "s2";
       Ranker.c_intent_similarity := Some similarity;
       Ranker.c_shacl_conforms := None;
       Ranker.c_shacl_has_shapes := None;
       Ranker.c_sse_pass := None;
       Ranker.c_constraint_count := Some constraint_count |} in
  (Ranker.gate_fails self c = false
   /\ (Ranker.final_score (Ranker.rank_one self c) == 2)%Q
   /\ (claimed self c == 1)%Q
   /\ ~ (Ranker.final_score (Ranker.rank_one self c) == claimed self c)%Q)
  /\ (Ranker.gate_fails Ranker.default_ranker (c' (3 # 2)%Q 0%Z) = false
      /\ (Ranker.final_score (Ranker.rank_one Ranker.default_ranker (c' (3 # 2)%Q 0%Z))
          == 3 # 2)%Q
      /\ (claimed Ranker.default_ranker (c' (3 # 2)%Q 0%Z) == 1)%Q)
  /\ (Ranker.gate_fails Ranker.default_ranker (c' (1 # 2)%Q (-1)%Z) = false
      /\ (Ranker.final_score (Ranker.rank_one Ranker.default_ranker (c' (1 # 2)%Q (-1)%Z))
          == 1 # 2)%Q
      /\ (claimed Ranker.default_ranker (c' (1 # 2)%Q (-1)%Z) == 49 # 100)%Q).
Proof.
  cbv zeta. repeat split; by vm_compute.
Qed.

(** C8, the claim as stated fails: two candidates [b] and [a] with the
    same signals, given in this order, are returned in this order, with
    equal scores, although ["a"] sorts before ["b"]. *)
Lemma rank_ties_keep_input_order :
  let c (id : string) :=
    {| Ranker.c_signifier_id := Some id;
       Ranker.c_intent_similarity := Some (1 # 2)%Q;
       Ranker.c_shacl_conforms := None;
       Ranker.c_shacl_has_shapes := None;
       Ranker.c_sse_pass := None;
       Ranker.c_constraint_count := None |} in
  let results := Ranker.rank Ranker.default_ranker [c "b"; c "a"] in
  map Ranker.signifier_id results = [Some "b"; Some "a"]
  /\ Forall (fun r => Ranker.final_score r == 1 # 2)%Q results
  /\ String.ltb "a" "b" = true.
Proof.
  cbv zeta. split; [by vm_compute|]. split; [|reflexivity].
  repeat constructor; by vm_compute.
Qed.

(** ** Representation Service *)

Section RepresentationProperties.
Import Model RepresentationService.
Context `{Runtime}.

Lemma parse_body_absent now rdf_data format g :
  input_graph rdf_data format = Some g ->
  mandatory_present g = false ->
  exists m, parse_body now rdf_data format = Err (ValueError m).
Proof.
  unfold input_graph, mandatory_present, parse_body. intros -> Habs.
  destruct (subjects g RDF_type (CASHMERE "Signifier")) as [|n rest]; [by eexists|].
  destruct (truthy (graph_value g n (CASHMERE "signifies"))); [|by eexists].
  destruct (truthy (graph_value g n (CASHMERE "hasIntentionDescription"))) as [i|];
    [|by eexists].
  destruct (truthy (graph_value g i (CASHMERE "hasStructuredDescription")));
    [done|by eexists].
Qed.

Lemma parse_body_ok_present now rdf_data format s :
  parse_body now rdf_data format = Ok s ->
  exists g, input_graph rdf_data format = Some g /\ mandatory_present g = true.
Proof.
  unfold input_graph, mandatory_present, parse_body.
  destruct (rdf_parse _ format) as [g|]; [|done]. intros Hok. exists g. split; [done|].
  destruct (subjects g RDF_type (CASHMERE "Signifier")) as [|n rest]; [done|].
  destruct (truthy (graph_value g n (CASHMERE "signifies"))); [|done].
  destruct (truthy (graph_value g n (CASHMERE "hasIntentionDescription"))) as [i|];
    [|done].
  by destruct (truthy (graph_value g i (CASHMERE "hasStructuredDescription"))).
Qed.

(** C7 (as amended).  [parse_rdf_signifier] fails with
    [ValueError("Invalid RDF signifier: ...")] whenever the input graph
    lacks the [cashmere:Signifier] typing, [cashmere:signifies],
    [cashmere:hasIntentionDescription] or the
    [cashmere:hasStructuredDescription] literal of the description, and it
    succeeds only when these four are present; [create_from_rdf] then
    fails with the same error and leaves the store as it was.  The absence
    of [cashmere:recommendsContext] is no failure: when the four are
    present, the literal decodes to an object with a non-empty ["intent"]
    string and the identifier is non-empty, a graph without
    [cashmere:recommendsContext] parses to a signifier with an empty
    context. *)
Theorem parse_mandatory_predicates (now : Z) (rdf_data format : string) :
  (forall g, input_graph rdf_data format = Some g ->
     mandatory_present g = false ->
     exists m, parse_rdf_signifier now rdf_data format
               = Err (ValueError ("Invalid RDF signifier: " ++ m)))
  /\ (forall s, parse_rdf_signifier now rdf_data format = Ok s ->
        exists g, input_graph rdf_data format = Some g /\ mandatory_present g = true)
  /\ (forall store e, parse_rdf_signifier now rdf_data format = Err e ->
        SignifierRegistry.create_from_rdf store now rdf_data format = (Err e, store))
  /\ (forall g n rest a i lit d t,
        input_graph rdf_data format = Some g ->
        subjects g RDF_type (CASHMERE "Signifier") = n :: rest ->
        truthy (graph_value g n (CASHMERE "signifies")) = Some a ->
        truthy (graph_value g n (CASHMERE "hasIntentionDescription")) = Some i ->
        truthy (graph_value g i (CASHMERE "hasStructuredDescription")) = Some lit ->
        json_loads (node_str lit) = Some (JObj d) ->
        obj_get "intent" d = Some (JStr t) ->
        nonempty t = true ->
        nonempty (last_segment (node_str n) "") = true ->
        truthy (graph_value g n (CASHMERE "recommendsContext")) = None ->
        parse_rdf_signifier now rdf_data format =
        Ok {| signifier_id := last_segment (node_str n) "";
              version := 1;
              status := ACTIVE;
              intent := {| nl_text := t; structured := Some d |};
              context := {| structured_conditions := []; shacl_shapes := None;
                            nl_description := None |};
              affordance_uri := node_str a;
              provenance := {| created_at := now; created_by := "system";
                               source := "rdf_import" |} |}).
Proof.
  split; [|split; [|split]].
  - intros g Hg Habs.
    destruct (parse_body_absent now rdf_data format g Hg Habs) as [m Hm].
    exists m. unfold parse_rdf_signifier. by rewrite Hm.
  - intros s Hok. apply (parse_body_ok_present now rdf_data format s).
    unfold parse_rdf_signifier in Hok.
    destruct (parse_body now rdf_data format) as [s'|[]]; congruence.
  - intros store e He. unfold SignifierRegistry.create_from_rdf. by rewrite He.
  - intros g n rest a i lit d t Hg Hn Ha Hi Hlit Hjson Hint Ht Hid Hctx.
    unfold parse_rdf_signifier, parse_body. unfold input_graph in Hg.
    rewrite Hg, Hn, Ha, Hi, Hlit, Hjson. cbn [as_dict bind].
    rewrite Hint. cbn [default from_option id]. rewrite Ht. cbn [bind]. rewrite Hctx.
    cbn [bind]. by rewrite Hid.
Qed.

End RepresentationProperties.

Lemma parse_mandatory_predicates_witness :
  (exists m,
     RepresentationService.parse_rdf_signifier (H := Examples.example_runtime)
       0 Examples.doc_untyped "turtle"
     = Err (ValueError ("Invalid RDF signifier: " ++ m)))
  /\ Py.is_ok (RepresentationService.parse_rdf_signifier (H := Examples.example_runtime)
                 0 Examples.doc_without_context "turtle") = true.
Proof.
  split.
  - refine (proj1 (parse_mandatory_predicates (H := Examples.example_runtime)
                     0 Examples.doc_untyped "turtle") Examples.graph_untyped _ _);
      by vm_compute.
  - erewrite (proj2 (proj2 (proj2
               (parse_mandatory_predicates (H := Examples.example_runtime)
                  0 Examples.doc_without_context "turtle")))
               Examples.graph_without_context);
      [reflexivity|by vm_compute..].
Defined.

(** C7, the claim as stated fails: a Turtle document with the typing,
    [cashmere:signifies] and the intention description but without
    [cashmere:recommendsContext] parses to a signifier. *)
Lemma parse_succeeds_without_context :
  RepresentationService.input_graph (H := Examples.example_runtime)
    Examples.doc_without_context "turtle" = Some Examples.graph_without_context
  /\ RepresentationService.objects Examples.graph_without_context
       (URIRef "http://example.org/signifiers#s1")
       (RepresentationService.CASHMERE "recommendsContext") = []
  /\ RepresentationService.parse_rdf_signifier (H := Examples.example_runtime)
       0 Examples.doc_without_context "turtle"
     = Ok {| Model.signifier_id := "s1";
             Model.version := 1;
             Model.status := Model.ACTIVE;
             Model.intent :=
               {| Model.nl_text := "raise blinds";
                  Model.structured := Some [("intent", JStr "raise blinds")] |};
             Model.context :=
               {| Model.structured_conditions := []; Model.shacl_shapes := None;
                  Model.nl_description := None |};
             Model.affordance_uri := "http://example.org/affordances/a1";
             Model.provenance :=
               {| Model.created_at := 0; Model.created_by := "system";
                  Model.source := "rdf_import" |} |}.
Proof. split; [|split]; by vm_compute. Qed.

(** ** Signifier registry *)

(** C1, the code at the failing input: [s1] is created with a condition
    on the pair [(sensor, luminosity)] and then updated to a version
    without conditions.  The registry returns the updated document, which
    has no property key, and the index still lists [s1] under the pair, so
    the index is not exact. *)
Lemma update_keeps_stale_index_entry :
  let s1 := Examples.make_signifier "s1" "raise blinds" Model.ACTIVE
              [Examples.luminosity_condition] in
  let s1' := Examples.make_signifier "s1" "raise blinds" Model.ACTIVE [] in
  let store :=
    SignifierRegistry.run (H := Examples.example_runtime)
      [SignifierRegistry.Create s1 None; SignifierRegistry.Update s1' false]
      MemoryStore.empty in
  SignifierRegistry.get store "s1" = Some s1'
  /\ Model.get_property_keys s1' = []
  /\ MemoryStore.find_by_property store
       "http://example.org/artifacts/sensor"
       "http://example.org/LightSensor#luminosity" = ["s1"]
  /\ ~ SignifierRegistry.index_exact store.
Proof.
  cbv zeta. split; [by vm_compute|]. split; [reflexivity|]. split; [by vm_compute|].
  intros Hex.
  specialize (Hex ("http://example.org/artifacts/sensor",
                   "http://example.org/LightSensor#luminosity") "s1").
  destruct Hex as [Hex _].
  destruct Hex as (doc & Hdoc & Hkey).
  - by vm_compute.
  - vm_compute in Hdoc. injection Hdoc as <-. cbn in Hkey. by apply elem_of_nil in Hkey.
Qed.


(** Two further ways in which a document stays without a graph.  An
    identifier with a space is not a valid URI reference: [create] files
    the document and then raises in the serializer.  And [delete] of [s1]
    removes the graph of a signifier named [s1_vx], whose document
    stays. *)
Lemma documents_left_without_graph :
  let bad := Examples.make_signifier "raise blinds" "raise blinds" Model.ACTIVE [] in
  let '(r, store) :=
    SignifierRegistry.create (H := Examples.example_runtime) MemoryStore.empty bad None in
  is_ok r = false
  /\ MemoryStore.get_json_document store "raise blinds" = Some bad
  /\ MemoryStore.get_rdf_graph store "raise blinds" 1 = None
  /\ (let store' := (SignifierRegistry.delete MoreExamples.store_with_s1_vx "s1").2 in
      MemoryStore.get_json_document store' "s1_vx"
      = Some (Examples.make_signifier "s1_vx" "lower blinds" Model.ACTIVE [])
      /\ MemoryStore.get_rdf_graph MoreExamples.store_with_s1_vx "s1_vx" 1 <> None
      /\ MemoryStore.get_rdf_graph store' "s1_vx" 1 = None).
Proof. cbv zeta. repeat split; by vm_compute. Qed.

Section RegistryProperties.
Import Model MemoryStore SignifierRegistry RepresentationService.
Context `{Runtime}.

(** *** Generated RDF is never empty *)

Lemma graph_add_nonempty g t : graph_add g t <> [].
Proof.
  unfold graph_add. destruct (decide (t ∈ g)) as [Hin|_].
  - intros ->. by apply elem_of_nil in Hin.
  - by destruct g.
Qed.

Lemma foldl_nonempty {B} (f : Graph -> B -> Graph) l g :
  (forall g x, f g x <> []) -> g <> [] -> foldl f g l <> [].
Proof.
  intros Hf. revert g. induction l as [|x l IH]; intros g Hg; cbn; [done|].
  apply IH, Hf.
Qed.

Lemma serialize_ok g t :
  serialize g = Ok t -> t = Serialized g /\ serializable g = true.
Proof. unfold serialize. destruct (serializable g); [|done]. by intros [= <-]. Qed.

Lemma serialize_serializable g : serializable g = true -> serialize g = Ok (Serialized g).
Proof. unfold serialize. by intros ->. Qed.

Lemma generate_rdf_graph signifier t :
  generate_rdf signifier = Ok t ->
  exists g, t = Serialized g /\ g <> [] /\ serializable g = true.
Proof.
  unfold generate_rdf.
  match goal with
  | |- context [match nl_description _ with Some _ => _ | None => ?g0 end] =>
      set (base := g0)
  end.
  assert (Hbase : base <> []).
  { subst base. apply foldl_nonempty; [apply graph_add_nonempty|].
    cbn [foldl]. apply graph_add_nonempty. }
  match goal with
  | |- context [match shacl_shapes _ with Some _ => _ | None => serialize ?g1 end] =>
      set (graph := g1)
  end.
  assert (Hgraph : graph <> []).
  { subst graph. destruct (nl_description (context signifier)) as [d|]; [|done].
    destruct (nonempty d); [apply graph_add_nonempty|done]. }
  clearbody graph. clear base Hbase.
  destruct (shacl_shapes (context signifier)) as [shapes|];
    [|intros [-> Hs]%serialize_ok; by eexists].
  destruct (rdf_text_truthy shapes); [|intros [-> Hs]%serialize_ok; by eexists].
  destruct (parse_rdf_text shapes "turtle") as [sg|]; [|done].
  intros [-> Hs]%serialize_ok. eexists. split; [reflexivity|]. split; [|done].
  apply foldl_nonempty; [|done].
  intros g t. destruct (decide _); apply graph_add_nonempty.
Qed.

(** *** When the RDF can be generated *)

Lemma valid_uri_app (a b : string) : valid_uri (a ++ b) = valid_uri a && valid_uri b.
Proof.
  induction a as [|c a IH]; [done|].
  change (String c a ++ b)%string with (String c (a ++ b)).
  cbn [valid_uri]. by rewrite IH, andb_assoc.
Qed.

Lemma serializable_snoc (g : Graph) (t : triple) :
  serializable (g ++ [t])%list = serializable g && triple_serializable t.
Proof. unfold serializable. rewrite forallb_app. cbn. by rewrite andb_true_r. Qed.

Lemma serializable_graph_add g t :
  serializable g = true -> triple_serializable t = true ->
  serializable (graph_add g t) = true.
Proof.
  intros Hg Ht. unfold graph_add. destruct (decide (t ∈ g)); [done|].
  by rewrite serializable_snoc, Hg, Ht.
Qed.

Lemma serializable_elem g t :
  serializable g = true -> t ∈ g -> triple_serializable t = true.
Proof.
  unfold serializable. rewrite forallb_forall. intros Hg Ht.
  by apply Hg, list_elem_of_In.
Qed.

Lemma elem_of_graph_add g t t' : t' ∈ graph_add g t <-> t' ∈ g \/ t' = t.
Proof.
  unfold graph_add. destruct (decide (t ∈ g)) as [Hin|_].
  - split; [by left|]. by intros [?| ->].
  - rewrite elem_of_app, list_elem_of_singleton. done.
Qed.

Lemma signifier_node_serializable rest :
  valid_uri rest = true ->
  node_serializable (URIRef ("http://example.org/signifiers" ++ "#" ++ rest)) = true.
Proof.
  intros Hr. cbn [node_serializable].
  rewrite !valid_uri_app, Hr. reflexivity.
Qed.

Lemma generate_rdf_ok signifier :
  generable signifier ->
  exists g, generate_rdf signifier = Ok (Serialized g) /\ g <> [] /\ serializable g = true.
Proof.
  intros (Hid & Haff & Hshapes).
  assert (Hsome : exists t, generate_rdf signifier = Ok t).
  { unfold generate_rdf.
    assert (Hs := signifier_node_serializable (signifier_id signifier) Hid).
    assert (Hi : node_serializable
                   (URIRef ("http://example.org/signifiers" ++ "#"
                            ++ signifier_id signifier ++ "-intent")) = true)
      by (apply signifier_node_serializable; by rewrite valid_uri_app, Hid).
    assert (Hc : node_serializable
                   (URIRef ("http://example.org/signifiers" ++ "#"
                            ++ signifier_id signifier ++ "-context")) = true)
      by (apply signifier_node_serializable; by rewrite valid_uri_app, Hid).
    match goal with
    | |- context [match shacl_shapes _ with Some _ => _ | None => serialize ?g1 end] =>
        set (graph := g1)
    end.
    assert (Hgraph : serializable graph = true).
    { subst graph.
      assert (Hbase : forall g0 ts, serializable g0 = true ->
                Forall (fun t => triple_serializable t = true) ts ->
                serializable (foldl graph_add g0 ts) = true).
      { intros g0 ts. revert g0. induction ts as [|t ts IH]; intros g0 Hg0 Hts; [done|].
        inversion Hts; subst. cbn. apply IH; [by apply serializable_graph_add|done]. }
      match goal with
      | |- serializable match _ with Some _ => _ | None => ?g0 end = true =>
          assert (Hg0 : serializable g0 = true)
      end.
      { apply Hbase; [apply Hbase; [done|]|].
        - repeat constructor; unfold triple_serializable; cbn [fst snd];
            rewrite ?Hs, ?Hi; cbn [node_serializable]; by rewrite ?Haff.
        - repeat constructor; unfold triple_serializable; cbn [fst snd];
            by rewrite ?Hs, ?Hc. }
      destruct (nl_description (context signifier)) as [d|]; [|done].
      destruct (nonempty d); [|done].
      apply serializable_graph_add; [done|].
      unfold triple_serializable. cbn [fst snd]. by rewrite Hc. }
    clearbody graph.
    destruct (shacl_shapes (context signifier)) as [shapes|];
      [|rewrite serialize_serializable by done; by eexists].
    destruct (rdf_text_truthy shapes);
      [|rewrite serialize_serializable by done; by eexists].
    destruct (Hshapes eq_refl) as (sg & -> & Hsg).
    rewrite serialize_serializable; [by eexists|].
    assert (Hfold : forall ts g0, serializable g0 = true ->
              (forall t, t ∈ ts -> triple_serializable t = true) ->
              serializable
                (foldl (fun graph (t : triple) =>
                          let graph := graph_add graph t in
                          if decide ((t.1.1, RDF_type, SH "NodeShape") ∈ sg)
                          then graph_add graph
                                 (URIRef ("http://example.org/signifiers" ++ "#"
                                          ++ signifier_id signifier ++ "-context"),
                                  CASHMERE "hasShaclCondition", t.1.1)
                          else graph) g0 ts) = true).
    { induction ts as [|t ts IH]; intros g0 Hg0 Hts; [done|].
      cbn [foldl]. apply IH; [|intros t' Ht'; apply Hts; by right].
      assert (Ht : triple_serializable t = true) by (apply Hts; by left).
      cbv zeta. destruct (decide _); [|by apply serializable_graph_add].
      apply serializable_graph_add; [by apply serializable_graph_add|].
      unfold triple_serializable in *. cbn [fst snd]. rewrite Hc. cbn.
      by repeat (apply andb_prop in Ht as [Ht ?]). }
    apply Hfold; [done|]. intros t Ht. by eapply serializable_elem. }
  destruct Hsome as [t Ht].
  destruct (generate_rdf_graph _ _ Ht) as (g & -> & Hg & Hs). by exists g.
Qed.

(** *** Parsed signifiers satisfy the checks of the model class *)

Lemma bind_ok {A B} (r : result A) (k : A -> result B) b :
  bind r k = Ok b -> exists a, r = Ok a /\ k a = Ok b.
Proof. destruct r as [a|e]; cbn; [by exists a|done]. Qed.

Lemma mapM_ok {A B} (f : A -> result B) (P : B -> Prop) l bs :
  (forall a b, f a = Ok b -> P b) -> mapM f l = Ok bs -> Forall P bs.
Proof.
  intros Hf. revert bs. induction l as [|a l IH]; intros bs; cbn.
  - intros [= <-]. constructor.
  - intros (b & Hb & (bs' & Hbs & [= <-])%bind_ok)%bind_ok.
    constructor; [by eapply Hf|by apply IH].
Qed.

Lemma parse_value_condition_valid vc c :
  parse_value_condition vc = Ok c -> valid_value_condition c = true.
Proof.
  unfold parse_value_condition. intros (d & _ & Hk)%bind_ok.
  destruct (default (JStr "equals") (obj_get "operator" d)) as [| | | |op| |];
    try done.
  destruct (validate_operator op) eqn:Hop; [|done].
  apply bind_ok in Hk as (dt & _ & (v & _ & [= <-])%bind_ok).
  exact Hop.
Qed.

Lemma parse_structured_condition_valid cd c :
  _parse_structured_condition cd = Ok c -> valid_structured_condition c = true.
Proof.
  unfold _parse_structured_condition.
  intros (d & _ & (vcs & _ & (cs & Hcs & Hk)%bind_ok)%bind_ok)%bind_ok.
  destruct (nonempty _ && nonempty _) eqn:Hne; [|done].
  injection Hk as <-. unfold valid_structured_condition. cbn.
  rewrite Hne. cbn. apply forallb_forall.
  apply (mapM_ok _ (fun c => valid_value_condition c = true)) in Hcs;
    [|apply parse_value_condition_valid].
  intros x Hx. rewrite Forall_forall in Hcs. by apply Hcs, list_elem_of_In.
Qed.

Lemma parse_context_valid graph context_node ctx :
  parse_context graph context_node = Ok ctx ->
  forallb valid_structured_condition (structured_conditions ctx) = true
  /\ match shacl_shapes ctx with
     | Some (Text _) => False
     | Some (Serialized sg) => serializable sg = true
     | None => True
     end.
Proof.
  unfold parse_context. intros ([conds nl] & Hc & (shapes & Hsh & Hk)%bind_ok)%bind_ok.
  injection Hk as <-. cbn. split.
  - destruct (truthy _) as [context_nl|]; [|by injection Hc as <- <-].
    destruct (json_loads _) as [cdict|]; [|by injection Hc as <- <-].
    apply bind_ok in Hc as (d & _ & (cl & _ & (cs & Hcs & [= <- <-])%bind_ok)%bind_ok).
    apply forallb_forall.
    apply (mapM_ok _ (fun c => valid_structured_condition c = true)) in Hcs;
      [|apply parse_structured_condition_valid].
    intros x Hx. rewrite Forall_forall in Hcs. by apply Hcs, list_elem_of_In.
  - destruct (objects graph context_node _); [by injection Hsh as <-|].
    apply bind_ok in Hsh as (t & Ht & [= <-]).
    unfold _extract_shacl_shapes in Ht. by apply serialize_ok in Ht as [-> Hs].
Qed.

Lemma truthy_nonempty o n : truthy o = Some n -> nonempty (node_str n) = true.
Proof.
  unfold truthy. destruct o as [m|]; [|done].
  destruct (node_truthy m) eqn:Hm; [|done]. by intros [= <-].
Qed.

Lemma parse_rdf_signifier_valid now rdf_data format s :
  parse_rdf_signifier now rdf_data format = Ok s ->
  valid_signifier s = true /\ shapes_ok s.
Proof.
  unfold parse_rdf_signifier.
  destruct (parse_body now rdf_data format) as [s'|e] eqn:Hb; [|by destruct e].
  intros [= <-]. unfold parse_body in Hb.
  destruct (rdf_parse _ format) as [g|]; [|done].
  destruct (subjects g RDF_type (CASHMERE "Signifier")) as [|n rest]; [done|].
  destruct (truthy (graph_value g n (CASHMERE "signifies"))) as [a|] eqn:Ha; [|done].
  destruct (truthy (graph_value g n (CASHMERE "hasIntentionDescription"))) as [i|];
    [|done].
  destruct (truthy (graph_value g i (CASHMERE "hasStructuredDescription"))) as [lit|];
    [|done].
  destruct (json_loads (node_str lit)) as [jd|]; [|done].
  apply bind_ok in Hb as (d & _ & (it & Hit & (ctx & Hctx & Hk)%bind_ok)%bind_ok).
  destruct (nonempty (last_segment (node_str n) "")) eqn:Hid; [|done].
  injection Hk as <-.
  assert (Hnl : nonempty (nl_text it) = true).
  { destruct (default (JStr "") (obj_get "intent" d)) as [| | | |t| |]; try done.
    destruct (nonempty t) eqn:Ht; [|done]. by injection Hit as <-. }
  assert (Hc : forallb valid_structured_condition (structured_conditions ctx) = true
               /\ match shacl_shapes ctx with
                  | Some (Text _) => False
                  | Some (Serialized sg) => serializable sg = true
                  | None => True
                  end).
  { destruct (truthy (graph_value g n (CASHMERE "recommendsContext"))) as [cn|].
    - by eapply parse_context_valid.
    - by injection Hctx as <-. }
  destruct Hc as [Hconds Hshapes]. split.
  - unfold valid_signifier. cbn. rewrite Hid, Hnl, Hconds. cbn.
    by rewrite (truthy_nonempty _ _ Ha).
  - unfold shapes_ok. cbn. by destruct (shacl_shapes ctx) as [[|sg]|].
Qed.

(** *** What an operation writes *)

(** Exposes the three maps of the store that an operation leaves. *)
Ltac unfold_store :=
  unfold normalize_signifier, store_rdf_graph, update_property_index,
    store_json_document;
  cbn [json_docs rdf_files property_index].

Create HintDb registry.

Lemma valid_with_status s st :
  valid_signifier (with_status s st) = valid_signifier s.
Proof. reflexivity. Qed.

Lemma valid_with_version s v :
  valid_signifier s = true -> 1 <= v -> valid_signifier (with_version s v) = true.
Proof.
  unfold valid_signifier. cbn. intros Hs Hv.
  repeat (apply andb_prop in Hs as [Hs ?]).
  repeat (apply andb_true_intro; split); try done. lia.
Qed.

Lemma store_rdf_graph_keeps self id v t f :
  json_docs (store_rdf_graph self id v t f).2 = json_docs self
  /\ property_index (store_rdf_graph self id v t f).2 = property_index self
  /\ forall k, k <> (id, v) ->
       rdf_files (store_rdf_graph self id v t f).2 !! k = rdf_files self !! k.
Proof.
  unfold store_rdf_graph. destruct (parse_rdf_text t f) as [g|]; cbn; [|done].
  destruct (serialize g); cbn; [|done].
  repeat split. intros k Hk. by rewrite lookup_insert_ne.
Qed.

Lemma create_writes self s rdf_data :
  get_json_document self (signifier_id s) = None ->
  json_docs (create self s rdf_data).2 = <[signifier_id s := s]> (json_docs self)
  /\ property_index (create self s rdf_data).2
     = foldl (index_add (signifier_id s)) (property_index self) (get_property_keys s)
  /\ forall k, k <> (signifier_id s, version s) ->
       rdf_files (create self s rdf_data).2 !! k = rdf_files self !! k.
Proof.
  intros Hnew. unfold create. rewrite Hnew. unfold normalize_signifier.
  set (self1 := update_property_index (store_json_document self s) s).
  assert (H1 : json_docs self1 = <[signifier_id s := s]> (json_docs self)
               /\ property_index self1
                  = foldl (index_add (signifier_id s)) (property_index self)
                          (get_property_keys s)
               /\ rdf_files self1 = rdf_files self) by done.
  destruct H1 as (Hd & Hi & Hr). clearbody self1.
  assert (Hstore : forall t,
    json_docs (store_rdf_graph self1 (signifier_id s) (version s) t "turtle").2
      = <[signifier_id s := s]> (json_docs self)
    /\ property_index (store_rdf_graph self1 (signifier_id s) (version s) t "turtle").2
       = foldl (index_add (signifier_id s)) (property_index self) (get_property_keys s)
    /\ forall k, k <> (signifier_id s, version s) ->
         rdf_files (store_rdf_graph self1 (signifier_id s) (version s) t "turtle").2 !! k
         = rdf_files self !! k).
  { intros t.
    destruct (store_rdf_graph_keeps self1 (signifier_id s) (version s) t "turtle")
      as (-> & -> & Hk).
    repeat split; try done. intros k Hne. by rewrite Hk, Hr. }
  destruct (match rdf_data with
            | Some t => if rdf_text_truthy t then Some t else None
            | None => None
            end) as [t|].
  - specialize (Hstore t). by destruct (store_rdf_graph self1 _ _ t "turtle").
  - destruct (generate_rdf s) as [t|e]; cbn.
    + specialize (Hstore t). by destruct (store_rdf_graph self1 _ _ t "turtle").
    + rewrite Hd, Hi, Hr. done.
Qed.

Lemma update_writes self s (create_new_version : bool) existing :
  get_json_document self (signifier_id s) = Some existing ->
  let s' := if create_new_version then with_version s (version existing + 1) else s in
  json_docs (update self s create_new_version).2
    = <[signifier_id s := s']> (json_docs self)
  /\ property_index (update self s create_new_version).2
     = foldl (index_add (signifier_id s)) (property_index self) (get_property_keys s)
  /\ forall k, k <> (signifier_id s, version s') ->
       rdf_files (update self s create_new_version).2 !! k = rdf_files self !! k.
Proof.
  intros Hex s'. unfold update. rewrite Hex. fold s'. unfold normalize_signifier.
  assert (Hid : signifier_id s' = signifier_id s)
    by (subst s'; by destruct create_new_version).
  assert (Hkeys : get_property_keys s' = get_property_keys s)
    by (subst s'; by destruct create_new_version).
  set (self1 := update_property_index (store_json_document self s') s').
  assert (H1 : json_docs self1 = <[signifier_id s := s']> (json_docs self)
               /\ property_index self1
                  = foldl (index_add (signifier_id s)) (property_index self)
                          (get_property_keys s)
               /\ rdf_files self1 = rdf_files self).
  { subst self1. unfold update_property_index, store_json_document. cbn.
    by rewrite Hid, Hkeys. }
  destruct H1 as (Hd & Hi & Hr). clearbody self1.
  destruct (generate_rdf s') as [t|e]; cbn.
  - destruct (store_rdf_graph_keeps self1 (signifier_id s') (version s') t "turtle")
      as (Hd' & Hi' & Hk).
    destruct (store_rdf_graph self1 _ _ t "turtle") as [r self2]. cbn in *.
    rewrite Hd', Hi'. repeat split; try done.
    intros k Hne. rewrite Hk, Hr; [done|]. by rewrite Hid.
  - by rewrite Hd, Hi, Hr.
Qed.

Lemma store_rdf_graph_stored self id v t g :
  parse_rdf_text t "turtle" = Some g -> serializable g = true ->
  rdf_files (store_rdf_graph self id v t "turtle").2 !! (id, v) = Some g.
Proof.
  intros Hp Hs. unfold store_rdf_graph. rewrite Hp, (serialize_serializable g Hs).
  cbn. by rewrite lookup_insert_eq.
Qed.

Lemma store_rdf_graph_failed self id v t :
  (forall g, parse_rdf_text t "turtle" = Some g -> serializable g = false) ->
  store_rdf_graph self id v t "turtle" = (Err (ValueError "Invalid RDF data"), self).
Proof.
  intros Hno. unfold store_rdf_graph.
  destruct (parse_rdf_text t "turtle") as [g|]; [|done].
  unfold serialize. by rewrite (Hno g eq_refl).
Qed.

(** The graph that [create] stores. *)
Lemma create_stores self s rdf_data :
  get_json_document self (signifier_id s) = None ->
  match rdf_data with
  | Some t => if rdf_text_truthy t then storable t else generable s
  | None => generable s
  end ->
  exists g, rdf_files (create self s rdf_data).2 !! (signifier_id s, version s) = Some g
            /\ g <> [].
Proof.
  intros Hnew Hrdf. unfold create. rewrite Hnew. unfold normalize_signifier.
  set (self1 := update_property_index (store_json_document self s) s).
  assert (Hgen : generable s ->
    exists g,
      rdf_files (match generate_rdf s with
                 | Ok rdf_generated =>
                     let '(r, self) :=
                       store_rdf_graph self1 (signifier_id s) (version s)
                                       rdf_generated "turtle" in
                     (bind r (fun _ => Ok s), self)
                 | Err e => (Err e, self1)
                 end).2 !! (signifier_id s, version s) = Some g /\ g <> []).
  { intros Hg. destruct (generate_rdf_ok s Hg) as (g & -> & Hne & Hs).
    exists g. split; [|done].
    pose proof (store_rdf_graph_stored self1 (signifier_id s) (version s)
                  (Serialized g) g eq_refl Hs) as Hst.
    by destruct (store_rdf_graph self1 _ _ (Serialized g) "turtle"). }
  destruct rdf_data as [t|]; [destruct (rdf_text_truthy t)|]; [|by apply Hgen..].
  destruct Hrdf as (g & Hp & Hne & Hs). exists g. split; [|done].
  pose proof (store_rdf_graph_stored self1 (signifier_id s) (version s) t g Hp Hs) as Hst.
  by destruct (store_rdf_graph self1 _ _ t "turtle").
Qed.

(** The graph that [update] stores, and the graphs it keeps when the
    RDF cannot be generated. *)
Lemma update_stores self s (create_new_version : bool) existing :
  get_json_document self (signifier_id s) = Some existing ->
  let s' := if create_new_version then with_version s (version existing + 1) else s in
  (forall g, generate_rdf s' = Ok (Serialized g) ->
     (update self s create_new_version).1 = Ok s'
     /\ rdf_files (update self s create_new_version).2 !! (signifier_id s, version s')
        = Some g)
  /\ (forall e, generate_rdf s' = Err e ->
        (update self s create_new_version).1 = Err e
        /\ rdf_files (update self s create_new_version).2 = rdf_files self).
Proof.
  intros Hex s'. unfold update. rewrite Hex. fold s'. unfold normalize_signifier.
  assert (Hid : signifier_id s' = signifier_id s)
    by (subst s'; by destruct create_new_version).
  split.
  - intros g Hgen. rewrite Hgen.
    destruct (generate_rdf_graph _ _ Hgen) as (g' & [= <-] & _ & Hs).
    unfold store_rdf_graph. cbn [parse_rdf_text].
    rewrite (serialize_serializable g Hs). cbn. by rewrite Hid, lookup_insert_eq.
  - intros e Hgen. by rewrite Hgen.
Qed.

(** *** The documents *)

Lemma docs_inv_empty : docs_inv MemoryStore.empty.
Proof. intros id doc Hl. cbn in Hl. by rewrite lookup_empty in Hl. Qed.

Lemma docs_inv_insert self self' s :
  docs_inv self -> valid_signifier s = true ->
  json_docs self' = <[signifier_id s := s]> (json_docs self) ->
  docs_inv self'.
Proof.
  intros Hinv Hs Hd id doc. rewrite Hd.
  destruct (decide (signifier_id s = id)) as [<-|Hne].
  - rewrite lookup_insert_eq. by intros [= <-].
  - rewrite lookup_insert_ne by done. apply Hinv.
Qed.

Lemma docs_inv_create self s rdf_data :
  docs_inv self -> valid_signifier s = true -> docs_inv (create self s rdf_data).2.
Proof.
  intros Hinv Hs.
  destruct (get_json_document self (signifier_id s)) as [d|] eqn:Hex.
  - unfold create. by rewrite Hex.
  - destruct (create_writes self s rdf_data Hex) as (Hd & _ & _).
    by eapply docs_inv_insert.
Qed.

Lemma docs_inv_update self s create_new_version :
  docs_inv self -> valid_signifier s = true ->
  docs_inv (update self s create_new_version).2.
Proof.
  intros Hinv Hs.
  destruct (get_json_document self (signifier_id s)) as [existing|] eqn:Hex.
  - destruct (update_writes self s create_new_version existing Hex) as (Hd & _ & _).
    intros id doc. rewrite Hd.
    destruct (decide (signifier_id s = id)) as [<-|Hne].
    + rewrite lookup_insert_eq. intros [= <-].
      destruct create_new_version; [|done]. split; [done|].
      apply valid_with_version; [done|].
      destruct (Hinv _ _ Hex) as [_ Hv]. unfold valid_signifier in Hv.
      repeat (apply andb_prop in Hv as [Hv ?]). lia.
    + rewrite lookup_insert_ne by done. apply Hinv.
  - unfold update. by rewrite Hex.
Qed.

Lemma docs_inv_update_status self id st :
  docs_inv self -> docs_inv (update_status self id st).2.
Proof.
  intros Hinv. unfold update_status, get.
  destruct (get_json_document self id) as [doc|] eqn:Hdoc; [|done].
  destruct (valid_signifier doc) eqn:Hv; [|done].
  pose proof (docs_inv_update self (with_status doc st) false Hinv) as Hu.
  destruct (update self (with_status doc st) false) as [r self'].
  cbn in *. apply Hu. by rewrite valid_with_status.
Qed.

Lemma docs_inv_delete self id : docs_inv self -> docs_inv (delete self id).2.
Proof.
  intros Hinv id' doc. cbn. intros [_ Hl]%lookup_delete_Some. by apply Hinv.
Qed.

Lemma docs_inv_create_from_rdf self now rdf_data format :
  docs_inv self -> docs_inv (create_from_rdf self now rdf_data format).2.
Proof.
  intros Hinv. unfold create_from_rdf.
  destruct (parse_rdf_signifier now rdf_data format) as [s|e] eqn:Hp; [|done].
  destruct (parse_rdf_signifier_valid _ _ _ _ Hp) as [Hs _].
  by apply docs_inv_create.
Qed.

Lemma docs_inv_run calls self :
  docs_inv self -> Forall call_ok calls -> docs_inv (run calls self).
Proof.
  intros Hinv Hall. revert self Hinv.
  induction Hall as [|c calls Hc _ IH]; intros self Hinv; [done|].
  cbn. apply IH. destruct c; cbn [step].
  - destruct Hc as [Hs _]. by apply docs_inv_create.
  - by apply docs_inv_create_from_rdf.
  - destruct Hc as [Hs _]. by apply docs_inv_update.
  - by apply docs_inv_delete.
  - by apply docs_inv_update_status.
Qed.

(** *** The files that [delete] finds *)

Lemma prefix_app (a b : string) : String.prefix a (a ++ b) = true.
Proof.
  induction a as [|c a IH]; [by destruct b|].
  change (String c a ++ b)%string with (String c (a ++ b)). cbn.
  by destruct (Ascii.ascii_dec c c).
Qed.

Lemma string_app_assoc (a b c : string) : ((a ++ b) ++ c = a ++ b ++ c)%string.
Proof.
  induction a as [|x a IH]; [done|].
  change (String x a ++ b)%string with (String x (a ++ b)).
  change (String x (a ++ b) ++ c)%string with (String x ((a ++ b) ++ c)).
  change (String x a ++ b ++ c)%string with (String x (a ++ b ++ c)).
  by rewrite IH.
Qed.

(** The files of the identifier itself are found. *)
Lemma glob_hit_own id v : glob_hit id (id, v) = true.
Proof.
  unfold glob_hit, rdf_stem. cbn [fst snd].
  rewrite <- string_app_assoc. apply prefix_app.
Qed.

Lemma has_version_mark_tail c s :
  has_version_mark (String c s) = false -> has_version_mark s = false.
Proof. cbn. by intros [_ ?]%orb_false_elim. Qed.

(** Of identifiers without [_v], only the identifier itself is found. *)
Lemma glob_hit_marked id id' d :
  has_version_mark id = false -> has_version_mark id' = false ->
  String.prefix (id ++ "_v") (id' ++ "_v" ++ d) = true -> id' = id.
Proof.
  revert id'. induction id as [|c id IH]; intros id' Hm Hm'.
  - destruct id' as [|c' id']; [done|].
    change (String c' id' ++ "_v" ++ d)%string with (String c' (id' ++ "_v" ++ d)).
    change ("" ++ "_v")%string with "_v".
    cbn [String.prefix].
    destruct (Ascii.ascii_dec "_" c') as [<-|]; [|done].
    destruct id' as [|c2 id2].
    + change ("" ++ "_v" ++ d)%string with (String "_" (String "v" d)). by cbn.
    + change (String c2 id2 ++ "_v" ++ d)%string with (String c2 (id2 ++ "_v" ++ d)).
      cbn [String.prefix].
      destruct (Ascii.ascii_dec "v" c2) as [<-|]; [|done].
      by cbn in Hm'.
  - change (String c id ++ "_v")%string with (String c (id ++ "_v")).
    destruct id' as [|c' id'].
    + change ("" ++ "_v" ++ d)%string with (String "_" (String "v" d)).
      cbn [String.prefix].
      destruct (Ascii.ascii_dec c "_") as [->|]; [|done].
      destruct id as [|c2 id2].
      * change ("" ++ "_v")%string with "_v". by cbn.
      * change (String c2 id2 ++ "_v")%string with (String c2 (id2 ++ "_v")).
        cbn [String.prefix].
        destruct (Ascii.ascii_dec c2 "v") as [->|]; [|done].
        by cbn in Hm.
    + change (String c' id' ++ "_v" ++ d)%string with (String c' (id' ++ "_v" ++ d)).
      cbn [String.prefix].
      destruct (Ascii.ascii_dec c c') as [<-|]; [|done].
      intros Hp. f_equal. apply IH; [by eapply has_version_mark_tail..|done].
Qed.

Lemma glob_hit_other id id' v :
  has_version_mark id = false -> has_version_mark id' = false ->
  id' <> id -> glob_hit id (id', v) = false.
Proof.
  intros Hm Hm' Hne. apply not_true_is_false. intros Hhit. apply Hne.
  by eapply glob_hit_marked.
Qed.

(** *** The store invariant *)


(** A document and its graph are written. *)
Lemma store_inv_put self self' s g :
  store_inv self -> valid_signifier s = true ->
  has_version_mark (signifier_id s) = false ->
  json_docs self' = <[signifier_id s := s]> (json_docs self) ->
  rdf_files self' !! (signifier_id s, version s) = Some g -> g <> [] ->
  (forall k, k <> (signifier_id s, version s) ->
             rdf_files self' !! k = rdf_files self !! k) ->
  store_inv self'.
Proof.
  intros Hinv Hs Hm Hd Hg Hne Hk id doc. rewrite Hd.
  destruct (decide (signifier_id s = id)) as [<-|Hneq].
  - rewrite lookup_insert_eq. intros [= <-]. repeat (split; [done|]). by exists g.
  - rewrite lookup_insert_ne by done. intros Hl.
    destruct (Hinv id doc Hl) as (Hid & Hv & Hm' & g' & Hg' & Hne').
    repeat (split; [done|]). exists g'. split; [|done].
    rewrite Hk; [done|]. congruence.
Qed.

(** A document is rewritten under its version, the graphs are kept. *)
Lemma store_inv_rewrite self self' s doc0 :
  store_inv self -> json_docs self !! signifier_id s = Some doc0 ->
  version s = version doc0 -> valid_signifier s = true ->
  json_docs self' = <[signifier_id s := s]> (json_docs self) ->
  rdf_files self' = rdf_files self ->
  store_inv self'.
Proof.
  intros Hinv H0 Hver Hs Hd Hr id doc. rewrite Hd, Hr.
  destruct (decide (signifier_id s = id)) as [<-|Hne].
  - rewrite lookup_insert_eq. intros [= <-].
    destruct (Hinv _ _ H0) as (_ & _ & Hm & g & Hg & Hne).
    repeat (split; [done|]). exists g. by rewrite Hver.
  - rewrite lookup_insert_ne by done. apply Hinv.
Qed.

Lemma store_inv_delete self id :
  store_inv self -> call_safe (Delete id) -> store_inv (delete self id).2.
Proof.
  intros Hinv [_ Hm] id' doc. cbn.
  intros [Hne Hl]%lookup_delete_Some.
  destruct (Hinv id' doc Hl) as (Hid & Hv & Hm' & g & Hg & Hne').
  repeat (split; [done|]). exists g. split; [|done].
  apply map_lookup_filter_Some. split; [done|]. cbn.
  apply glob_hit_other; [done|done|congruence].
Qed.

Lemma store_inv_create self s rdf_data :
  store_inv self -> call_safe (Create s rdf_data) ->
  store_inv (create self s rdf_data).2.
Proof.
  intros Hinv (Hs & Hm & Hrdf).
  destruct (get_json_document self (signifier_id s)) as [d|] eqn:Hex.
  - unfold create. by rewrite Hex.
  - destruct (create_writes self s rdf_data Hex) as (Hd & _ & Hk).
    destruct (create_stores self s rdf_data Hex Hrdf) as (g & Hg & Hne).
    by eapply store_inv_put.
Qed.

Lemma store_inv_update self s create_new_version :
  store_inv self -> valid_signifier s = true ->
  (generable s
   \/ (create_new_version = false
       /\ exists doc0, json_docs self !! signifier_id s = Some doc0
                       /\ version s = version doc0)) ->
  store_inv (update self s create_new_version).2.
Proof.
  intros Hinv Hs Hcase.
  destruct (get_json_document self (signifier_id s)) as [existing|] eqn:Hex;
    [|unfold update; by rewrite Hex].
  destruct (update_writes self s create_new_version existing Hex) as (Hd & _ & Hk).
  destruct (update_stores self s create_new_version existing Hex) as [Hok Herr].
  destruct (Hinv _ _ Hex) as (_ & Hv0 & Hm & _).
  set (s' := if create_new_version then with_version s (version existing + 1) else s) in *.
  assert (Hid : signifier_id s' = signifier_id s)
    by (subst s'; by destruct create_new_version).
  assert (Hs' : valid_signifier s' = true).
  { subst s'. destruct create_new_version; [|done].
    apply valid_with_version; [done|].
    unfold valid_signifier in Hv0. repeat (apply andb_prop in Hv0 as [Hv0 ?]). lia. }
  destruct (generate_rdf s') as [t|e] eqn:Hgen.
  - destruct (generate_rdf_graph _ _ Hgen) as (g & -> & Hg & _).
    destruct (Hok g eq_refl) as [_ Hst].
    apply (store_inv_put self _ s' g); rewrite ?Hid; done.
  - destruct (Herr e eq_refl) as [_ Hr].
    destruct Hcase as [Hgb|(-> & doc0 & H0 & Hver)].
    + assert (Hgb' : generable s') by (subst s'; by destruct create_new_version).
      destruct (generate_rdf_ok s' Hgb') as (g & Hg & _). congruence.
    + subst s'. by apply (store_inv_rewrite self _ s doc0).
Qed.

Lemma store_inv_update_status self id st :
  store_inv self -> store_inv (update_status self id st).2.
Proof.
  intros Hinv. unfold update_status, get, get_json_document.
  destruct (json_docs self !! id) as [doc|] eqn:Hdoc; [|done].
  destruct (valid_signifier doc) eqn:Hv; [|done].
  destruct (Hinv _ _ Hdoc) as (Hid & _ & _).
  pose proof (store_inv_update self (with_status doc st) false Hinv) as Hu.
  destruct (update self (with_status doc st) false) as [r self'].
  cbn in *. apply Hu; [by rewrite valid_with_status|].
  right. split; [done|]. exists doc. cbn. by rewrite Hid.
Qed.

Lemma store_inv_create_from_rdf self now rdf_data format :
  store_inv self -> call_safe (CreateFromRdf now rdf_data format) ->
  store_inv (create_from_rdf self now rdf_data format).2.
Proof.
  intros Hinv Hok. unfold create_from_rdf.
  destruct (parse_rdf_signifier now rdf_data format) as [s|e] eqn:Hp; [|done].
  destruct (parse_rdf_signifier_valid _ _ _ _ Hp) as [Hs _].
  destruct (Hok s Hp) as [Hm Hrdf].
  apply store_inv_create; [done|]. by repeat split.
Qed.

#[local] Hint Resolve store_inv_create store_inv_create_from_rdf store_inv_update
  store_inv_delete store_inv_update_status : registry.





(** *** The property index *)

Lemma index_add_mono (id : string) (index : gmap (string * string) (gset string))
    (key key' : string * string) (id' : string) :
  id' ∈ default ∅ (index !! key') ->
  id' ∈ default ∅ (index_add id index key !! key').
Proof.
  unfold index_add. intros Hin.
  destruct (decide (key = key')) as [<-|Hne].
  - rewrite lookup_insert_eq. cbn. set_solver.
  - by rewrite lookup_insert_ne.
Qed.

Lemma foldl_index_add_mono (id : string) (keys : list (string * string))
    (index : gmap (string * string) (gset string)) (key' : string * string) (id' : string) :
  id' ∈ default ∅ (index !! key') ->
  id' ∈ default ∅ (foldl (index_add id) index keys !! key').
Proof.
  revert index. induction keys as [|k keys IH]; intros index Hin; cbn; [done|].
  by apply IH, index_add_mono.
Qed.

Lemma foldl_index_add_key (id : string) (keys : list (string * string))
    (index : gmap (string * string) (gset string)) (key : string * string) :
  key ∈ keys -> id ∈ default ∅ (foldl (index_add id) index keys !! key).
Proof.
  revert index. induction keys as [|k keys IH]; intros index Hin; cbn.
  - by apply elem_of_nil in Hin.
  - apply elem_of_cons in Hin as [<-|Hin]; [|by apply IH].
    apply foldl_index_add_mono. unfold index_add.
    rewrite lookup_insert_eq. cbn. set_solver.
Qed.

Lemma index_inv_write self self' s :
  index_inv self ->
  json_docs self' = <[signifier_id s := s]> (json_docs self) ->
  property_index self'
  = foldl (index_add (signifier_id s)) (property_index self) (get_property_keys s) ->
  index_inv self'.
Proof.
  intros [Hid Hidx] Hd Hi. split.
  - intros id doc. rewrite Hd. destruct (decide (signifier_id s = id)) as [<-|Hne].
    + rewrite lookup_insert_eq. by intros [= <-].
    + rewrite lookup_insert_ne by done. apply Hid.
  - intros key id doc. rewrite Hd, Hi.
    destruct (decide (signifier_id s = id)) as [<-|Hne].
    + rewrite lookup_insert_eq. intros [= <-] _ Hkey. by apply foldl_index_add_key.
    + rewrite lookup_insert_ne by done. intros Hdoc Hi' Hkey.
      apply foldl_index_add_mono. by eapply Hidx.
Qed.

Lemma index_inv_create self s rdf_data :
  index_inv self -> index_inv (create self s rdf_data).2.
Proof.
  intros Hinv.
  destruct (get_json_document self (signifier_id s)) as [d|] eqn:Hex.
  - unfold create. by rewrite Hex.
  - destruct (create_writes self s rdf_data Hex) as (Hd & Hi & _).
    by eapply index_inv_write.
Qed.

Lemma index_inv_update self s create_new_version :
  index_inv self -> index_inv (update self s create_new_version).2.
Proof.
  intros Hinv.
  destruct (get_json_document self (signifier_id s)) as [existing|] eqn:Hex;
    [|unfold update; by rewrite Hex].
  destruct (update_writes self s create_new_version existing Hex) as (Hd & Hi & _).
  set (s' := if create_new_version then with_version s (version existing + 1) else s) in *.
  apply (index_inv_write self _ s'); [done|..];
    subst s'; by destruct create_new_version.
Qed.

Lemma index_inv_delete self id : index_inv self -> index_inv (delete self id).2.
Proof.
  intros [Hid Hidx]. split.
  - intros id' doc. cbn. intros [_ Hl]%lookup_delete_Some. by apply Hid.
  - intros key id' doc. cbn. intros [Hne Hl]%lookup_delete_Some Hi Hkey.
    specialize (Hidx key id' doc Hl Hi Hkey).
    destruct (property_index self !! key) as [ids|] eqn:Hk; [|by cbn in Hidx].
    cbn in Hidx.
    assert (id' ∈ ids ∖ {[id]}) as Hin by set_solver.
    erewrite (proj2 (map_lookup_filter_Some _ _ key (ids ∖ {[id]}))); [done|].
    split; [by rewrite lookup_fmap, Hk|]. cbn. set_solver.
Qed.

(** The half of the index invariant that every sequence of calls keeps:
    the index misses no identifier. *)
Lemma index_complete_after_calls calls :
  index_complete (run calls MemoryStore.empty).
Proof.
  assert (Hrun : forall calls self, index_inv self -> index_inv (run calls self)).
  { clear calls. induction calls as [|c calls IH]; intros self Hinv; [done|].
    cbn. apply IH. destruct c; cbn [step].
    - by apply index_inv_create.
    - unfold create_from_rdf. destruct (parse_rdf_signifier _ _ _); [|done].
      by apply index_inv_create.
    - by apply index_inv_update.
    - by apply index_inv_delete.
    - unfold update_status. destruct (get self signifier_id0); [|done].
      pose proof (index_inv_update self (with_status s status0) false Hinv) as Hu.
      by destruct (update self (with_status s status0) false). }
  apply Hrun. split.
  - intros id doc Hl. cbn in Hl. by rewrite lookup_empty in Hl.
  - intros key id doc Hl. cbn in Hl. by rewrite lookup_empty in Hl.
Qed.

End RegistryProperties.


(** ** Retrieval orchestrator, intent-matching stage *)

Section OrchestratorProperties.
Import Model StringContainsMatcher RetrievalOrchestrator.
Context `{Runtime}.





Lemma registry_selects_v0 default_version model q dicts k version :
  IntentMatcherRegistry.version_or_default version default_version = "v0" ->
  IntentMatcherRegistry.match_
    (IntentMatcherRegistry.init default_version model) q dicts k version
  = match_ q dicts k false.
Proof.
  intros Hv.
  unfold IntentMatcherRegistry.match_, IntentMatcherRegistry.get_matcher,
    IntentMatcherRegistry.init.
  cbn [IntentMatcherRegistry._matchers IntentMatcherRegistry.default_version].
  rewrite Hv. rewrite lookup_insert_ne by done. by rewrite lookup_insert_eq.
Qed.



End OrchestratorProperties.



(** ** Structured Subsumption Engine *)

Section SSEProperties.
Import Model SSE.
Context `{Runtime}.

Lemma evaluate_loop_all_missing (self : SSE.SSE) conds ctx vs ms k :
  Forall (is_missing ctx) conds ->
  (evaluate_loop self conds ctx vs ms k).1.1 =
    if String.eqb (missing_value_policy self) "fail"
    then (vs ++ map missing_violation conds)%list else vs.
Proof.
  intros Hall. revert vs ms k.
  induction Hall as [|c conds Hc _ IH]; intros vs ms k.
  - cbn. destruct (String.eqb _ _); [by rewrite app_nil_r | done].
  - cbn [evaluate_loop]. unfold is_missing in Hc. rewrite Hc.
    rewrite IH. destruct (String.eqb _ _); [|done].
    cbn [map]. by rewrite <- app_assoc.
Qed.

(** C5.  Missing-value policy of [SSE.evaluate]: when every structured
    condition of a signifier refers to a pair that is absent from the
    context features, the signifier fails under policy [fail] (it has at
    least one condition) and passes under policies [ignore] and [pass];
    with no structured conditions it passes under every policy. *)
Theorem sse_missing_value_policy (self : SSE.SSE) conds ctx :
  Forall (is_missing ctx) conds ->
  (missing_value_policy self = "fail" -> conds <> [] ->
     sse_pass (evaluate self conds ctx) = false)
  /\ (missing_value_policy self = "ignore" \/ missing_value_policy self = "pass" ->
     sse_pass (evaluate self conds ctx) = true)
  /\ (forall ctx', sse_pass (evaluate self [] ctx') = true).
Proof.
  intros Hall.
  assert (Hv := evaluate_loop_all_missing self conds ctx [] [] 0 Hall).
  split; [|split].
  - intros Hp Hne. destruct conds as [|c conds]; [done|].
    unfold evaluate.
    destruct (evaluate_loop self (c :: conds) ctx [] [] 0) as [[vs ms] k].
    cbn in Hv. rewrite Hp in Hv. cbn in Hv. subst vs. done.
  - intros Hp. destruct conds as [|c conds]; [done|].
    unfold evaluate.
    destruct (evaluate_loop self (c :: conds) ctx [] [] 0) as [[vs ms] k].
    cbn in Hv. destruct Hp as [Hp|Hp]; rewrite Hp in Hv; cbn in Hv; by subst vs.
  - done.
Qed.

Lemma coercion_fails_inv expected actual :
  coercion_fails expected actual = true ->
  is_number expected = true /\ num_value actual = None
  /\ coerce expected actual = actual.
Proof.
  unfold coercion_fails, coerce. intros Hf.
  apply andb_prop in Hf as [Hf Hfl]. apply andb_prop in Hf as [He Ha].
  rewrite He, Ha. cbn.
  destruct (py_float actual) eqn:Hpf; [done|].
  split; [done|]. split; [|done].
  destruct actual; cbn in Ha; done.
Qed.

(** C9 (as amended).  With type coercion enabled, when the conversion of
    the actual value to a number fails, [_evaluate_condition] raises no
    error and returns [False] for every operator except [notEquals], for
    which it returns [True]: the comparison is made on the unconverted
    value, which differs from every number. *)
Theorem coercion_failure_outcome (self : SSE.SSE) (condition : ValueCondition) actual :
  enable_type_coercion self = true ->
  coercion_fails (value condition) actual = true ->
  _evaluate_condition self condition actual = String.eqb (operator condition) "notEquals".
Proof.
  intros Hc Hf. apply coercion_fails_inv in Hf as (Hnum & Hact & Hco).
  unfold _evaluate_condition. rewrite Hc, Hco.
  unfold apply_operator, py_compare, py_eq. rewrite Hact.
  assert (Hcmp : match actual, value condition with
                 | SStr s, SStr t => Some (String.compare s t)
                 | _, _ => @None comparison
                 end = None).
  { destruct actual, (value condition); try done. }
  assert (Heq : match actual, value condition with
                | SStr s, SStr t => String.eqb s t
                | SNone, SNone => true
                | _, _ => false
                end = false).
  { destruct actual, (value condition); try done. }
  rewrite Hcmp, Heq.
  repeat match goal with
         | |- context [String.eqb (operator condition) ?s] =>
             let E := fresh "E" in
             destruct (String.eqb (operator condition) s) eqn:E;
             [apply String.eqb_eq in E; try rewrite E; reflexivity|]
         end.
  reflexivity.
Qed.

End SSEProperties.

(** A signifier whose only condition is on a pair the context lacks fails
    under [fail]. *)
Lemma sse_missing_value_policy_witness :
  SSE.sse_pass
    (SSE.evaluate (H := Examples.example_runtime)
       {| SSE.missing_value_policy := "fail"; SSE.enable_type_coercion := true |}
       [Examples.luminosity_condition] ∅) = false.
Proof.
  refine (proj1 (sse_missing_value_policy (H := Examples.example_runtime)
                   _ [Examples.luminosity_condition] ∅ _) _ _).
  - repeat constructor.
  - reflexivity.
  - discriminate.
Defined.

(** C9, the claim as stated fails: expected [5], actual ["abc"], operator
    [notEquals].  [float("abc")] raises, and the condition passes. *)
Lemma coercion_failure_not_equals_passes :
  SSE.coercion_fails (H := Examples.example_runtime) (SInt 5) (SStr "abc") = true
  /\ SSE._evaluate_condition (H := Examples.example_runtime)
       {| SSE.missing_value_policy := "fail"; SSE.enable_type_coercion := true |}
       {| Model.operator := "notEquals"; Model.value := SInt 5; Model.datatype := None |}
       (SStr "abc") = true.
Proof. split; reflexivity. Qed.

Lemma coercion_failure_outcome_witness :
  SSE._evaluate_condition (H := Examples.example_runtime)
    {| SSE.missing_value_policy := "fail"; SSE.enable_type_coercion := true |}
    {| Model.operator := "greaterThan"; Model.value := SInt 5; Model.datatype := None |}
    (SStr "abc") = false.
Proof.
  apply (coercion_failure_outcome (H := Examples.example_runtime)
           {| SSE.missing_value_policy := "fail"; SSE.enable_type_coercion := true |}
           {| Model.operator := "greaterThan"; Model.value := SInt 5;
              Model.datatype := None |}
           (SStr "abc")); reflexivity.
Defined.

(** * Further properties *)

(** ** Registry operations *)

Section RegistryOperations.
Import Model MemoryStore SignifierRegistry RepresentationService RegistryFacts.
Context `{Runtime}.

(** *** Deletion *)

Lemma elem_of_pruned_index (index : gmap (string * string) (gset string))
    (id x : string) (key : string * string) :
  x ∈ default ∅
        (filter (fun kv : (string * string) * gset string => kv.2 ≠ ∅)
                ((fun ids : gset string => ids ∖ {[id]}) <$> index) !! key)
  <-> x ∈ default ∅ (index !! key) /\ x <> id.
Proof.
  destruct (index !! key) as [ids|] eqn:Hk.
  - destruct (decide (ids ∖ {[id]} = ∅)) as [He|Hne].
    + rewrite (proj2 (map_lookup_filter_None _ _ key)).
      * cbn. set_solver.
      * right. intros ids'. rewrite lookup_fmap, Hk. cbn. intros [= <-]. cbn. tauto.
    + rewrite (proj2 (map_lookup_filter_Some _ _ key (ids ∖ {[id]}))).
      * cbn. set_solver.
      * split; [by rewrite lookup_fmap, Hk|done].
  - rewrite (proj2 (map_lookup_filter_None _ _ key)).
    + cbn. set_solver.
    + left. by rewrite lookup_fmap, Hk.
Qed.

(** X2.  [delete] of an identifier without wildcard characters returns
    [True], removes the document and every index entry of the identifier,
    and leaves the documents and the index memberships of every other
    identifier as they were.  Of the RDF graphs it removes exactly those
    whose file name starts with the identifier followed by [_v]: every
    graph of the identifier, and with them the graphs of any other
    identifier that starts this way; between identifiers without [_v] the
    graphs of the other identifiers are kept. *)
Theorem delete_removes_matching_files (self : MemoryStore) (id : string) :
  glob_literal id = true ->
  (delete self id).1 = true
  /\ get (delete self id).2 id = None
  /\ (forall v, get_rdf_representation (delete self id).2 id v = None)
  /\ (forall a p, id ∉ MemoryStore.find_by_property (delete self id).2 a p)
  /\ (forall id' v,
        get_rdf_graph (delete self id).2 id' v
        = if glob_hit id (id', v) then None else get_rdf_graph self id' v)
  /\ (forall id', id' <> id ->
        get (delete self id).2 id' = get self id'
        /\ (forall a p, id' ∈ MemoryStore.find_by_property (delete self id).2 a p
                        <-> id' ∈ MemoryStore.find_by_property self a p)
        /\ (has_version_mark id = false -> has_version_mark id' = false ->
            forall v, get_rdf_representation (delete self id).2 id' v
                      = get_rdf_representation self id' v)).
Proof.
  intros _.
  assert (Hdoc : get (delete self id).2 id = None).
  { unfold get, get_json_document. cbn. by rewrite lookup_delete_eq. }
  assert (Hfiles : forall id' v,
            get_rdf_graph (delete self id).2 id' v
            = if glob_hit id (id', v) then None else get_rdf_graph self id' v).
  { intros id' v. unfold get_rdf_graph. cbn.
    destruct (glob_hit id (id', v)) eqn:Hhit.
    - apply map_lookup_filter_None. right. intros g _. cbn. congruence.
    - destruct (rdf_files self !! (id', v)) as [g|] eqn:Hg.
      + apply map_lookup_filter_Some. by split.
      + apply map_lookup_filter_None. by left. }
  assert (Hrdf : forall v, get_rdf_graph (delete self id).2 id v = None).
  { intros v. by rewrite Hfiles, glob_hit_own. }
  split; [done|]. split; [done|]. split; [|split; [|split; [done|]]].
  - intros v. unfold get_rdf_representation. rewrite Hdoc.
    destruct v as [v|]; [by rewrite Hrdf|done].
  - intros a p. unfold MemoryStore.find_by_property. cbn.
    rewrite elem_of_elements, elem_of_pruned_index. tauto.
  - intros id' Hne.
    assert (Hd' : get (delete self id).2 id' = get self id').
    { unfold get, get_json_document. cbn. by rewrite lookup_delete_ne. }
    split; [done|]. split.
    + intros a p. unfold MemoryStore.find_by_property. cbn.
      rewrite !elem_of_elements, elem_of_pruned_index. tauto.
    + intros Hm Hm' v.
      assert (Hr' : forall v, get_rdf_graph (delete self id).2 id' v
                              = get_rdf_graph self id' v).
      { intros v'. by rewrite Hfiles, glob_hit_other. }
      unfold get_rdf_representation. rewrite Hd'.
      destruct v as [v|]; [by rewrite Hr'|].
      destruct (get self id') as [d|]; [|done].
      cbn [fmap option_fmap option_map]. by rewrite Hr'.
Qed.

(** *** Failing operations *)

(** X3.  [create] on an identifier that is already stored and [update] on
    one that is not raise [ValueError] and leave the store as it was.  A
    [create] that fails while generating the RDF (the shapes text of the
    signifier is not valid Turtle) raises after the document and the index
    entries were written: the document is stored, no graph is. *)
Theorem failed_operations (self : MemoryStore) (s : Signifier) :
  (forall existing rdf_data,
     get_json_document self (signifier_id s) = Some existing ->
     exists m, create self s rdf_data = (Err (ValueError m), self))
  /\ (forall create_new_version,
        get_json_document self (signifier_id s) = None ->
        exists m, update self s create_new_version = (Err (ValueError m), self))
  /\ (forall shapes,
        get_json_document self (signifier_id s) = None ->
        get_rdf_graph self (signifier_id s) (version s) = None ->
        shacl_shapes (context s) = Some shapes ->
        rdf_text_truthy shapes = true ->
        parse_rdf_text shapes "turtle" = None ->
        is_ok (create self s None).1 = false
        /\ get_json_document (create self s None).2 (signifier_id s) = Some s
        /\ get_rdf_graph (create self s None).2 (signifier_id s) (version s) = None).
Proof.
  split; [|split].
  - intros existing rdf_data Hex. unfold create. rewrite Hex. by eexists.
  - intros cnv Hnone. unfold update. rewrite Hnone. by eexists.
  - intros shapes Hnew Hnog Hsh Ht Hp.
    assert (Hgen : exists e, generate_rdf s = Err e).
    { unfold generate_rdf. rewrite Hsh, Ht, Hp. by eexists. }
    destruct Hgen as [e Hgen].
    unfold create. rewrite Hnew. unfold normalize_signifier. rewrite Hgen. cbn.
    split; [done|]. unfold get_json_document, get_rdf_graph in *. cbn.
    by rewrite lookup_insert_eq.
Qed.

(** *** Versions and status *)


(** X5.  [update_status] on a stored signifier writes the document with
    the new status and the same version and every other field, and [get]
    then returns it; on an identifier that is not stored it returns [None]
    and leaves the store as it was. *)
Theorem update_status_in_place (self : MemoryStore) (id : string) (st : SignifierStatus) :
  (get self id = None ->
     update_status self id st = (Ok None, self))
  /\ (forall doc,
        get self id = Some doc ->
        signifier_id doc = id ->
        get (update_status self id st).2 id = Some (with_status doc st)
        /\ version (with_status doc st) = version doc
        /\ forall id', id' <> id ->
             get (update_status self id st).2 id' = get self id').
Proof.
  split.
  - intros Hnone. unfold update_status. by rewrite Hnone.
  - intros doc Hget Hid.
    assert (Hdoc : get_json_document self id = Some doc /\ valid_signifier doc = true).
    { unfold get in Hget. destruct (get_json_document self id) as [d|]; [|done].
      destruct (valid_signifier d) eqn:Hv; [|done]. by injection Hget as ->. }
    destruct Hdoc as [Hdoc Hv].
    assert (Hex : get_json_document self (signifier_id (with_status doc st)) = Some doc)
      by (cbn; by rewrite Hid).
    destruct (update_writes self (with_status doc st) false doc Hex) as (Hd & _ & _).
    cbn in Hd. rewrite Hid in Hd.
    unfold update_status. rewrite Hget.
    destruct (update self (with_status doc st) false) as [r self'] eqn:Hu.
    cbn in *. split; [|split; [done|]].
    + unfold get, get_json_document. rewrite Hd, lookup_insert_eq.
      by rewrite valid_with_status, Hv.
    + intros id' Hne. unfold get, get_json_document.
      by rewrite Hd, lookup_insert_ne.
Qed.

(** *** Listing *)

Lemma slice_subseteq {A} (start stop : Z) (l : list A) : PyList.slice start stop l ⊆ l.
Proof.
  unfold PyList.slice. etrans; [apply subseteq_take|apply subseteq_drop].
Qed.

Lemma slice_length {A} (offset limit : Z) (l : list A) :
  0 <= offset -> 0 <= limit ->
  Z.of_nat (length (PyList.slice offset (offset + limit) l)) <= limit.
Proof.
  intros Ho Hl. unfold PyList.slice, PyList.clamp_index.
  destruct (Z.ltb_spec offset 0); [lia|].
  destruct (Z.ltb_spec (offset + limit) 0); [lia|].
  rewrite length_take. lia.
Qed.

(** X6.  [list_signifiers] returns current versions only: each result is
    what [get] returns for its identifier, has the requested status when a
    status is given and the requested affordance when a non-empty one is
    given; with non-negative [offset] and [limit] it returns at most
    [limit] signifiers. *)
Theorem list_signifiers_filters (self : MemoryStore) (status : option SignifierStatus)
    (affordance_uri : option string) (limit offset : Z) (s : Signifier) :
  s ∈ list_signifiers self status affordance_uri limit offset ->
  (exists id, id ∈ list_all_signifiers self /\ get self id = Some s)
  /\ (forall st, status = Some st -> Model.status s = st)
  /\ (forall u, affordance_uri = Some u -> u <> "" -> Model.affordance_uri s = u)
  /\ (0 <= offset -> 0 <= limit ->
      Z.of_nat (length (list_signifiers self status affordance_uri limit offset))
      <= limit).
Proof.
  intros Hin. unfold list_signifiers in *.
  apply slice_subseteq in Hin. apply list_elem_of_omap in Hin as (id & Hid & Hf).
  destruct (get self id) as [d|] eqn:Hget; [|done].
  destruct (list_filter status affordance_uri d) eqn:Hflt; [|done].
  injection Hf as <-. unfold list_filter in Hflt.
  apply andb_prop in Hflt as [Hst Haff].
  split; [by exists id|]. split; [|split].
  - intros st ->. by apply bool_decide_eq_true in Hst.
  - intros u -> Hu. unfold nonempty in Haff.
    destruct (String.eqb_spec u ""); [done|]. cbn in Haff.
    by apply String.eqb_eq in Haff.
  - apply slice_length.
Qed.

(** *** The property index without [update] *)

Lemma foldl_index_add_elem (id : string) (keys : list (string * string))
    (index : gmap (string * string) (gset string)) (key : string * string) (x : string) :
  x ∈ default ∅ (foldl (index_add id) index keys !! key)
  <-> x ∈ default ∅ (index !! key) \/ (x = id /\ key ∈ keys).
Proof.
  revert index. induction keys as [|k keys IH]; intros index; cbn.
  - split; [by left|]. intros [?|[_ ?%elem_of_nil]]; done.
  - rewrite IH. unfold index_add at 1.
    destruct (decide (k = key)) as [<-|Hne].
    + rewrite lookup_insert_eq. cbn. rewrite elem_of_union, elem_of_singleton.
      rewrite elem_of_cons. naive_solver.
    + rewrite lookup_insert_ne by done. rewrite elem_of_cons. naive_solver.
Qed.

Lemma exact_inv_write self (s : Signifier) rdf :
  exact_inv self ->
  (forall doc, json_docs self !! signifier_id s = Some doc ->
     get_property_keys doc = get_property_keys s) ->
  exact_inv {| json_docs := <[signifier_id s := s]> (json_docs self);
               rdf_files := rdf;
               property_index :=
                 foldl (index_add (signifier_id s)) (property_index self)
                       (get_property_keys s) |}.
Proof.
  intros [Hid Hex] Hsame. split.
  - intros id doc. cbn. destruct (decide (signifier_id s = id)) as [<-|Hne].
    + rewrite lookup_insert_eq. by intros [= <-].
    + rewrite lookup_insert_ne by done. apply Hid.
  - intros key id. cbn. rewrite foldl_index_add_elem, (Hex key id).
    destruct (decide (signifier_id s = id)) as [<-|Hne].
    + rewrite lookup_insert_eq. split.
      * intros [(doc & Hdoc & Hkey)|[_ Hkey]]; exists s; split; try done.
        by rewrite <- (Hsame doc Hdoc).
      * intros (doc & [= <-] & Hkey). by right.
    + rewrite lookup_insert_ne by done. naive_solver.
Qed.

Lemma exact_inv_same_docs self' docs rdf idx :
  json_docs self' = docs -> property_index self' = idx ->
  exact_inv {| json_docs := docs; rdf_files := rdf; property_index := idx |} ->
  exact_inv self'.
Proof.
  intros Hd Hi [Hid Hex]. split.
  - intros id doc. rewrite Hd. apply Hid.
  - intros key id. rewrite Hi, Hd. apply (Hex key id).
Qed.

Lemma exact_inv_create self s rdf_data :
  exact_inv self -> exact_inv (create self s rdf_data).2.
Proof.
  intros Hinv.
  destruct (get_json_document self (signifier_id s)) as [existing|] eqn:Hex.
  - unfold create. by rewrite Hex.
  - destruct (create_writes self s rdf_data Hex) as (Hd & Hi & _).
    eapply exact_inv_same_docs;
      [exact Hd|exact Hi|apply (exact_inv_write self s (rdf_files self) Hinv)].
    intros doc Hdoc. unfold get_json_document in Hex. congruence.
Qed.

Lemma exact_inv_update_status self id st :
  exact_inv self -> exact_inv (update_status self id st).2.
Proof.
  intros Hinv. unfold update_status.
  destruct (get self id) as [doc|] eqn:Hget; [|done].
  assert (Hdoc : get_json_document self id = Some doc).
  { unfold get in Hget. destruct (get_json_document self id) as [d|]; [|done].
    destruct (valid_signifier d); [|done]. by injection Hget as ->. }
  assert (Hid : signifier_id doc = id) by (by apply (proj1 Hinv)).
  assert (Hex : get_json_document self (signifier_id (with_status doc st)) = Some doc)
    by (cbn; by rewrite Hid).
  destruct (update_writes self (with_status doc st) false doc Hex) as (Hd & Hi & _).
  destruct (update self (with_status doc st) false) as [r self']. cbn in *.
  eapply exact_inv_same_docs;
    [exact Hd|exact Hi|apply (exact_inv_write self (with_status doc st) (rdf_files self) Hinv)].
  intros doc' Hdoc'. cbn in Hdoc'. rewrite Hid in Hdoc'.
  unfold get_json_document in Hdoc. by replace doc' with doc by congruence.
Qed.

Lemma exact_inv_delete self id : exact_inv self -> exact_inv (delete self id).2.
Proof.
  intros [Hid Hex]. split.
  - intros id' doc. cbn. intros [_ Hl]%lookup_delete_Some. by apply Hid.
  - intros key id'. cbn. rewrite elem_of_pruned_index, (Hex key id'). split.
    + intros [(doc & Hdoc & Hkey) Hne]. exists doc. split; [|done].
      by rewrite lookup_delete_ne.
    + intros (doc & [Hne Hdoc]%lookup_delete_Some & Hkey). split; [|done].
      by exists doc.
Qed.

(** X7.  As long as no [update] is called, the property index is exact:
    after any sequence of [create], [create_from_rdf], [delete] and
    [update_status] calls on an empty store, an identifier is listed under
    a pair exactly when its current version has a structured condition on
    that pair. *)
Theorem index_exact_without_update (calls : list call) :
  Forall not_update calls -> index_exact (run calls MemoryStore.empty).
Proof.
  intros Hall.
  assert (Hrun : forall self, exact_inv self -> exact_inv (run calls self)).
  { induction Hall as [|c calls Hc _ IH]; intros self Hinv; [done|].
    cbn. apply IH. destruct c; cbn [step]; try done.
    - by apply exact_inv_create.
    - unfold create_from_rdf. destruct (parse_rdf_signifier _ _ _); [|done].
      by apply exact_inv_create.
    - by apply exact_inv_delete.
    - by apply exact_inv_update_status. }
  apply Hrun. split.
  - intros id doc Hl. cbn in Hl. by rewrite lookup_empty in Hl.
  - intros key id. cbn. rewrite lookup_empty. cbn. split; [set_solver|].
    intros (doc & Hl & _). by rewrite lookup_empty in Hl.
Qed.

(** X1.  [find_by_property] misses nothing: after any sequence of
    well-formed calls on an empty store, every stored signifier whose
    current version has a structured condition on a pair is among the
    signifiers returned for that pair. *)
Theorem find_by_property_complete (calls : list call) (id : string) (doc : Signifier)
    (artifact_uri property_uri : string) :
  Forall call_ok calls ->
  json_docs (run calls MemoryStore.empty) !! id = Some doc ->
  (artifact_uri, property_uri) ∈ get_property_keys doc ->
  doc ∈ SignifierRegistry.find_by_property (run calls MemoryStore.empty)
          artifact_uri property_uri.
Proof.
  intros Hok Hdoc Hkey.
  assert (Hinv : docs_inv (run calls MemoryStore.empty))
    by (apply docs_inv_run; [apply docs_inv_empty|done]).
  destruct (Hinv id doc Hdoc) as (Hid & Hvalid).
  assert (Hidx := index_complete_after_calls calls _ id doc Hdoc Hid Hkey).
  unfold SignifierRegistry.find_by_property, MemoryStore.find_by_property.
  apply list_elem_of_omap. exists id. split.
  - by apply elem_of_elements.
  - unfold get, get_json_document. by rewrite Hdoc, Hvalid.
Qed.

End RegistryOperations.

Lemma failed_operations_witness :
  Py.is_ok (SignifierRegistry.create (H := Examples.example_runtime) MemoryStore.empty
              MoreExamples.signifier_with_bad_shapes None).1 = false
  /\ MemoryStore.get_json_document
       (SignifierRegistry.create (H := Examples.example_runtime) MemoryStore.empty
          MoreExamples.signifier_with_bad_shapes None).2 "s2"
     = Some MoreExamples.signifier_with_bad_shapes
  /\ MemoryStore.get_rdf_graph
       (SignifierRegistry.create (H := Examples.example_runtime) MemoryStore.empty
          MoreExamples.signifier_with_bad_shapes None).2 "s2" 1 = None.
Proof.
  refine (proj2 (proj2 (failed_operations (H := Examples.example_runtime)
                          MemoryStore.empty MoreExamples.signifier_with_bad_shapes))
                (Text "this is not turtle") _ _ _ _ _); reflexivity.
Defined.

Lemma delete_removes_matching_files_witness :
  SignifierRegistry.get MoreExamples.store_with_s1_vx "s1_vx" <> None
  /\ MemoryStore.get_rdf_graph MoreExamples.store_with_s1_vx "s1_vx" 1 <> None
  /\ SignifierRegistry.get
       (SignifierRegistry.delete MoreExamples.store_with_s1_vx "s1").2 "s1_vx" <> None
  /\ MemoryStore.get_rdf_graph
       (SignifierRegistry.delete MoreExamples.store_with_s1_vx "s1").2 "s1_vx" 1 = None.
Proof.
  destruct (delete_removes_matching_files MoreExamples.store_with_s1_vx "s1" eq_refl)
    as (_ & _ & _ & _ & Hfiles & Hother).
  destruct (Hother "s1_vx") as (Hget & _); [done|].
  rewrite Hget, (Hfiles "s1_vx" 1).
  repeat split; by vm_compute.
Defined.


Lemma update_status_in_place_witness :
  SignifierRegistry.get
    (SignifierRegistry.update_status (H := Examples.example_runtime)
       MoreExamples.store_with_s1 "s1" Model.DEPRECATED).2 "s1"
  = Some (Model.with_status MoreExamples.s1_v1 Model.DEPRECATED).
Proof.
  refine (proj1 (proj2 (update_status_in_place (H := Examples.example_runtime)
                          MoreExamples.store_with_s1 "s1" Model.DEPRECATED)
                       MoreExamples.s1_v1 _ _)).
  - by vm_compute.
  - reflexivity.
Defined.

Lemma list_signifiers_filters_witness :
  Model.status MoreExamples.s1_v1 = Model.ACTIVE.
Proof.
  refine (proj1 (proj2 (list_signifiers_filters MoreExamples.store_with_s1
                          (Some Model.ACTIVE) None 100 0 MoreExamples.s1_v1 _))
                Model.ACTIVE eq_refl).
  vm_compute. left.
Defined.

Lemma index_exact_without_update_witness :
  SignifierRegistry.index_exact
    (SignifierRegistry.run (H := Examples.example_runtime)
       [SignifierRegistry.Create MoreExamples.s1_v1 None;
        SignifierRegistry.UpdateStatus "s1" Model.DEPRECATED;
        SignifierRegistry.Delete "s1"]
       MemoryStore.empty).
Proof.
  apply (index_exact_without_update (H := Examples.example_runtime)).
  repeat constructor.
Defined.

(** ** Intent Matcher v0, further properties *)

Section MatcherOperations.
Import StringContainsMatcher MatcherFacts.
Context `{Runtime}.

(** X8.  The similarity computed by IM v0 lies between 0 and 1. *)
Theorem similarity_in_unit_interval (query_tokens : list string)
    (signifier : SignifierDict) (case_sensitive : bool) :
  (0 <= _compute_similarity query_tokens signifier case_sensitive
   /\ _compute_similarity query_tokens signifier case_sensitive <= 1)%Q.
Proof.
  rewrite (compute_similarity_value query_tokens signifier case_sensitive).
  destruct query_tokens as [|t l]; [done|].
  set (Q := t :: l). set (S := all_signifier_tokens signifier case_sensitive).
  assert (Hn : (0 < inject_Z (Z.of_nat (length Q)))%Q)
    by (apply inject_nat_pos; cbn; lia).
  assert (Hm : (count_matches Q S <= length Q)%nat) by apply length_filter.
  split.
  - apply Qle_shift_div_l; [done|]. rewrite Qmult_0_l.
    unfold Qle. cbn. lia.
  - apply Qle_shift_div_r; [done|]. rewrite Qmult_1_l.
    rewrite <- Zle_Qle. lia.
Qed.

Lemma count_matches_nil (tokens : gset string) : count_matches [] tokens = 0%nat.
Proof. unfold count_matches. by rewrite filter_nil. Qed.

(** X9.  A non-empty query without any token of three or more word
    characters (such as ["on"] or ["up!"]) matches nothing: [match]
    returns the empty list, whatever the signifiers are. *)
Theorem short_query_matches_nothing (intent_query : string)
    (signifiers : list SignifierDict) (k : Z) (case_sensitive : bool) :
  intent_query <> "" ->
  _tokenize intent_query case_sensitive = [] ->
  match_ intent_query signifiers k case_sensitive = Ok [].
Proof.
  intros Hq Htok. unfold match_.
  destruct (String.eqb_spec intent_query "") as [|_]; [done|].
  destruct signifiers as [|s0 rest]; [done|].
  rewrite Htok.
  assert (flat_map (match_one [] case_sensitive) (s0 :: rest) = []) as ->.
  { induction (s0 :: rest) as [|s l IH]; [done|].
    cbn. rewrite match_one_none by apply count_matches_nil. exact IH. }
  cbn. unfold PyList.slice_to. by destruct (0 <=? k); rewrite take_nil.
Qed.

(** X10.  [match] returns the best matches first and cuts after [k]: the
    results are the first elements of the stable descending sort of all
    matches of positive similarity, at most [k] of them for [k >= 0], and
    no match that was cut off has a larger similarity than a returned
    one. *)
Theorem match_returns_top_k (intent_query : string)
    (signifiers : list SignifierDict) (k : Z) (case_sensitive : bool) :
  intent_query <> "" ->
  let Q := _tokenize intent_query case_sensitive in
  exists results rest,
    match_ intent_query signifiers k case_sensitive = Ok results
    /\ PyList.sort_desc similarity (flat_map (match_one Q case_sensitive) signifiers)
       = (results ++ rest)%list
    /\ StronglySorted (PyList.desc similarity) results
    /\ (0 <= k -> Z.of_nat (length results) <= k)
    /\ (forall r r', r ∈ results -> r' ∈ rest -> (similarity r' <= similarity r)%Q).
Proof.
  intros Hq Q. unfold match_.
  destruct (String.eqb_spec intent_query "") as [|_]; [done|].
  set (sorted := PyList.sort_desc similarity (flat_map (match_one Q case_sensitive) signifiers)).
  assert (Hsorted : StronglySorted (PyList.desc similarity) sorted)
    by apply sort_desc_sorted.
  assert (Hcut : exists n, PyList.slice_to k sorted = take n sorted
                           /\ (0 <= k -> n = Z.to_nat k)).
  { unfold PyList.slice_to. destruct (Z.leb_spec 0 k); eexists; split; try done. lia. }
  destruct Hcut as (n & Hcut & Hn).
  exists (take n sorted), (drop n sorted).
  rewrite take_drop in *.
  split; [|split; [done|split; [|split]]].
  - destruct signifiers as [|s0 l]; [|by fold Q; fold sorted; rewrite Hcut].
    subst sorted. cbn. by rewrite take_nil.
  - rewrite <- (take_drop n sorted) in Hsorted.
    by apply StronglySorted_app_1_l in Hsorted.
  - intros Hk. rewrite length_take, (Hn Hk). lia.
  - intros r r' Hr Hr'. rewrite <- (take_drop n sorted) in Hsorted.
    exact (StronglySorted_app_1_elem_of _ _ _ _ _ Hsorted Hr Hr').
Qed.

(** *** Case *)

Lemma lower_char_idemp c : lower_char (lower_char c) = lower_char c.
Proof. by destruct c as [[] [] [] [] [] [] [] []]. Qed.

Lemma lower_idemp text : lower (lower text) = lower text.
Proof.
  induction text as [|c text IH]; cbn; [done|]. by rewrite lower_char_idemp, IH.
Qed.

Lemma lower_empty text : String.eqb (lower text) "" = String.eqb text "".
Proof. by destruct text. Qed.

(** X11.  Matching is case-insensitive by default: with
    [case_sensitive=False], [match] gives the same results for a query and
    for its lower-case form, and a signifier whose [nl_text] is put in
    lower case has the same token set. *)
Theorem match_ignores_case (intent_query : string) (signifiers : list SignifierDict)
    (k : Z) (signifier : SignifierDict) :
  match_ (lower intent_query) signifiers k false = match_ intent_query signifiers k false
  /\ all_signifier_tokens
       {| d_signifier_id := d_signifier_id signifier;
          d_nl_text := lower <$> d_nl_text signifier;
          d_structured := d_structured signifier |} false
     = all_signifier_tokens signifier false.
Proof.
  split.
  - unfold match_, _tokenize. by rewrite lower_empty, lower_idemp.
  - unfold all_signifier_tokens, _tokenize. cbn.
    destruct (d_nl_text signifier); cbn; [by rewrite lower_idemp|done].
Qed.

(** *** Tokens *)

Lemma all_chars_snoc test cur c :
  all_chars test cur = true -> test c = true ->
  all_chars test (cur ++ String c EmptyString) = true.
Proof.
  unfold all_chars. intros Hc Ht.
  induction cur as [|d cur IH].
  - change ("" ++ String c EmptyString) with (String c EmptyString). cbn.
    by rewrite Ht.
  - change (String d cur ++ String c EmptyString)
      with (String d (cur ++ String c EmptyString)).
    cbn in *. apply andb_prop in Hc as [Hd Hc]. rewrite Hd. by apply IH.
Qed.

Lemma findall_words_chars (test : ascii -> bool) text cur :
  all_chars test text = true -> all_chars test cur = true ->
  Forall (fun t => all_chars test t = true /\ all_chars is_word_char t = true)
         (findall_words text cur)
  \/ all_chars is_word_char cur = false.
Proof.
  revert cur. induction text as [|c text IH]; intros cur Htext Hcur.
  - destruct (all_chars is_word_char cur) eqn:Hw; [|by right]. left.
    cbn. unfold flush. destruct (String.eqb cur ""); by repeat constructor.
  - destruct (all_chars is_word_char cur) eqn:Hw; [|by right]. left.
    unfold all_chars in Htext. cbn in Htext. apply andb_prop in Htext as [Hc Htext].
    cbn [findall_words]. destruct (is_word_char c) eqn:Hwc.
    + destruct (IH (cur ++ String c EmptyString) Htext) as [Hall|Hbad]; [|done|].
      * by apply all_chars_snoc.
      * by rewrite all_chars_snoc in Hbad.
    + apply Forall_app. split.
      * unfold flush. destruct (String.eqb cur ""); by repeat constructor.
      * by destruct (IH "" Htext eq_refl) as [Hall|Hbad].
Qed.

Lemma lower_not_upper text : all_chars (fun c => negb (is_upper c)) (lower text) = true.
Proof.
  unfold all_chars. induction text as [|c text IH]; cbn; [done|].
  rewrite IH, andb_true_r. by destruct c as [[] [] [] [] [] [] [] []].
Qed.

(** X12.  Every token that [_tokenize] returns consists of letters,
    digits and underscores only and has at least three characters; with
    [case_sensitive=False] it has no upper-case letter. *)
Theorem tokens_are_words (text : string) (case_sensitive : bool) :
  Forall (fun t => all_chars is_word_char t = true
                   /\ (3 <= String.length t)%nat
                   /\ (case_sensitive = false ->
                       all_chars (fun c => negb (is_upper c)) t = true))
         (_tokenize text case_sensitive).
Proof.
  unfold _tokenize. apply Forall_forall. intros t Ht.
  apply list_elem_of_filter in Ht as [Hlen Ht].
  split; [|split; [lia|]].
  - destruct (findall_words_chars (fun _ => true)
                (if case_sensitive then text else lower text) "") as [Hall|Hbad];
      [|done| |done].
    + unfold all_chars. by apply forallb_forall.
    + rewrite Forall_forall in Hall. by apply Hall.
  - intros ->.
    destruct (findall_words_chars (fun c => negb (is_upper c)) (lower text) "")
      as [Hall|Hbad]; [apply lower_not_upper|done| |done].
    rewrite Forall_forall in Hall. by apply Hall.
Qed.

End MatcherOperations.

Lemma short_query_matches_nothing_witness :
  StringContainsMatcher.match_ (H := Examples.example_runtime) "on"
    [{| StringContainsMatcher.d_signifier_id := Some "s1";
        StringContainsMatcher.d_nl_text := Some "turn the light on";
        StringContainsMatcher.d_structured := None |}] 10 false = Ok [].
Proof.
  apply (short_query_matches_nothing (H := Examples.example_runtime)).
  - discriminate.
  - reflexivity.
Defined.

Lemma match_returns_top_k_witness :
  exists results rest : list StringContainsMatcher.MatchResult,
    StringContainsMatcher.match_ (H := Examples.example_runtime) "raise the blinds"
      [{| StringContainsMatcher.d_signifier_id := Some "s1";
          StringContainsMatcher.d_nl_text := Some "raise blinds";
          StringContainsMatcher.d_structured := None |};
       {| StringContainsMatcher.d_signifier_id := Some "s2";
          StringContainsMatcher.d_nl_text := Some "lower the blinds";
          StringContainsMatcher.d_structured := None |}] 1 false = Ok results
    /\ Z.of_nat (length results) <= 1
    /\ forall r r', r ∈ results -> r' ∈ rest ->
         (StringContainsMatcher.similarity r' <= StringContainsMatcher.similarity r)%Q.
Proof.
  destruct (match_returns_top_k (H := Examples.example_runtime) "raise the blinds"
              [{| StringContainsMatcher.d_signifier_id := Some "s1";
                  StringContainsMatcher.d_nl_text := Some "raise blinds";
                  StringContainsMatcher.d_structured := None |};
               {| StringContainsMatcher.d_signifier_id := Some "s2";
                  StringContainsMatcher.d_nl_text := Some "lower the blinds";
                  StringContainsMatcher.d_structured := None |}] 1 false)
    as (results & rest & Hres & _ & _ & Hlen & Htop).
  - discriminate.
  - exists results, rest. split; [exact Hres|]. split; [apply Hlen; lia|exact Htop].
Defined.

(** ** Ranker, further properties *)

Section RankerOperations.
Import Ranker RankerFacts.

Lemma weighted_score_nonneg signals :
  Forall unit_signal signals -> (0 <= _calculate_weighted_score signals)%Q.
Proof.
  intros Hu. apply unit_sums in Hu as [H0 H1].
  unfold _calculate_weighted_score.
  destruct (accumulate_spec signals 0 0) as [Ht Hw].
  destruct (accumulate signals 0 0) as [tw ws]. cbn in Ht, Hw.
  rewrite Qplus_0_l in Ht, Hw. rewrite <- Ht, <- Hw in *.
  destruct (Qeq_bool tw 0) eqn:Hz; [done|].
  assert (0 < tw)%Q.
  { assert (0 <= tw)%Q as Htw by (by eapply Qle_trans).
    apply Qle_lteq in Htw as [?|Heq]; [done|].
    symmetry in Heq. apply Qeq_bool_iff in Heq. congruence. }
  apply Qle_shift_div_l; [done|]. by rewrite Qmult_0_l.
Qed.

Lemma boost_nonneg (self : Ranker.Ranker) (n : Z) :
  (0 <= specificity_boost self)%Q -> 0 <= n ->
  (0 <= inject_Z n * specificity_boost self)%Q.
Proof.
  intros Hb Hn. apply Qmult_le_0_compat; [|done].
  unfold Qle. cbn. lia.
Qed.

Lemma final_score_nonneg (self : Ranker.Ranker) (c : Candidate) :
  ranker_ok self -> candidate_ok c -> (0 <= final_score (rank_one self c))%Q.
Proof.
  intros [Hw Hb] Hc. unfold rank_one. cbn [final_score].
  destruct (candidate_passed_gates self c); [|done].
  assert (H0 := weighted_score_nonneg _ (candidate_signals_unit self c Hw Hc)).
  destruct (Z.ltb_spec 0 (default 0 (c_constraint_count c))) as [Hpos|Hneg]; [|done].
  apply Q.min_glb; [done|].
  apply Qle_trans with (0 + 0)%Q; [done|].
  apply Qplus_le_compat; [done|]. apply boost_nonneg; [done|lia].
Qed.

(** X13.  In the domain of the ranker (non-negative weights and boost,
    similarity in [[0, 1]]) every final score lies between 0 and 1. *)
Theorem final_score_in_unit_interval (self : Ranker.Ranker) (c : Candidate) :
  ranker_ok self -> candidate_ok c ->
  (0 <= final_score (rank_one self c) /\ final_score (rank_one self c) <= 1)%Q.
Proof.
  intros [Hw Hb] Hc. unfold rank_one. cbn [final_score].
  destruct (candidate_passed_gates self c); [|done].
  assert (Hu := candidate_signals_unit self c Hw Hc).
  assert (H0 := weighted_score_nonneg _ Hu).
  assert (H1 := weighted_score_le_1 _ Hu).
  destruct (Z.ltb_spec 0 (default 0 (c_constraint_count c))) as [Hpos|Hneg]; [|done].
  split.
  - apply Q.min_glb; [done|].
    apply Qle_trans with (0 + 0)%Q; [done|].
    apply Qplus_le_compat; [done|]. apply boost_nonneg; [done|lia].
  - apply Q.le_min_l.
Qed.

(** X14.  Specificity: of two candidates that differ in their constraint
    count only, the one with more constraints never scores lower.  (The
    statement is an inequality that rounding preserves; by how much the
    score grows is not stated.) *)
Theorem more_constraints_score_higher (self : Ranker.Ranker) (c : Candidate) (n m : Z) :
  ranker_ok self -> candidate_ok c -> 0 <= n -> n < m ->
  (final_score (rank_one self (with_count c n))
   <= final_score (rank_one self (with_count c m)))%Q.
Proof.
  intros [Hw Hb] Hc Hn Hnm. unfold rank_one. cbn [final_score].
  change (candidate_passed_gates self (with_count c n))
    with (candidate_passed_gates self c).
  change (candidate_passed_gates self (with_count c m))
    with (candidate_passed_gates self c).
  change (candidate_signals self (with_count c n)) with (candidate_signals self c).
  change (candidate_signals self (with_count c m)) with (candidate_signals self c).
  cbn [with_count c_constraint_count default from_option id].
  assert (Hu := candidate_signals_unit self c Hw Hc).
  assert (H1 := weighted_score_le_1 _ Hu).
  set (w := _calculate_weighted_score (candidate_signals self c)) in *.
  set (b := specificity_boost self) in *.
  destruct (Z.ltb_spec 0 m) as [_|]; [|lia].
  assert (Hmono : (inject_Z n * b <= inject_Z m * b)%Q).
  { apply Qmult_le_compat_r; [|done]. rewrite <- Zle_Qle. lia. }
  destruct (candidate_passed_gates self c); [|done].
  destruct (Z.ltb_spec 0 n).
  - apply Q.min_le_compat_l. by apply Qplus_le_r.
  - apply Q.min_glb; [done|].
    rewrite <- (Qplus_0_r w) at 1. apply Qplus_le_r.
    apply boost_nonneg; [done|lia].
Qed.

(** X15.  Everything behind a gate-failed result has score 0: in the list
    returned by [rank], for candidates in the domain of the ranker, a
    result that failed a gate is followed only by results of score 0. *)
Theorem failed_gates_rank_last (self : Ranker.Ranker) (candidates : list Candidate)
    (before after : list RankedResult) (r : RankedResult) :
  ranker_ok self -> Forall candidate_ok candidates ->
  rank self candidates = (before ++ r :: after)%list ->
  passed_gates r = false ->
  Forall (fun r' => final_score r' == 0)%Q after.
Proof.
  intros Hok Hcs Hrank Hfail.
  assert (Hsorted : StronglySorted (PyList.desc final_score) (rank self candidates))
    by apply sort_desc_sorted.
  assert (Hfrom : forall x, x ∈ rank self candidates ->
            exists c, c ∈ candidates /\ x = rank_one self c).
  { intros x Hx. rewrite rank_perm in Hx.
    apply list_elem_of_fmap in Hx as (c & -> & Hc). by exists c. }
  rewrite Hrank in Hsorted, Hfrom.
  assert (Hr0 : (final_score r == 0)%Q).
  { destruct (Hfrom r) as (c & _ & ->); [set_solver|].
    unfold rank_one in *. cbn in *. by rewrite Hfail. }
  apply StronglySorted_app_1_r in Hsorted.
  apply StronglySorted_inv in Hsorted as [_ Hall].
  apply Forall_forall. intros r' Hr'.
  destruct (Hfrom r') as (c & Hc & ->); [set_solver|].
  assert (Hcok := proj1 (Forall_forall _ _) Hcs c Hc).
  assert (Hle := proj1 (Forall_forall _ _) Hall _ Hr').
  assert (H0 := final_score_nonneg self c Hok Hcok).
  apply Qle_antisym; [|done].
  unfold PyList.desc in Hle. by rewrite Hr0 in Hle.
Qed.

Lemma accumulate_gate_weight (s s' : RankingSignal) signals tw ws :
  is_gate s = true -> is_gate s' = true ->
  accumulate (s :: signals) tw ws = accumulate (s' :: signals) tw ws.
Proof. intros Hs Hs'. cbn. by rewrite Hs, Hs'. Qed.

(** X16.  While the SHACL gate is enabled the weight given to ["shacl"]
    has no influence: the SHACL signal is a gate and gates are left out of
    the weighted sum, so every candidate gets the same score and the same
    gate verdict whatever that weight is. *)
Theorem shacl_weight_unused_under_gate (self : Ranker.Ranker) (c : Candidate) (w : Q) :
  enable_shacl_gate self = true ->
  final_score (rank_one (with_weight self "shacl" w) c) = final_score (rank_one self c)
  /\ passed_gates (rank_one (with_weight self "shacl" w) c)
     = passed_gates (rank_one self c).
Proof.
  intros Hgate. unfold rank_one. cbn [final_score passed_gates].
  change (candidate_passed_gates (with_weight self "shacl" w) c)
    with (candidate_passed_gates self c).
  split; [|done].
  destruct (candidate_passed_gates self c); [|done].
  assert (Hsame : _calculate_weighted_score (candidate_signals (with_weight self "shacl" w) c)
                  = _calculate_weighted_score (candidate_signals self c)).
  { unfold _calculate_weighted_score, candidate_signals, with_weight.
    cbn [weights enable_shacl_gate enable_sse_gate].
    rewrite lookup_insert_eq, Hgate. rewrite !lookup_insert_ne by done.
    cbn [accumulate is_gate].
    destruct (default false (c_shacl_has_shapes c)); [|done].
    by cbn [app accumulate is_gate]. }
  rewrite Hsame. done.
Qed.

End RankerOperations.

Lemma default_ranker_ok : RankerFacts.ranker_ok Ranker.default_ranker.
Proof.
  split; [|by vm_compute].
  intros key w Hl.
  unfold Ranker.default_ranker, Ranker.init, Ranker.default_weights in Hl.
  cbn [Ranker.weights] in Hl.
  apply lookup_insert_Some in Hl as [[_ <-]|[_ Hl]]; [by vm_compute|].
  apply lookup_insert_Some in Hl as [[_ <-]|[_ Hl]]; [by vm_compute|].
  apply lookup_insert_Some in Hl as [[_ <-]|[_ Hl]]; [by vm_compute|].
  by rewrite lookup_empty in Hl.
Qed.

Lemma final_score_in_unit_interval_witness :
  (0 <= Ranker.final_score
          (Ranker.rank_one Ranker.default_ranker
             {| Ranker.c_signifier_id := Some "s1";
                Ranker.c_intent_similarity := Some (9 # 10);
                Ranker.c_shacl_conforms := Some true;
                Ranker.c_shacl_has_shapes := Some true;
                Ranker.c_sse_pass := None;
                Ranker.c_constraint_count := Some 20%Z |}) <= 1)%Q.
Proof.
  apply (final_score_in_unit_interval Ranker.default_ranker).
  - apply default_ranker_ok.
  - split; by vm_compute.
Defined.

Lemma more_constraints_score_higher_witness :
  let c := {| Ranker.c_signifier_id := Some "s1";
              Ranker.c_intent_similarity := Some (1 # 2)%Q;
              Ranker.c_shacl_conforms := None;
              Ranker.c_shacl_has_shapes := None;
              Ranker.c_sse_pass := Some true;
              Ranker.c_constraint_count := None |} in
  (Ranker.final_score (Ranker.rank_one Ranker.default_ranker (RankerFacts.with_count c 0))
   <= Ranker.final_score (Ranker.rank_one Ranker.default_ranker (RankerFacts.with_count c 2)))%Q.
Proof.
  intros c.
  refine (more_constraints_score_higher Ranker.default_ranker c 0 2 _ _ _ _).
  - apply default_ranker_ok.
  - split; by vm_compute.
  - lia.
  - lia.
Defined.

Lemma failed_gates_rank_last_witness :
  let ok := {| Ranker.c_signifier_id := Some "ok";
               Ranker.c_intent_similarity := Some (1 # 2)%Q;
               Ranker.c_shacl_conforms := Some true;
               Ranker.c_shacl_has_shapes := Some true;
               Ranker.c_sse_pass := None;
               Ranker.c_constraint_count := None |} in
  let bad (id : string) :=
            {| Ranker.c_signifier_id := Some id;
               Ranker.c_intent_similarity := Some 1%Q;
               Ranker.c_shacl_conforms := Some false;
               Ranker.c_shacl_has_shapes := Some true;
               Ranker.c_sse_pass := None;
               Ranker.c_constraint_count := None |} in
  Forall (fun r' => Ranker.final_score r' == 0)%Q
         [Ranker.rank_one Ranker.default_ranker (bad "b2")].
Proof.
  intros ok bad.
  apply (failed_gates_rank_last Ranker.default_ranker [bad "b1"; ok; bad "b2"]
           [Ranker.rank_one Ranker.default_ranker ok]
           [Ranker.rank_one Ranker.default_ranker (bad "b2")]
           (Ranker.rank_one Ranker.default_ranker (bad "b1"))).
  - apply default_ranker_ok.
  - repeat constructor; by vm_compute.
  - by vm_compute.
  - reflexivity.
Defined.

Lemma shacl_weight_unused_under_gate_witness :
  let c := {| Ranker.c_signifier_id := Some "s1";
              Ranker.c_intent_similarity := Some (1 # 2)%Q;
              Ranker.c_shacl_conforms := Some true;
              Ranker.c_shacl_has_shapes := Some true;
              Ranker.c_sse_pass := Some false;
              Ranker.c_constraint_count := None |} in
  Ranker.final_score
    (Ranker.rank_one (RankerFacts.with_weight Ranker.default_ranker "shacl" 5%Q) c)
  = Ranker.final_score (Ranker.rank_one Ranker.default_ranker c).
Proof.
  intros c.
  refine (proj1 (shacl_weight_unused_under_gate Ranker.default_ranker c 5%Q _)).
  reflexivity.
Defined.

(** ** Subsumption engine, further properties *)

Section EngineOperations.
Import Model SSE SSEFacts.
Context `{Runtime}.
Variable self : SSE.SSE.

Lemma check_values_spec a p v vcs vs k :
  exists extra,
    check_values self a p v vcs vs k
    = ((vs ++ extra)%list, k + Z.of_nat (length vcs))
    /\ (extra = [] <-> forallb (fun vc => _evaluate_condition self vc v) vcs = true).
Proof.
  revert vs k. induction vcs as [|vc vcs IH]; intros vs k.
  - exists []. cbn. rewrite app_nil_r, Z.add_0_r. done.
  - cbn [check_values forallb length].
    destruct (_evaluate_condition self vc v) eqn:Hp.
    + destruct (IH vs (k + 1)) as (extra & -> & Hiff).
      exists extra. split; [f_equal; lia|]. by rewrite andb_true_l.
    + match goal with
      | |- context [check_values _ _ _ _ _ (vs ++ [?x])%list _] =>
          destruct (IH (vs ++ [x])%list (k + 1)) as (extra & -> & _);
          exists (x :: extra)
      end.
      split; [rewrite <- app_assoc; cbn; f_equal; lia|].
      by rewrite andb_false_l.
Qed.

Lemma evaluate_loop_spec conds ctx vs ms k :
  exists extra,
    evaluate_loop self conds ctx vs ms k
    = ((vs ++ extra)%list, (ms ++ omap (missing_of ctx) conds)%list,
       k + total_checked ctx conds)
    /\ (extra = [] <-> forallb (condition_holds self ctx) conds = true).
Proof.
  revert vs ms k. induction conds as [|c conds IH]; intros vs ms k.
  - exists []. cbn. rewrite !app_nil_r, Z.add_0_r. done.
  - cbn [evaluate_loop forallb omap fmap list_fmap foldr].
    unfold total_checked. cbn [fmap list_fmap foldr].
    fold (total_checked ctx conds).
    unfold condition_holds at 1, checked_of at 1, missing_of at 1.
    cbn [list_omap].
    destruct (default ∅ (ctx !! artifact c) !! property_affordance c)
      as [actual|] eqn:Hl.
    + destruct (check_values_spec (artifact c) (property_affordance c) actual
                  (value_conditions c) vs k) as (e1 & -> & Hiff1).
      destruct (IH (vs ++ e1)%list ms (k + Z.of_nat (length (value_conditions c))))
        as (e2 & -> & Hiff2).
      exists (e1 ++ e2)%list. split.
      * rewrite <- app_assoc, Z.add_assoc. reflexivity.
      * rewrite andb_true_iff, <- Hiff1, <- Hiff2.
        split; [by intros [-> ->]%app_eq_nil|by intros [-> ->]].
    + destruct (String.eqb (missing_value_policy self) "fail") eqn:Hpol.
      * match goal with
        | |- context [evaluate_loop _ _ _ (vs ++ [?x])%list _ _] =>
            destruct (IH (vs ++ [x])%list
                        (ms ++ [(artifact c, property_affordance c)])%list k)
              as (e2 & -> & _);
            exists (x :: e2)
        end.
        split.
        -- rewrite <- !app_assoc, Z.add_0_l. reflexivity.
        -- cbn. done.
      * destruct (IH vs (ms ++ [(artifact c, property_affordance c)])%list k)
          as (e2 & -> & Hiff2).
        exists e2. split.
        -- rewrite <- !app_assoc, Z.add_0_l. reflexivity.
        -- by rewrite andb_true_l.
Qed.

(** X17.  What [evaluate] reports.  The result passes exactly when every
    structured condition holds (an absent pair is accepted unless the
    policy is [fail]; on a present pair all value conditions hold); it
    passes exactly when no violation is listed; [conditions_checked]
    counts the value conditions of the present pairs only; and
    [missing_properties] lists the absent pairs in the order of the
    conditions. *)
Theorem evaluate_report (conds : list StructuredCondition)
    (ctx : gmap string (gmap string scalar)) :
  let r := evaluate self conds ctx in
  sse_pass r = forallb (condition_holds self ctx) conds
  /\ (sse_pass r = true <-> violations r = [])
  /\ conditions_checked r = total_checked ctx conds
  /\ missing_properties r = omap (missing_of ctx) conds.
Proof.
  destruct conds as [|c conds]; [done|].
  cbv zeta. unfold evaluate.
  destruct (evaluate_loop_spec (c :: conds) ctx [] [] 0) as (extra & -> & Hiff).
  cbn [sse_pass violations conditions_checked missing_properties app].
  rewrite Z.add_0_l. repeat split; try done.
  - destruct extra as [|x extra].
    + symmetry. by apply Hiff.
    + cbn. symmetry. apply not_true_is_false. intros Hall.
      by apply Hiff in Hall.
  - by destruct extra.
  - by intros ->.
Qed.

Lemma coerce_number (expected actual : scalar) x y :
  num_value actual = Some x -> num_value expected = Some y ->
  coerce expected actual = actual.
Proof. intros Hx Hy. by destruct actual, expected. Qed.

Lemma compared_number (c : ValueCondition) actual x y :
  num_value actual = Some x -> num_value (value c) = Some y ->
  (if enable_type_coercion self then coerce (value c) actual else actual) = actual.
Proof.
  intros Hx Hy. destruct (enable_type_coercion self); [|done].
  by eapply coerce_number.
Qed.

(** X18.  On numeric operands the six operators are the order and the
    equality of the numbers, whatever the coercion setting: an [int], a
    [float] or a [bool] in the context is compared by value with a numeric
    expected value. *)
Theorem operators_on_numbers (c : ValueCondition) (actual : scalar) (x y : Q) :
  num_value actual = Some x -> num_value (value c) = Some y ->
  let holds op := _evaluate_condition self (with_operator c op) actual = true in
  (holds "greaterThan" <-> (y < x)%Q)
  /\ (holds "lessThan" <-> (x < y)%Q)
  /\ (holds "greaterEqual" <-> (y <= x)%Q)
  /\ (holds "lessEqual" <-> (x <= y)%Q)
  /\ (holds "equals" <-> (x == y)%Q)
  /\ (holds "notEquals" <-> ~ (x == y)%Q).
Proof.
  intros Hx Hy holds. subst holds. cbv beta.
  unfold _evaluate_condition.
  cbn [with_operator value operator].
  rewrite (compared_number c actual x y Hx Hy).
  unfold apply_operator, py_compare, py_eq. rewrite Hx, Hy.
  cbn [String.eqb Ascii.eqb Bool.eqb].
  assert (Hgt := Qgt_alt x y). assert (Hlt := Qlt_alt x y).
  assert (Hge := Qge_alt x y). assert (Hle := Qle_alt x y).
  unfold Qge in Hge.
  rewrite Hgt, Hlt, Hge, Hle, negb_true_iff, <- not_true_iff_false, Qeq_bool_iff.
  destruct (x ?= y)%Q; repeat split; congruence.
Qed.

Lemma coerce_numeric_string (expected : scalar) (s : string) (q y : Q) :
  num_value expected = Some y -> float_of_str s = Some q ->
  coerce expected (SStr s) = SFloat q /\ coerce expected (SFloat q) = SFloat q.
Proof.
  intros Hy Hq. unfold coerce. cbn [py_float is_number is_str negb].
  rewrite Hq. by destruct expected.
Qed.

(** X19.  With type coercion enabled a string of the context that
    [float] accepts is compared as that number with a numeric expected
    value: the outcome is the one for the float itself, for every
    operator. *)
Theorem numeric_string_compared_as_number (c : ValueCondition) (s : string) (q y : Q) :
  enable_type_coercion self = true ->
  num_value (value c) = Some y ->
  float_of_str s = Some q ->
  _evaluate_condition self c (SStr s) = _evaluate_condition self c (SFloat q).
Proof.
  intros Hon Hy Hq. unfold _evaluate_condition. rewrite Hon.
  destruct (coerce_numeric_string (value c) s q y Hy Hq) as [-> ->]. done.
Qed.

(** X20.  With type coercion disabled a string of the context never
    satisfies a numeric expected value, except under [notEquals]: the
    ordering operators raise and count as failed, [equals] is false, and
    an unknown operator is false. *)
Theorem string_against_number_without_coercion (c : ValueCondition) (s : string) (y : Q) :
  enable_type_coercion self = false ->
  num_value (value c) = Some y ->
  _evaluate_condition self c (SStr s) = String.eqb (operator c) "notEquals".
Proof.
  intros Hoff Hy. unfold _evaluate_condition. rewrite Hoff.
  unfold apply_operator, py_compare, py_eq. cbn [num_value].
  destruct (String.eqb_spec (operator c) "greaterThan") as [->|_];
    [by destruct (value c)|].
  destruct (String.eqb_spec (operator c) "lessThan") as [->|_];
    [by destruct (value c)|].
  destruct (String.eqb_spec (operator c) "greaterEqual") as [->|_];
    [by destruct (value c)|].
  destruct (String.eqb_spec (operator c) "lessEqual") as [->|_];
    [by destruct (value c)|].
  destruct (String.eqb_spec (operator c) "equals") as [->|_];
    [by destruct (value c)|].
  destruct (String.eqb (operator c) "notEquals"); [|done].
  by destruct (value c).
Qed.

(** X21.  An operator that [validate_operator] rejects (one outside the
    six operators of [ValueCondition]) never holds, whatever the values
    and the coercion setting are. *)
Theorem unknown_operator_fails (c : ValueCondition) (actual : scalar) :
  validate_operator (operator c) = false ->
  _evaluate_condition self c actual = false.
Proof.
  unfold validate_operator, allowed_operators. intros Hop.
  apply bool_decide_eq_false in Hop.
  unfold _evaluate_condition, apply_operator.
  destruct (String.eqb_spec (operator c) "greaterThan") as [E|_];
    [rewrite E in Hop; set_solver|].
  destruct (String.eqb_spec (operator c) "lessThan") as [E|_];
    [rewrite E in Hop; set_solver|].
  destruct (String.eqb_spec (operator c) "greaterEqual") as [E|_];
    [rewrite E in Hop; set_solver|].
  destruct (String.eqb_spec (operator c) "lessEqual") as [E|_];
    [rewrite E in Hop; set_solver|].
  destruct (String.eqb_spec (operator c) "equals") as [E|_];
    [rewrite E in Hop; set_solver|].
  destruct (String.eqb_spec (operator c) "notEquals") as [E|_];
    [rewrite E in Hop; set_solver|].
  done.
Qed.

End EngineOperations.

Lemma operators_on_numbers_witness :
  SSE._evaluate_condition (H := Examples.example_runtime)
    {| SSE.missing_value_policy := "ignore"; SSE.enable_type_coercion := true |}
    (SSEFacts.with_operator
       {| Model.operator := "equals"; Model.value := SInt 10000; Model.datatype := None |}
       "greaterEqual")
    (SFloat (25001 # 2)) = true.
Proof.
  refine (proj2 (proj1 (proj2 (proj2
    (operators_on_numbers (H := Examples.example_runtime)
       {| SSE.missing_value_policy := "ignore"; SSE.enable_type_coercion := true |}
       {| Model.operator := "equals"; Model.value := SInt 10000; Model.datatype := None |}
       (SFloat (25001 # 2)) (25001 # 2) (inject_Z 10000) _ _)))) _).
  - reflexivity.
  - reflexivity.
  - by vm_compute.
Defined.

Lemma numeric_string_compared_as_number_witness :
  SSE._evaluate_condition (H := Examples.example_runtime)
    {| SSE.missing_value_policy := "ignore"; SSE.enable_type_coercion := true |}
    {| Model.operator := "greaterEqual"; Model.value := SInt 10000; Model.datatype := None |}
    (SStr "15000")
  = SSE._evaluate_condition (H := Examples.example_runtime)
      {| SSE.missing_value_policy := "ignore"; SSE.enable_type_coercion := true |}
      {| Model.operator := "greaterEqual"; Model.value := SInt 10000; Model.datatype := None |}
      (SFloat (inject_Z 15000)).
Proof.
  apply (numeric_string_compared_as_number (H := Examples.example_runtime)
           {| SSE.missing_value_policy := "ignore"; SSE.enable_type_coercion := true |}
           {| Model.operator := "greaterEqual"; Model.value := SInt 10000;
              Model.datatype := None |}
           "15000" (inject_Z 15000) (inject_Z 10000)); reflexivity.
Defined.

Lemma string_against_number_without_coercion_witness :
  SSE._evaluate_condition (H := Examples.example_runtime)
    {| SSE.missing_value_policy := "ignore"; SSE.enable_type_coercion := false |}
    {| Model.operator := "greaterEqual"; Model.value := SInt 10000; Model.datatype := None |}
    (SStr "15000") = false.
Proof.
  apply (string_against_number_without_coercion (H := Examples.example_runtime)
           {| SSE.missing_value_policy := "ignore"; SSE.enable_type_coercion := false |}
           {| Model.operator := "greaterEqual"; Model.value := SInt 10000;
              Model.datatype := None |}
           "15000" (inject_Z 10000)); reflexivity.
Defined.

Lemma unknown_operator_fails_witness :
  SSE._evaluate_condition (H := Examples.example_runtime)
    {| SSE.missing_value_policy := "ignore"; SSE.enable_type_coercion := true |}
    {| Model.operator := "between"; Model.value := SInt 1; Model.datatype := None |}
    (SInt 1) = false.
Proof.
  apply (unknown_operator_fails (H := Examples.example_runtime)
           {| SSE.missing_value_policy := "ignore"; SSE.enable_type_coercion := true |}
           {| Model.operator := "between"; Model.value := SInt 1; Model.datatype := None |}
           (SInt 1)).
  reflexivity.
Defined.

Lemma find_by_property_complete_witness :
  Model.with_status MoreExamples.s1_v1 Model.DEPRECATED
  ∈ SignifierRegistry.find_by_property
      (SignifierRegistry.run (H := Examples.example_runtime)
         [SignifierRegistry.Create MoreExamples.s1_v1 None;
          SignifierRegistry.UpdateStatus "s1" Model.DEPRECATED]
         MemoryStore.empty)
      "http://example.org/artifacts/sensor"
      "http://example.org/LightSensor#luminosity".
Proof.
  apply (find_by_property_complete (H := Examples.example_runtime) _ "s1").
  - repeat constructor.
  - by vm_compute.
  - vm_compute. left.
Defined.

(** ** Representation service, further properties *)

Section RepresentationOperations.
Import Model MemoryStore SignifierRegistry RepresentationService.
Context `{Runtime}.

(** X22.  A signifier read from RDF starts its life the same way whatever
    the document says: version 1, status [ACTIVE], provenance
    [system]/[rdf_import] stamped with the current time; it passes the
    checks of the model class; its identifier is the part after the last
    [#] of the first node typed [cashmere:Signifier] and its affordance is
    the [cashmere:signifies] value of that node. *)
Theorem parsed_signifier_defaults (now : Z) (rdf_data format : string) (s : Signifier) :
  parse_rdf_signifier now rdf_data format = Ok s ->
  version s = 1
  /\ status s = ACTIVE
  /\ provenance s = {| created_at := now; created_by := "system";
                       source := "rdf_import" |}
  /\ valid_signifier s = true
  /\ exists g n rest a,
       input_graph rdf_data format = Some g
       /\ subjects g RDF_type (CASHMERE "Signifier") = n :: rest
       /\ signifier_id s = last_segment (node_str n) ""
       /\ graph_value g n (CASHMERE "signifies") = Some a
       /\ affordance_uri s = node_str a.
Proof.
  intros Hok.
  destruct (parse_rdf_signifier_valid now rdf_data format s Hok) as [Hvalid _].
  revert Hok. unfold parse_rdf_signifier.
  destruct (parse_body now rdf_data format) as [s'|e] eqn:Hb; [|by destruct e].
  intros [= <-]. revert Hb. unfold parse_body, input_graph.
  destruct (rdf_parse _ format) as [g|]; [|done].
  destruct (subjects g RDF_type (CASHMERE "Signifier")) as [|n rest] eqn:Hn; [done|].
  destruct (graph_value g n (CASHMERE "signifies")) as [a|] eqn:Ha; [|done].
  cbn [truthy]. destruct (node_truthy a); [|done].
  destruct (truthy (graph_value g n (CASHMERE "hasIntentionDescription"))) as [i|];
    [|done].
  destruct (truthy (graph_value g i (CASHMERE "hasStructuredDescription"))) as [lit|];
    [|done].
  destruct (json_loads (node_str lit)) as [d|]; [|done].
  destruct (as_dict d) as [d'|]; [|done]. cbn [bind].
  match goal with |- context [bind ?x _] => destruct x as [it|]; [|done] end.
  cbn [bind].
  match goal with |- context [bind ?x _] => destruct x as [ctx|]; [|done] end.
  cbn [bind].
  destruct (nonempty (last_segment (node_str n) "")); [|done].
  intros [= <-]. cbn. repeat split; try done.
  by exists g, n, rest, a.
Qed.


Import RepresentationFacts.

Lemma objects_cons_eq (g : Graph) (s p o : node) :
  objects ((s, p, o) :: g) s p = o :: objects g s p.
Proof. unfold objects. cbn. by rewrite decide_True. Qed.

Lemma objects_cons_ne (g : Graph) (s p s' p' o' : node) :
  s' <> s \/ p' <> p -> objects ((s', p', o') :: g) s p = objects g s p.
Proof. intros Hne. unfold objects. cbn. rewrite decide_False; [done|]. tauto. Qed.

Lemma subjects_cons_eq (g : Graph) (s p o : node) :
  subjects ((s, p, o) :: g) p o = s :: subjects g p o.
Proof. unfold subjects. cbn. by rewrite decide_True. Qed.

Lemma subjects_cons_ne (g : Graph) (p o s' p' o' : node) :
  p' <> p \/ o' <> o -> subjects ((s', p', o') :: g) p o = subjects g p o.
Proof. intros Hne. unfold subjects. cbn. rewrite decide_False; [done|]. tauto. Qed.

Lemma graph_add_new (g : Graph) (t : triple) :
  t ∉ g -> graph_add g t = (g ++ [t])%list.
Proof. intros Hn. unfold graph_add. by rewrite decide_False. Qed.

Lemma append_inj_l (a b c : string) : (a ++ b = a ++ c)%string -> b = c.
Proof.
  induction a as [|x a IH]; [done|].
  change (String x a ++ b)%string with (String x (a ++ b)).
  change (String x a ++ c)%string with (String x (a ++ c)).
  intros [= Heq]. by apply IH.
Qed.

Lemma cashmere_inj (a b : string) : CASHMERE a = CASHMERE b -> a = b.
Proof. unfold CASHMERE. intros [= Heq]. by apply append_inj_l in Heq. Qed.

Lemma rdf_type_not_cashmere (a : string) : RDF_type <> CASHMERE a.
Proof. unfold RDF_type, CASHMERE. cbv [String.append]. by intros [=]. Qed.

Lemma intent_not_context (s : Signifier) : intent_node s <> context_node s.
Proof.
  unfold intent_node, context_node. intros [= Heq].
  repeat apply append_inj_l in Heq. discriminate Heq.
Qed.

(** Two predicates, or two classes, of the generated graph differ. *)
Ltac names_differ :=
  let Heq := fresh "Heq" in
  intros Heq;
  first
    [ by apply cashmere_inj in Heq
    | by apply rdf_type_not_cashmere in Heq
    | by (symmetry in Heq; apply rdf_type_not_cashmere in Heq)
    | by apply intent_not_context in Heq
    | by (symmetry in Heq; apply intent_not_context in Heq) ].

Ltac triples_differ :=
  let Heq := fresh "Heq" in
  intros Heq; injection Heq; clear Heq; intros;
  first
    [ congruence
    | match goal with
      | Hx : _ = _ |- _ => by (revert Hx; names_differ)
      end
    | match goal with
      | Hx : (_ ++ _)%string = (_ ++ _)%string |- _ =>
          repeat apply append_inj_l in Hx; discriminate Hx
      end ].

Ltac not_in_graph :=
  rewrite ?not_elem_of_cons; repeat split;
  first [ apply not_elem_of_nil | triples_differ ].

(** The triples [generate_rdf] writes for a signifier without shapes. *)
Lemma generated_triples (s : Signifier) :
  no_shapes s ->
  exists extra : Graph,
    generate_rdf s
    = serialize
        ([ (signifier_uri s, RDF_type, CASHMERE "Signifier");
           (signifier_uri s, CASHMERE "signifies", URIRef (affordance_uri s));
           (signifier_uri s, CASHMERE "hasIntentionDescription", intent_node s);
           (intent_node s, RDF_type, CASHMERE "IntentionDescription");
           (intent_node s, CASHMERE "hasStructuredDescription",
            Literal (intent_json s));
           (signifier_uri s, CASHMERE "recommendsContext", context_node s);
           (context_node s, RDF_type, CASHMERE "IntentContext") ] ++ extra)%list
    /\ (extra = []
        \/ exists d, extra = [(context_node s, CASHMERE "hasStructuredDescription",
                               Literal d)]).
Proof.
  intros Hno.
  assert (Hgen : exists g,
            foldl graph_add
              (foldl graph_add []
                 [ (signifier_uri s, RDF_type, CASHMERE "Signifier");
                   (signifier_uri s, CASHMERE "signifies", URIRef (affordance_uri s));
                   (signifier_uri s, CASHMERE "hasIntentionDescription", intent_node s);
                   (intent_node s, RDF_type, CASHMERE "IntentionDescription");
                   (intent_node s, CASHMERE "hasStructuredDescription",
                    Literal (intent_json s)) ])
              [ (signifier_uri s, CASHMERE "recommendsContext", context_node s);
                (context_node s, RDF_type, CASHMERE "IntentContext") ] = g
            /\ generate_rdf s
               = serialize
                   match nl_description (context s) with
                   | Some d =>
                       if nonempty d then
                         graph_add g
                           (context_node s, CASHMERE "hasStructuredDescription",
                            Literal d)
                       else g
                   | None => g
                   end).
  { eexists. split; [reflexivity|].
    unfold generate_rdf, no_shapes in *.
    fold (signifier_uri s) (intent_node s) (context_node s) (intent_json s).
    destruct (shacl_shapes (context s)) as [t|]; [rewrite Hno|]; reflexivity. }
  destruct Hgen as (g & Hg & ->). revert Hg. cbn [foldl].
  rewrite (graph_add_new []) by not_in_graph. cbn [app].
  rewrite (graph_add_new [_]) by not_in_graph. cbn [app].
  rewrite (graph_add_new [_; _]) by not_in_graph. cbn [app].
  rewrite (graph_add_new [_; _; _]) by not_in_graph. cbn [app].
  rewrite (graph_add_new [_; _; _; _]) by not_in_graph. cbn [app].
  rewrite (graph_add_new [_; _; _; _; _]) by not_in_graph. cbn [app].
  rewrite (graph_add_new [_; _; _; _; _; _]) by not_in_graph. cbn [app].
  intros <-.
  destruct (nl_description (context s)) as [d|]; [destruct (nonempty d)|].
  - exists [(context_node s, CASHMERE "hasStructuredDescription", Literal d)].
    split; [|by right; exists d].
    by rewrite (graph_add_new [_; _; _; _; _; _; _]) by not_in_graph.
  - exists []. split; [|by left]. done.
  - exists []. split; [|by left]. done.
Qed.

Ltac read_graph :=
  repeat first
    [ rewrite objects_cons_eq
    | rewrite subjects_cons_eq
    | rewrite objects_cons_ne by (first [left; names_differ | right; names_differ])
    | rewrite subjects_cons_ne by (first [left; names_differ | right; names_differ]) ].

(** The graph [generate_rdf] builds for a signifier without shapes can
    be written exactly when the identifier and the affordance URI hold no
    character that is invalid in a URI reference. *)
Lemma generated_serializable (s : Signifier) (extra : Graph) :
  extra = []
  \/ (exists d, extra = [(context_node s, CASHMERE "hasStructuredDescription",
                          Literal d)]) ->
  serializable
    ([ (signifier_uri s, RDF_type, CASHMERE "Signifier");
       (signifier_uri s, CASHMERE "signifies", URIRef (affordance_uri s));
       (signifier_uri s, CASHMERE "hasIntentionDescription", intent_node s);
       (intent_node s, RDF_type, CASHMERE "IntentionDescription");
       (intent_node s, CASHMERE "hasStructuredDescription",
        Literal (intent_json s));
       (signifier_uri s, CASHMERE "recommendsContext", context_node s);
       (context_node s, RDF_type, CASHMERE "IntentContext") ] ++ extra)%list
  = valid_uri (signifier_id s) && valid_uri (affordance_uri s).
Proof.
  intros Hextra.
  assert (Hs : node_serializable (signifier_uri s) = valid_uri (signifier_id s)).
  { unfold signifier_uri. cbn [node_serializable]. by rewrite !valid_uri_app. }
  assert (Hi : node_serializable (intent_node s) = valid_uri (signifier_id s)).
  { unfold intent_node. cbn [node_serializable]. rewrite !valid_uri_app.
    change (valid_uri "-intent") with true. by rewrite andb_true_r. }
  assert (Hc : node_serializable (context_node s) = valid_uri (signifier_id s)).
  { unfold context_node. cbn [node_serializable]. rewrite !valid_uri_app.
    change (valid_uri "-context") with true. by rewrite andb_true_r. }
  unfold serializable. rewrite forallb_app.
  assert (He : forallb triple_serializable extra = true
               \/ forallb triple_serializable extra = valid_uri (signifier_id s)).
  { destruct Hextra as [->|[d ->]]; [by left|right].
    cbn [forallb]. unfold triple_serializable. cbn [fst snd].
    rewrite Hc. change (node_serializable (CASHMERE _)) with true.
    cbn [node_serializable]. by rewrite !andb_true_r. }
  cbn [forallb]. unfold triple_serializable. cbn [fst snd].
  rewrite Hs, Hi, Hc.
  change (node_serializable RDF_type) with true.
  change (node_serializable (CASHMERE "Signifier")) with true.
  change (node_serializable (CASHMERE "signifies")) with true.
  change (node_serializable (CASHMERE "hasIntentionDescription")) with true.
  change (node_serializable (CASHMERE "IntentionDescription")) with true.
  change (node_serializable (CASHMERE "hasStructuredDescription")) with true.
  change (node_serializable (CASHMERE "recommendsContext")) with true.
  change (node_serializable (CASHMERE "IntentContext")) with true.
  cbn [node_serializable].
  change (forallb _ extra) with (forallb triple_serializable extra).
  destruct He as [-> | ->];
    destruct (valid_uri (signifier_id s)), (valid_uri (affordance_uri s)); reflexivity.
Qed.

(** X24.  For a signifier without shapes [generate_rdf] returns exactly
    when the identifier and the affordance URI hold none of the characters
    that are invalid in a URI reference (otherwise the serializer raises),
    and what it then writes can be read back: the graph has exactly one
    node typed [cashmere:Signifier], named after the identifier, with
    exactly one [cashmere:signifies] value (the affordance), one intention
    node with one description literal (the JSON of the intent) and one
    context node; so with a non-empty affordance and a non-empty JSON text
    every predicate [parse_rdf_signifier] insists on is present. *)
Theorem generated_rdf_is_readable (s : Signifier) :
  no_shapes s ->
  is_ok (generate_rdf s) = valid_uri (signifier_id s) && valid_uri (affordance_uri s)
  /\ (valid_uri (signifier_id s) = true -> valid_uri (affordance_uri s) = true ->
      exists g,
        generate_rdf s = Ok (Serialized g)
        /\ subjects g RDF_type (CASHMERE "Signifier") = [signifier_uri s]
        /\ objects g (signifier_uri s) (CASHMERE "signifies")
           = [URIRef (affordance_uri s)]
        /\ objects g (signifier_uri s) (CASHMERE "hasIntentionDescription")
           = [intent_node s]
        /\ objects g (intent_node s) (CASHMERE "hasStructuredDescription")
           = [Literal (intent_json s)]
        /\ objects g (signifier_uri s) (CASHMERE "recommendsContext")
           = [context_node s]
        /\ (affordance_uri s <> "" -> intent_json s <> "" ->
            mandatory_present g = true)).
Proof.
  intros Hno. destruct (generated_triples s Hno) as (extra & Hgen & Hextra).
  pose proof (generated_serializable s extra Hextra) as Hser.
  split.
  { rewrite Hgen. unfold serialize. rewrite Hser.
    by destruct (valid_uri (signifier_id s)), (valid_uri (affordance_uri s)). }
  intros Hid Haff.
  rewrite Hid, Haff in Hser. apply serialize_serializable in Hser.
  rewrite <- Hgen in Hser. clear Hgen. rename Hser into Hgen.
  eexists. split; [exact Hgen|].
  assert (Hsub : subjects extra RDF_type (CASHMERE "Signifier") = []).
  { destruct Hextra as [->|[d ->]]; [done|]. by read_graph. }
  assert (Hobj : forall n p, (n <> context_node s \/ p <> CASHMERE "hasStructuredDescription")
                             -> objects extra n p = []).
  { intros n p Hne. destruct Hextra as [->|[d ->]]; [done|].
    rewrite objects_cons_ne; [done|].
    destruct Hne; [left|right]; congruence. }
  assert (H1 : subjects ([ (signifier_uri s, RDF_type, CASHMERE "Signifier");
                    (signifier_uri s, CASHMERE "signifies", URIRef (affordance_uri s));
                    (signifier_uri s, CASHMERE "hasIntentionDescription", intent_node s);
                    (intent_node s, RDF_type, CASHMERE "IntentionDescription");
                    (intent_node s, CASHMERE "hasStructuredDescription",
                     Literal (intent_json s));
                    (signifier_uri s, CASHMERE "recommendsContext", context_node s);
                    (context_node s, RDF_type, CASHMERE "IntentContext") ] ++ extra)%list
                 RDF_type (CASHMERE "Signifier") = [signifier_uri s]).
  { cbn [app]. read_graph. by rewrite Hsub. }
  assert (H2 : forall p o, 
     In (p, o) [ (CASHMERE "signifies", URIRef (affordance_uri s));
                 (CASHMERE "hasIntentionDescription", intent_node s);
                 (CASHMERE "recommendsContext", context_node s) ] ->
     objects ([ (signifier_uri s, RDF_type, CASHMERE "Signifier");
                    (signifier_uri s, CASHMERE "signifies", URIRef (affordance_uri s));
                    (signifier_uri s, CASHMERE "hasIntentionDescription", intent_node s);
                    (intent_node s, RDF_type, CASHMERE "IntentionDescription");
                    (intent_node s, CASHMERE "hasStructuredDescription",
                     Literal (intent_json s));
                    (signifier_uri s, CASHMERE "recommendsContext", context_node s);
                    (context_node s, RDF_type, CASHMERE "IntentContext") ] ++ extra)%list
              (signifier_uri s) p = [o]).
  { intros p o Hin. cbn [app].
    destruct Hin as [[= <- <-]|[[= <- <-]|[[= <- <-]|[]]]].
    all: read_graph; rewrite Hobj; [done|right; names_differ]. }
  assert (H3 : objects ([ (signifier_uri s, RDF_type, CASHMERE "Signifier");
                    (signifier_uri s, CASHMERE "signifies", URIRef (affordance_uri s));
                    (signifier_uri s, CASHMERE "hasIntentionDescription", intent_node s);
                    (intent_node s, RDF_type, CASHMERE "IntentionDescription");
                    (intent_node s, CASHMERE "hasStructuredDescription",
                     Literal (intent_json s));
                    (signifier_uri s, CASHMERE "recommendsContext", context_node s);
                    (context_node s, RDF_type, CASHMERE "IntentContext") ] ++ extra)%list
                 (intent_node s) (CASHMERE "hasStructuredDescription")
               = [Literal (intent_json s)]).
  { cbn [app]. read_graph. rewrite Hobj; [done|left; names_differ]. }
  split; [exact H1|].
  split; [apply H2; cbn; tauto|].
  split; [apply H2; cbn; tauto|].
  split; [exact H3|].
  split; [apply H2; cbn; tauto|].
  intros Ha Hj. unfold mandatory_present, graph_value.
  rewrite H1. cbn [head].
  rewrite (H2 _ (URIRef (affordance_uri s))) by (cbn; tauto).
  rewrite (H2 _ (intent_node s)) by (cbn; tauto).
  cbn [head truthy]. unfold node_truthy. cbn [node_str].
  destruct (String.eqb_spec (affordance_uri s) "") as [|_]; [done|].
  cbn [negb]. unfold intent_node at 1. cbn [node_str].
  change (String.eqb _ "") with false. cbn [negb].
  rewrite H3. cbn [head truthy]. unfold node_truthy. cbn [node_str].
  destruct (String.eqb_spec (intent_json s) "") as [|_]; [done|].
  done.
Qed.

End RepresentationOperations.

Lemma parsed_signifier_defaults_witness :
  let s := {| Model.signifier_id := "s1";
              Model.version := 1;
              Model.status := Model.ACTIVE;
              Model.intent :=
                {| Model.nl_text := "raise blinds";
                   Model.structured := Some [("intent", JStr "raise blinds")] |};
              Model.context :=
                {| Model.structured_conditions := []; Model.shacl_shapes := None;
                   Model.nl_description := None |};
              Model.affordance_uri := "http://example.org/affordances/a1";
              Model.provenance :=
                {| Model.created_at := 42; Model.created_by := "system";
                   Model.source := "rdf_import" |} |} in
  Model.version s = 1 /\ Model.status s = Model.ACTIVE.
Proof.
  intros s.
  destruct (parsed_signifier_defaults (H := Examples.example_runtime)
              42 Examples.doc_without_context "turtle" s) as (Hv & Hs & _).
  - by vm_compute.
  - by split.
Defined.


Lemma generated_rdf_is_readable_witness :
  exists g,
    RepresentationService.generate_rdf (H := JsonExamples.json_runtime)
      MoreExamples.s1_v1 = Ok (Serialized g)
    /\ RepresentationService.mandatory_present g = true.
Proof.
  destruct (proj2 (generated_rdf_is_readable (H := JsonExamples.json_runtime)
                     MoreExamples.s1_v1 I) eq_refl eq_refl)
    as (g & Hg & _ & _ & _ & _ & _ & Hm).
  exists g. split; [exact Hg|]. apply Hm; by vm_compute.
Defined.

Lemma tokens_are_words_witness :
  Forall (fun t => MatcherFacts.all_chars (fun c => negb (MatcherFacts.is_upper c)) t = true)
         (StringContainsMatcher._tokenize "Raise the Blinds" false).
Proof.
  eapply Forall_impl; [apply (tokens_are_words "Raise the Blinds" false)|].
  intros t (_ & _ & Hlow). by apply Hlow.
Defined.

(** ** Authoring validator *)

Section AuthoringValidation.
Import Model RepresentationService AuthoringValidator.
Context `{Runtime}.
Variable self : AuthoringValidator.AuthoringValidator.

Lemma flat_map_nil {A B} (f : A -> list B) (l : list A) :
  flat_map f l = [] <-> forall x, x ∈ l -> f x = [].
Proof.
  induction l as [|a l IH]; cbn.
  - split; [|done]. intros _ x Hx. by apply elem_of_nil in Hx.
  - split.
    + intros [Ha Hl]%app_eq_nil x [->|Hx]%elem_of_cons; [done|]. by apply IH.
    + intros Hall. rewrite (Hall a) by left. cbn. apply IH.
      intros x Hx. apply Hall. by right.
Qed.

(** X25.  For a model object the required-field check is vacuous: a
    signifier that passes the checks of the model class has no missing
    required field, so a non-strict validator that does not look at the
    shapes (the check is switched off, or there are no shapes) returns the
    empty list for it. *)
Theorem model_object_has_required_fields (signifier : Signifier)
    (enable_shacl_check : bool) :
  valid_signifier signifier = true ->
  _check_required_fields signifier = []
  /\ (strict_mode self = false ->
      enable_shacl_check = false \/ shapes_truthy signifier = false ->
      validate_signifier self signifier enable_shacl_check = Returned []).
Proof.
  unfold valid_signifier. intros Hvalid.
  repeat (apply andb_true_iff in Hvalid as [Hvalid ?]).
  assert (Hreq : _check_required_fields signifier = []).
  { unfold _check_required_fields.
    destruct (nonempty (signifier_id signifier)); [|done].
    destruct (nonempty (affordance_uri signifier)); [|done].
    by destruct (nonempty (nl_text (intent signifier))). }
  split; [done|]. intros Hstrict Hno.
  unfold validate_signifier, collected. rewrite Hreq, Hstrict.
  destruct Hno as [-> | ->]; [done|]. by rewrite andb_false_r.
Qed.

(** X26.  [validate_and_raise] returns exactly when no check has
    anything to report, and otherwise raises with all messages joined by
    [; ].  A strict validator never returns a non-empty list from
    [validate_signifier] (it raises instead); a non-strict one never
    raises there and returns what was collected. *)
Theorem validate_and_raise_spec (signifier : Signifier) (enable_shacl_check : bool) :
  let errors := collected self signifier enable_shacl_check in
  (validate_and_raise self signifier enable_shacl_check = Returned tt <-> errors = [])
  /\ (errors <> [] ->
      validate_and_raise self signifier enable_shacl_check
      = AuthoringValidationError
          ("Signifier validation failed: " ++ join "; " errors))
  /\ (strict_mode self = true ->
      forall l, validate_signifier self signifier enable_shacl_check = Returned l ->
                l = [])
  /\ (strict_mode self = false ->
      validate_signifier self signifier enable_shacl_check = Returned errors).
Proof.
  cbv zeta. unfold validate_and_raise, validate_signifier.
  destruct (collected self signifier enable_shacl_check) as [|e errors] eqn:Hc.
  - split; [done|]. split; [done|]. split; [|done]. by intros _ l [= <-].
  - destruct (strict_mode self).
    + split; [by split|]. split; [done|]. split; [|done]. by intros _ l [=].
    + split; [by split|]. split; [done|]. by split.
Qed.

Lemma check_property_shape_nil (g : Graph) (prop : node) :
  check_property_shape g prop = []
  <-> exists iri, graph_value g prop (SH "path") = Some (URIRef iri) /\ iri <> "".
Proof.
  unfold check_property_shape, truthy, node_truthy.
  destruct (graph_value g prop (SH "path")) as [[iri|b|l]|]; cbn [node_str].
  - destruct (String.eqb_spec iri "") as [->|Hne]; cbn.
    + split; [done|]. by intros (iri & [= <-] & Hne).
    + split; [|done]. intros _. by exists iri.
  - destruct (String.eqb b ""); cbn; (split; [done|]); by intros (iri & [=] & _).
  - destruct (String.eqb l ""); cbn; (split; [done|]); by intros (iri & [=] & _).
  - split; [done|]. by intros (iri & [=] & _).
Qed.

Lemma validate_node_shape_nil (g : Graph) (shape : node) :
  _validate_node_shape g shape = []
  <-> has_target g shape = true
      /\ forall prop, prop ∈ objects g shape (SH "property") ->
           exists iri, graph_value g prop (SH "path") = Some (URIRef iri) /\ iri <> "".
Proof.
  unfold _validate_node_shape.
  destruct (has_target g shape); cbn [negb app].
  - rewrite flat_map_nil. split.
    + intros Hall. split; [done|]. intros prop Hp.
      by apply check_property_shape_nil, Hall.
    + intros [_ Hall] prop Hp. by apply check_property_shape_nil, Hall.
  - split; [done|]. by intros [[=] _].
Qed.

(** X27.  The shapes check has nothing to report exactly when the text
    parses, the graph has at least one node with an [sh:NodeShape] object,
    each such node has a target ([sh:targetNode], [sh:targetClass] or
    [sh:targetSubjectsOf]) and each of its property shapes has an
    [sh:path] that is a non-empty IRI. *)
Theorem check_shacl_shapes_accepts (shacl_shapes : rdf_text) :
  _check_shacl_shapes shacl_shapes = []
  <-> exists g,
        parse_rdf_text shacl_shapes "turtle" = Some g
        /\ subjects_of_object g (SH "NodeShape") <> []
        /\ forall shape, shape ∈ subjects_of_object g (SH "NodeShape") ->
             has_target g shape = true
             /\ forall prop, prop ∈ objects g shape (SH "property") ->
                  exists iri, graph_value g prop (SH "path") = Some (URIRef iri)
                              /\ iri <> "".
Proof.
  unfold _check_shacl_shapes.
  destruct (parse_rdf_text shacl_shapes "turtle") as [g|].
  - destruct (subjects_of_object g (SH "NodeShape")) as [|n l] eqn:Hn.
    + split; [done|]. by intros (g' & [= <-] & Hne & _).
    + rewrite flat_map_nil. split.
      * intros Hall. exists g. rewrite Hn. split; [done|]. split; [done|].
        intros shape Hs. by apply validate_node_shape_nil, Hall.
      * intros (g' & [= <-] & _ & Hall) shape Hs.
        apply validate_node_shape_nil, Hall. by rewrite Hn.
  - split; [done|]. by intros (g & [=] & _).
Qed.

End AuthoringValidation.

Lemma model_object_has_required_fields_witness :
  AuthoringValidator.validate_signifier (H := Examples.example_runtime)
    {| AuthoringValidator.strict_mode := false |} MoreExamples.s1_v1 true
  = AuthoringValidator.Returned [].
Proof.
  refine (proj2 (model_object_has_required_fields (H := Examples.example_runtime)
                   {| AuthoringValidator.strict_mode := false |}
                   MoreExamples.s1_v1 true _) _ _).
  - reflexivity.
  - reflexivity.
  - right. reflexivity.
Defined.

(** ** Matcher registry, registration and default version *)

Section MatcherRegistryOperations.
Import IntentMatcherRegistry MatcherRegistration.
Context `{Runtime}.

(** X28.  Registration and lookup.  A matcher registered under a
    version is the one [get_matcher] returns for it, and the other
    versions are untouched; [set_default_version] refuses a version that
    is not registered and otherwise makes [get_matcher()] return the
    matcher of that version.  A new registry knows v0 and v1 and nothing
    else: a request for v0 is served by the string matcher, a request for
    v1 (by name, or with no version when v1 is the default) by the
    embedding matcher, which raises [ValueError] for an empty query and
    returns the empty list for an empty list of signifiers before it
    touches its model; any other version raises [ValueError]. *)
Theorem registry_versions (self : IntentMatcherRegistry) (version : string) (m : matcher) :
  (version <> "" -> get_matcher (register self version m) (Some version) = Ok m)
  /\ (forall v, v <> version -> v <> "" ->
        get_matcher (register self version m) (Some v) = get_matcher self (Some v))
  /\ (_matchers self !! version = None ->
      exists msg, set_default_version self version = Err (ValueError msg))
  /\ (forall m', _matchers self !! version = Some m' ->
      exists self', set_default_version self version = Ok self'
                    /\ get_default_version self' = version
                    /\ _matchers self' = _matchers self
                    /\ get_matcher self' None = Ok m')
  /\ (forall default model q dicts k,
        match_ (init default model) q dicts k (Some "v0")
        = StringContainsMatcher.match_ q dicts k false
        /\ match_ (init default model) q dicts k (Some "v1")
           = embedding_match model q dicts k
        /\ match_ (init "v1" model) q dicts k None = embedding_match model q dicts k
        /\ (exists msg, match_ (init "v1" model) "" dicts k None = Err (ValueError msg))
        /\ (q <> "" -> match_ (init "v1" model) q [] k None = Ok [])
        /\ (forall v, v <> "" -> v <> "v0" -> v <> "v1" ->
              exists msg, match_ (init default model) q dicts k (Some v)
                          = Err (ValueError msg))).
Proof.
  split; [|split; [|split; [|split]]].
  - intros Hne. unfold get_matcher, register, version_or_default.
    cbn [_matchers default_version].
    destruct (String.eqb_spec version "") as [|_]; [done|].
    by rewrite lookup_insert_eq.
  - intros v Hv Hne. unfold get_matcher, register, version_or_default.
    cbn [_matchers default_version].
    destruct (String.eqb_spec v "") as [|_]; [done|].
    by rewrite lookup_insert_ne.
  - intros Hnone. unfold set_default_version. rewrite Hnone. by eexists.
  - intros m' Hsome. unfold set_default_version. rewrite Hsome.
    eexists. split; [reflexivity|]. split; [done|]. split; [done|].
    unfold get_matcher, version_or_default. cbn [_matchers default_version].
    by rewrite Hsome.
  - intros default model q dicts k.
    assert (Hv1 : forall ver d q dicts,
              version_or_default ver d = "v1" ->
              match_ (init d model) q dicts k ver = embedding_match model q dicts k).
    { clear q dicts. intros ver d q dicts Hv. unfold match_, get_matcher, init.
      cbn [_matchers default_version]. rewrite Hv.
      by rewrite lookup_insert_eq. }
    split; [by apply registry_selects_v0|].
    split; [by apply Hv1|].
    split; [by apply Hv1|].
    split.
    { unfold match_, get_matcher, init, version_or_default.
      cbn [_matchers default_version]. rewrite lookup_insert_eq.
      cbn [bind]. unfold embedding_match. cbn. by eexists. }
    split.
    { intros Hq. rewrite Hv1 by done. unfold embedding_match.
      by destruct (String.eqb_spec q "") as [|_]. }
    intros v Hne H0 H1. unfold match_, get_matcher, init, version_or_default.
    cbn [_matchers default_version].
    destruct (String.eqb_spec v "") as [|_]; [done|].
    rewrite !lookup_insert_ne by done. rewrite lookup_empty. by eexists.
Qed.

End MatcherRegistryOperations.

(** ** Retrieval orchestrator, the pipeline *)

Section PipelineProperties.
Import Model RetrievalPipeline.
Context `{Runtime}.
Variable registry : MemoryStore.MemoryStore.
Variable matcher_registry : IntentMatcherRegistry.IntentMatcherRegistry.
Variable sse : SSE.SSE.
Variable ranker : Ranker.Ranker.
Variable default_pipeline : list string.
Variable sv : RetrievalRequest -> list Candidate -> result ModuleResult.

(** X29.  The SSE stage annotates, it does not filter: it hands on one
    candidate per candidate it was given, in the same order and with the
    same identifier, similarity and signifier, whatever the outcome; each
    carries the verdict of [evaluate] on its structured conditions (a
    signifier without conditions passes), and [passed_count] counts the
    verdicts that are true. *)
Theorem sse_stage_keeps_candidates (request : RetrievalRequest)
    (cands : list Candidate) :
  let r := _execute_sse sse request cands in
  candidate_count r = Z.of_nat (length cands)
  /\ map signifier_id (candidates r) = map signifier_id cands
  /\ map intent_similarity (candidates r) = map intent_similarity cands
  /\ map signifier (candidates r) = map signifier cands
  /\ map sse_pass (candidates r)
     = map (fun c => Some (SSE.sse_pass
                             (SSE.evaluate sse
                                (structured_conditions (context (signifier c)))
                                (context_input request)))) cands
  /\ 0 <= passed_count r <= candidate_count r.
Proof.
  cbv zeta. unfold _execute_sse.
  cbn [candidate_count candidates passed_count].
  rewrite length_map, !map_map.
  repeat split.
  - apply map_ext. intros c. unfold sse_candidate.
    by destruct (structured_conditions (context (signifier c))).
  - apply map_ext. intros c. unfold sse_candidate.
    by destruct (structured_conditions (context (signifier c))).
  - apply map_ext. intros c. unfold sse_candidate.
    by destruct (structured_conditions (context (signifier c))).
  - apply map_ext. intros c. unfold sse_candidate.
    by destruct (structured_conditions (context (signifier c))).
  - lia.
  - apply Nat2Z.inj_le. etransitivity; [apply length_filter|].
    by rewrite length_map.
Qed.

Lemma rank_ids (rk : Ranker.Ranker) (cs : list Ranker.Candidate) :
  map Ranker.signifier_id (Ranker.rank rk cs) ≡ₚ map Ranker.c_signifier_id cs.
Proof.
  rewrite (rank_perm rk cs). rewrite map_map. done.
Qed.

(** X30.  Which stages run.  Without [IM] in the pipeline nothing runs
    and nothing is returned.  With [IM] and [RP] but without [SV], when
    the intent-matching stage returns, the pipeline returns exactly one
    ranked result per candidate of that stage: neither the SSE stage nor
    the ranker removes a candidate, whatever the context, the policies
    and the gates are. *)
Theorem retrieve_stages (request : RetrievalRequest) :
  let stages := match pipeline request with [] => default_pipeline | p => p end in
  ("IM" ∉ stages ->
     retrieve registry matcher_registry sse ranker default_pipeline sv request
     = Ok {| results := []; module_results := [] |})
  /\ (forall im,
        "IM" ∈ stages -> "RP" ∈ stages -> "SV" ∉ stages ->
        _execute_intent_matching registry matcher_registry request = Ok im ->
        exists response,
          retrieve registry matcher_registry sse ranker default_pipeline sv request
          = Ok response
          /\ map Ranker.signifier_id (results response)
             ≡ₚ map (fun c => Some (signifier_id c)) (candidates im)).
Proof.
  cbv zeta. unfold retrieve.
  set (stages := match pipeline request with [] => default_pipeline | p => p end).
  split.
  - intros Hno. rewrite (bool_decide_eq_false_2 _ Hno).
    repeat (progress (cbn [andb is_nil negb bind]; rewrite ?andb_false_r)).
    done.
  - intros im Him Hrp Hsv Hok.
    rewrite (bool_decide_eq_true_2 _ Him), (bool_decide_eq_true_2 _ Hrp),
      (bool_decide_eq_false_2 _ Hsv), Hok.
    cbn [bind app andb].
    destruct (candidates im) as [|c cs] eqn:Hc.
    + repeat (progress (cbn [andb is_nil negb bind]; rewrite ?andb_false_r)).
      eexists. split; [reflexivity|]. done.
    + set (cands := c :: cs).
      assert (Hnil : forall l : list Candidate, length l = length cands -> is_nil l = false).
      { intros [|??]; [done|done]. }
      destruct (bool_decide ("SSE" ∈ stages) && negb (is_nil cands) && enable_sse request).
      * cbn [bind]. rewrite Hnil.
        2:{ unfold _execute_sse. cbn [candidates]. by rewrite length_map. }
        cbn [negb andb]. eexists. split; [reflexivity|].
        cbn [results]. unfold _execute_ranking. cbn [ranked_results].
        rewrite rank_ids. unfold _execute_sse. cbn [candidates].
        rewrite !map_map.
        match goal with |- ?l1 ≡ₚ ?l2 => assert (l1 = l2) as ->; [|done] end.
        apply map_ext. intros c'. cbn. unfold sse_candidate.
        by destruct (structured_conditions (context (signifier c'))).
      * cbn [bind]. rewrite Hnil by done.
        cbn [negb andb]. eexists. split; [reflexivity|].
        cbn [results]. unfold _execute_ranking. cbn [ranked_results].
        rewrite rank_ids. rewrite !map_map. done.
Qed.

End PipelineProperties.

Lemma validate_and_raise_spec_witness :
  AuthoringValidator.validate_and_raise (H := Examples.example_runtime)
    {| AuthoringValidator.strict_mode := true |}
    (Examples.make_signifier "s3" "open the window" Model.ACTIVE []) true
  = AuthoringValidator.AuthoringValidationError
      "Signifier validation failed: No SHACL shapes or structured conditions defined".
Proof.
  apply (proj1 (proj2 (validate_and_raise_spec (H := Examples.example_runtime)
                         {| AuthoringValidator.strict_mode := true |}
                         (Examples.make_signifier "s3" "open the window" Model.ACTIVE [])
                         true))).
  by vm_compute.
Defined.

Lemma registry_versions_witness :
  IntentMatcherRegistry.get_matcher
    (MatcherRegistration.register
       (IntentMatcherRegistry.init (H := Examples.example_runtime) "v0"
                     (fun _ _ _ => Ok []))
       "v2" (fun _ _ _ => Ok []))
    (Some "v2")
  = Ok (fun _ _ _ => Ok []).
Proof.
  apply (proj1 (registry_versions (H := Examples.example_runtime)
                  (IntentMatcherRegistry.init (H := Examples.example_runtime) "v0"
                     (fun _ _ _ => Ok []))
                  "v2" (fun _ _ _ => Ok []))).
  done.
Defined.

Lemma retrieve_stages_witness :
  RetrievalPipeline.retrieve (H := Examples.example_runtime)
    MoreExamples.store_with_s1
    (IntentMatcherRegistry.init (H := Examples.example_runtime) "v0"
                     (fun _ _ _ => Ok []))
    {| SSE.missing_value_policy := "fail"; SSE.enable_type_coercion := true |}
    Ranker.default_ranker
    ["IM"; "SSE"; "SV"; "RP"]
    (fun _ _ => Err (Unmodelled "pySHACL"))
    {| RetrievalPipeline.intent_query := "raise blinds";
       RetrievalPipeline.context_input := ∅;
       RetrievalPipeline.pipeline := ["SSE"; "RP"];
       RetrievalPipeline.matcher_version := None;
       RetrievalPipeline.k := 10;
       RetrievalPipeline.ranking_weights := None;
       RetrievalPipeline.enable_sse := true |}
  = Ok {| RetrievalPipeline.results := []; RetrievalPipeline.module_results := [] |}.
Proof.
  apply (proj1 (retrieve_stages (H := Examples.example_runtime)
                  MoreExamples.store_with_s1
                  (IntentMatcherRegistry.init (H := Examples.example_runtime) "v0"
                     (fun _ _ _ => Ok []))
                  {| SSE.missing_value_policy := "fail";
                     SSE.enable_type_coercion := true |}
                  Ranker.default_ranker
                  ["IM"; "SSE"; "SV"; "RP"]
                  (fun _ _ => Err (Unmodelled "pySHACL"))
                  {| RetrievalPipeline.intent_query := "raise blinds";
                     RetrievalPipeline.context_input := ∅;
                     RetrievalPipeline.pipeline := ["SSE"; "RP"];
                     RetrievalPipeline.matcher_version := None;
                     RetrievalPipeline.k := 10;
                     RetrievalPipeline.ranking_weights := None;
                     RetrievalPipeline.enable_sse := true |})).
  cbn. rewrite !not_elem_of_cons. repeat split; [done|done|apply not_elem_of_nil].
Defined.
